(** * logMeBE: attendance log, sheet synchronisation and change fan-out

    A shallow embedding of the parts of [app.py] and [eangenerator.py]
    that decide the behaviour of the barcode generator, of the display
    format of event times, of the derived "last inbound" query, of the
    spreadsheet gateway and of the notification dispatcher. *)

From Stdlib Require Import ZArith Lia DecimalString.
From Stdlib Require DecimalZ.
From Stdlib Require OrderedTypeEx.
From stdpp Require Import gmap strings list sets sorting.
From Stdlib Require Ascii.
Delimit Scope char_scope with char.
String Notation Ascii.ascii Ascii.ascii_of_byte Ascii.byte_of_ascii
  : char_scope.

Local Open Scope Z_scope.

(** ** Python values shared by the modules *)

Module Py.

(** [str(n)] for an [int]: decimal digits, with a leading minus sign
    for negative numbers. *)
Definition str (n : Z) : string := NilZero.string_of_int (Z.to_int n).

(** [''.join(parts)]. *)
Definition join (parts : list string) : string := String.concat "" parts.

(** [sum(xs)] over a list of [int]. *)
Definition sum (xs : list Z) : Z := foldl Z.add 0 xs.

(** [xs[0::2]]: every second item, starting with the first. *)
Fixpoint stride2 {A} (xs : list A) : list A :=
  match xs with
  | [] => []
  | x :: rest => x :: match rest with
                      | [] => []
                      | _ :: rest' => stride2 rest'
                      end
  end.

(** [xs[start::2]] for the two starts the generator uses. *)
Definition slice_from_step2 {A} (start : nat) (xs : list A) : list A :=
  stride2 (drop start xs).

(** Exceptions that the modelled code can meet. *)
Inductive exn :=
| RuntimeError (msg : string)
| OverflowError
| DatabaseError
| GatewayError.

Inductive result (A : Type) :=
| Ok (a : A)
| Raise (e : exn).
Arguments Ok {A} a.
Arguments Raise {A} e.

End Py.

(** ** eangenerator.py *)

Module Ean.

Section Generator.
(** The state of the [random] module and [random.randint]. *)
Context {rng : Type}.
Variable randint : Z -> Z -> rng -> Z * rng.

(** [[random.randint(0, 9) for _ in range(n)]] *)
Fixpoint draw_digits (n : nat) (g : rng) : list Z * rng :=
  match n with
  | O => ([], g)
  | S n' =>
      let '(d, g1) := randint 0 9 g in
      let '(ds, g2) := draw_digits n' g1 in
      (d :: ds, g2)
  end.

Definition checksum_of (digits : list Z) : Z :=
  let somma_odd := Py.sum (Py.slice_from_step2 0 digits) in
  let somma_even := Py.sum (Py.slice_from_step2 1 digits) in
  let totale := somma_odd + somma_even * 3 in
  (10 - (totale mod 10)) mod 10.

Definition genera_ean13 (g : rng) : string * rng :=
  let '(digits, g') := draw_digits 12 g in
  let checksum := checksum_of digits in
  let digits := digits ++ [checksum] in
  (Py.join (Py.str <$> digits), g').
End Generator.

(** A linear congruential generator, as one concrete [random] state. *)
Definition lcg_randint (a b : Z) (g : Z) : Z * Z :=
  (a + g mod (b - a + 1), (g * 1103515245 + 12345) mod 2147483648).

(** The character of a decimal digit. *)
Definition digit_char (d : Z) : Ascii.ascii :=
  Ascii.ascii_of_N (Z.to_N (48 + d)).

Definition ean_string (ds : list Z) : string :=
  String.string_of_list_ascii (digit_char <$> ds).

End Ean.

(** ** datetime values and [format_event_time_ita] (app.py) *)

Module Datetime.

(** The two zones that [app.py] names through [ZoneInfo]. *)
Inductive zone := UTC | Europe_Rome.

(** A [tzinfo]: a fixed offset in seconds ([datetime.timezone], the
    kind the database driver attaches) or a [ZoneInfo]. *)
Inductive tzinfo :=
| Timezone (offset : Z)
| ZoneInfo (key : zone).

Record datetime := mkDatetime {
  year : Z; month : Z; day : Z;
  hour : Z; minute : Z; second : Z; microsecond : Z;
  tzinfo_of : option tzinfo
}.

Definition replace_tzinfo (dt : datetime) (tz : option tzinfo) : datetime :=
  mkDatetime (year dt) (month dt) (day dt) (hour dt) (minute dt)
             (second dt) (microsecond dt) tz.

(** *** Calendar arithmetic of the [datetime] module *)

Definition _MAXORDINAL : Z := 3652059.
Definition _EPOCHORDINAL : Z := 719163.
Definition _DI400Y : Z := 146097.
Definition _DI100Y : Z := 36524.
Definition _DI4Y : Z := 1461.

Definition _DAYS_IN_MONTH : list Z :=
  [-1; 31; 28; 31; 30; 31; 30; 31; 31; 30; 31; 30; 31].
Definition _DAYS_BEFORE_MONTH : list Z :=
  [-1; 0; 31; 59; 90; 120; 151; 181; 212; 243; 273; 304; 334].

Definition table (t : list Z) (i : Z) : Z := nth (Z.to_nat i) t 0.

Definition _is_leap (y : Z) : bool :=
  (y mod 4 =? 0) && (negb (y mod 100 =? 0) || (y mod 400 =? 0)).

Definition _days_before_year (y : Z) : Z :=
  let y := y - 1 in y * 365 + y / 4 - y / 100 + y / 400.

Definition _days_in_month (y m : Z) : Z :=
  if (m =? 2) && _is_leap y then 29 else table _DAYS_IN_MONTH m.

Definition _days_before_month (y m : Z) : Z :=
  table _DAYS_BEFORE_MONTH m + (if (2 <? m) && _is_leap y then 1 else 0).

Definition _ymd2ord (y m d : Z) : Z :=
  _days_before_year y + _days_before_month y m + d.

Definition _ord2ymd (n : Z) : Z * Z * Z :=
  let n := n - 1 in
  let n400 := n / _DI400Y in
  let n := n mod _DI400Y in
  let y := n400 * 400 + 1 in
  let n100 := n / _DI100Y in
  let n := n mod _DI100Y in
  let n4 := n / _DI4Y in
  let n := n mod _DI4Y in
  let n1 := n / 365 in
  let n := n mod 365 in
  let y := y + n100 * 100 + n4 * 4 + n1 in
  if (n1 =? 4) || (n100 =? 4) then (y - 1, 12, 31)
  else
    let leapyear := (n1 =? 3) && (negb (n4 =? 24) || (n100 =? 3)) in
    let m := Z.shiftr (n + 50) 5 in
    let preceding :=
      table _DAYS_BEFORE_MONTH m + (if (2 <? m) && leapyear then 1 else 0) in
    if n <? preceding then
      let m := m - 1 in
      let preceding :=
        preceding
        - (table _DAYS_IN_MONTH m + (if (m =? 2) && leapyear then 1 else 0)) in
      (y, m, n - preceding + 1)
    else (y, m, n - preceding + 1).

Definition toordinal (dt : datetime) : Z :=
  _ymd2ord (year dt) (month dt) (day dt).

(** Seconds of the wall clock of [dt] since ordinal day 0. *)
Definition wall_seconds (dt : datetime) : Z :=
  toordinal dt * 86400 + hour dt * 3600 + minute dt * 60 + second dt.

(** [dt + timedelta(seconds=delta)]: the sum is normalised to days and
    seconds; a day outside [1 .. _MAXORDINAL] raises [OverflowError]. *)
Definition add_seconds (dt : datetime) (delta : Z) : Py.result datetime :=
  let total := wall_seconds dt + delta in
  let days := total / 86400 in
  let secs := total mod 86400 in
  if (0 <? days) && (days <=? _MAXORDINAL) then
    let '(y, m, d) := _ord2ymd days in
    let hh := secs / 3600 in
    let rem := secs mod 3600 in
    Py.Ok (mkDatetime y m d hh (rem / 60) (rem mod 60)
                      (microsecond dt) (tzinfo_of dt))
  else Py.Raise Py.OverflowError.

(** *** strftime *)

Definition zfill (width : nat) (s : string) : string :=
  String.string_of_list_ascii
    (replicate (width - String.length s)%nat "0"%char)
  +:+ s.

Definition directive (c : Ascii.ascii) (dt : datetime) : string :=
  if Ascii.eqb c "H" then zfill 2 (Py.str (hour dt))
  else if Ascii.eqb c "M" then zfill 2 (Py.str (minute dt))
  else if Ascii.eqb c "d" then zfill 2 (Py.str (day dt))
  else if Ascii.eqb c "m" then zfill 2 (Py.str (month dt))
  else if Ascii.eqb c "Y" then zfill 4 (Py.str (year dt))
  else if Ascii.eqb c "%" then "%"
  else String "%" (String c "").

Fixpoint strftime_chars (fmt : list Ascii.ascii) (dt : datetime) : string :=
  match fmt with
  | [] => ""
  | c :: rest =>
      if Ascii.eqb c "%" then
        match rest with
        | [] => "%"
        | d :: rest' => directive d dt +:+ strftime_chars rest' dt
        end
      else String c (strftime_chars rest dt)
  end.

Definition strftime (dt : datetime) (fmt : string) : string :=
  strftime_chars (String.list_ascii_of_string fmt) dt.

Section Zones.
(** The tz database entry of Europe/Rome: the offset from UTC, in
    seconds, in force at an instant given in seconds since the
    epoch. *)
Variable rome_utcoffset : Z -> Z.

(** [tz.utcoffset(dt)] for the zones whose offset does not depend on
    the wall clock. *)
Definition fixed_utcoffset (tz : tzinfo) : Z :=
  match tz with
  | Timezone o => o
  | ZoneInfo _ => 0
  end.

(** [ZoneInfo("Europe/Rome").fromutc(utc)] *)
Definition fromutc_rome (utc : datetime) : Py.result datetime :=
  let ts := (toordinal utc - _EPOCHORDINAL) * 86400
            + hour utc * 3600 + minute utc * 60 + second utc in
  add_seconds utc (rome_utcoffset ts).

(** [dt.astimezone(ZoneInfo("Europe/Rome"))] for an aware [dt];
    [ZoneInfo] objects are cached per key, so a [dt] already in
    Europe/Rome is returned as it is. *)
Definition astimezone_rome (dt : datetime) (mytz : tzinfo)
  : Py.result datetime :=
  match mytz with
  | ZoneInfo Europe_Rome => Py.Ok dt
  | _ =>
      match add_seconds dt (- fixed_utcoffset mytz) with
      | Py.Ok utc =>
          fromutc_rome (replace_tzinfo utc (Some (ZoneInfo Europe_Rome)))
      | Py.Raise e => Py.Raise e
      end
  end.

Definition format_event_time_ita (event_time : option datetime)
  : Py.result string :=
  match event_time with
  | None => Py.Ok ""
  | Some event_time =>
      let mytz :=
        match tzinfo_of event_time with
        | None => ZoneInfo UTC
        | Some tz => tz
        end in
      let event_time := replace_tzinfo event_time (Some mytz) in
      match astimezone_rome event_time mytz with
      | Py.Ok event_time_it =>
          Py.Ok (strftime event_time_it "%H:%M %d/%m/%Y")
      | Py.Raise e => Py.Raise e
      end
  end.
End Zones.

(** The rule of the tz database for Europe/Rome in force since 1996:
    CET (+1h), and CEST (+2h) from 01:00 UTC on the last Sunday of
    March to 01:00 UTC on the last Sunday of October. *)
Definition last_sunday (y m : Z) : Z :=
  let last := _ymd2ord y m (_days_in_month y m) in
  last - last mod 7.

Definition rome_since_1996 (ts : Z) : Z :=
  let '(y, _, _) := _ord2ymd (ts / 86400 + _EPOCHORDINAL) in
  let start := (last_sunday y 3 - _EPOCHORDINAL) * 86400 + 3600 in
  let stop := (last_sunday y 10 - _EPOCHORDINAL) * 86400 + 3600 in
  if (start <=? ts) && (ts <? stop) then 7200 else 3600.

End Datetime.

(** ** The derived view: LAST_INBOUND_SQL and fetch_last_inbound_rows *)

Module Sql.
Import Datetime.

Inductive direction := CHECKIN | CHECKOUT.

Global Instance direction_eq_dec : EqDecision direction.
Proof. solve_decision. Defined.

(** A row of [users]; [barcode] is the primary key. *)
Record user_row := mkUser {
  barcode : string; nome : string; cognome : string
}.

(** A row of [log].  [event_time] is a [timestamptz], kept as the
    microseconds since the epoch, and may be NULL. *)
Record log_row := mkLog {
  id : Z; log_barcode : string; event_time : option Z;
  log_direction : direction
}.

Record database := mkDatabase {
  users : list user_row;
  log : list log_row
}.

(** A row of the answer of LAST_INBOUND_SQL. *)
Record inbound_row := mkInbound {
  r_barcode : string; r_nome : string; r_cognome : string;
  r_event_time : option Z
}.

Global Instance inbound_row_eq_dec : EqDecision inbound_row.
Proof. solve_decision. Defined.

(** [a] is placed no later than [b] by [ORDER BY event_time DESC]:
    NULL first, then the greater time first. *)
Definition time_desc (a b : option Z) : Prop :=
  match a, b with
  | None, _ => True
  | Some _, None => False
  | Some x, Some y => y <= x
  end.

Global Instance time_desc_dec : RelDecision time_desc.
Proof. intros [x|] [y|]; simpl; apply _. Defined.

(** [SELECT DISTINCT ON (key) ...] over sorted rows: a row is kept
    when its key differs from the key of the row before it. *)
Fixpoint distinct_on {A K} `{EqDecision K} (key : A -> K)
    (prev : option K) (rows : list A) : list A :=
  match rows with
  | [] => []
  | r :: rest =>
      if decide (prev = Some (key r))
      then distinct_on key (Some (key r)) rest
      else r :: distinct_on key (Some (key r)) rest
  end.

Section Query.
(** The collation of the [barcode] column. *)
Context (collate : relation string) `{!RelDecision collate}.

(** [ORDER BY barcode, event_time DESC] *)
Definition by_barcode_then_recent (l1 l2 : log_row) : Prop :=
  collate (log_barcode l1) (log_barcode l2)
  /\ (collate (log_barcode l2) (log_barcode l1)
      -> time_desc (event_time l1) (event_time l2)).

Global Instance by_barcode_then_recent_dec :
  RelDecision by_barcode_then_recent.
Proof. intros l1 l2. unfold by_barcode_then_recent. apply _. Defined.

(** The subquery [l]: the first row of every barcode. *)
Definition latest_per_barcode (rows : list log_row) : list log_row :=
  distinct_on log_barcode None (merge_sort by_barcode_then_recent rows).

(** [l JOIN users u ON u.barcode = l.barcode] *)
Definition join_users (us : list user_row) (ls : list log_row)
  : list (user_row * log_row) :=
  l ← ls; u ← us;
  if decide (barcode u = log_barcode l) then [(u, l)] else [].

(** [WHERE l.direction = 'CHECKIN'] *)
Definition is_checkin (ul : user_row * log_row) : Prop :=
  log_direction ul.2 = CHECKIN.

Global Instance is_checkin_dec ul : Decision (is_checkin ul).
Proof. unfold is_checkin. apply _. Defined.

(** [ORDER BY l.event_time DESC] *)
Definition by_recent (a b : user_row * log_row) : Prop :=
  time_desc (event_time a.2) (event_time b.2).

Global Instance by_recent_dec : RelDecision by_recent.
Proof. intros a b. unfold by_recent. apply _. Defined.

Definition select_row (ul : user_row * log_row) : inbound_row :=
  mkInbound (barcode ul.1) (nome ul.1) (cognome ul.1) (event_time ul.2).

Definition LAST_INBOUND_SQL (db : database) : list inbound_row :=
  let l := latest_per_barcode (log db) in
  let joined := join_users (users db) l in
  let kept := filter is_checkin joined in
  select_row <$> merge_sort by_recent kept.
End Query.

(** Byte order of strings, the collation of the "C" locale. *)
Definition byte_order (a b : string) : Prop := String.leb a b = true.

Global Instance byte_order_dec : RelDecision byte_order.
Proof. intros a b. unfold byte_order. apply _. Defined.

(** What the driver hands to Python for a [timestamptz]: an aware
    [datetime] in UTC. *)
Definition epoch_utc : datetime :=
  mkDatetime 1970 1 1 0 0 0 0 (Some (Timezone 0)).

Definition timestamptz_decode (us : Z) : Py.result datetime :=
  match add_seconds epoch_utc (us / 1000000) with
  | Py.Ok dt =>
      Py.Ok (mkDatetime (year dt) (month dt) (day dt) (hour dt)
                        (minute dt) (second dt) (us mod 1000000)
                        (tzinfo_of dt))
  | Py.Raise e => Py.Raise e
  end.

Definition decode_event_time (t : option Z)
  : Py.result (option datetime) :=
  match t with
  | None => Py.Ok None
  | Some us =>
      match timestamptz_decode us with
      | Py.Ok dt => Py.Ok (Some dt)
      | Py.Raise e => Py.Raise e
      end
  end.

End Sql.

(** ** The worksheet behind the gateway *)

Module Sheet.
Local Open Scope nat_scope.

(** A cell is addressed by (row, column), both counted from 1, so
    that A2 is [(2, 1)]. *)
Definition cell : Type := nat * nat.

(** A range in A1 notation: corner, last column, and last row when
    the range is bounded below. *)
Record a1_range := mkRange {
  first_row : nat; first_col : nat;
  last_row : option nat; last_col : nat
}.

Definition letter_index (c : Ascii.ascii) : option nat :=
  let n := Ascii.nat_of_ascii c in
  if decide (65 <= n <= 90)%nat then Some (n - 64)%nat else None.

Definition digit_value (c : Ascii.ascii) : option nat :=
  let n := Ascii.nat_of_ascii c in
  if decide (48 <= n <= 57)%nat then Some (n - 48)%nat else None.

Fixpoint parse_letters (acc : nat) (s : list Ascii.ascii)
  : nat * list Ascii.ascii :=
  match s with
  | c :: rest =>
      match letter_index c with
      | Some k => parse_letters (acc * 26 + k)%nat rest
      | None => (acc, s)
      end
  | [] => (acc, [])
  end.

Fixpoint parse_digits (acc : option nat) (s : list Ascii.ascii)
  : option nat * list Ascii.ascii :=
  match s with
  | c :: rest =>
      match digit_value c with
      | Some k => parse_digits (Some (default 0 acc * 10 + k)%nat) rest
      | None => (acc, s)
      end
  | [] => (acc, [])
  end.

(** "A2:D" and "A2" are the two forms the pipeline uses. *)
Definition parse_a1 (name : string) : option a1_range :=
  let '(c0, s1) := parse_letters 0 (String.list_ascii_of_string name) in
  let '(r0, s2) := parse_digits None s1 in
  match s2 with
  | [] => Some (mkRange (default 1 r0) c0 r0 c0)
  | sep :: s3 =>
      if Ascii.eqb sep ":" then
        let '(c1, s4) := parse_letters 0 s3 in
        let '(r1, s5) := parse_digits None s4 in
        match s5 with
        | [] => Some (mkRange (default 1 r0) c0 r1 c1)
        | _ => None
        end
      else None
  end.

Definition in_range (rg : a1_range) (k : cell) : Prop :=
  (first_row rg <= k.1)%nat
  /\ (first_col rg <= k.2 <= last_col rg)%nat
  /\ match last_row rg with
     | Some r => (k.1 <= r)%nat
     | None => True
     end.

Global Instance in_range_dec rg k : Decision (in_range rg k).
Proof. unfold in_range. destruct (last_row rg); apply _. Defined.

(** The values of a worksheet: the cells that hold text. *)
Abbreviation worksheet := (gmap cell string).

Definition clear_range (rg : a1_range) (ws : worksheet) : worksheet :=
  filter (fun kv => ~ in_range rg kv.1) ws.

(** The cells that a block of rows occupies when its top-left value
    goes to [(r0, c0)]. *)
Fixpoint row_cells (r c : nat) (vals : list string)
  : list (cell * string) :=
  match vals with
  | [] => []
  | v :: rest => ((r, c), v) :: row_cells r (S c) rest
  end.

Fixpoint block_cells (r c0 : nat) (rows : list (list string))
  : list (cell * string) :=
  match rows with
  | [] => []
  | vals :: rest => row_cells r c0 vals ++ block_cells (S r) c0 rest
  end.

Definition write_block (r0 c0 : nat) (rows : list (list string))
    (ws : worksheet) : worksheet :=
  list_to_map (block_cells r0 c0 rows) ∪ ws.

(** The calls that reach the spreadsheet API. *)
Inductive gateway_call :=
| BatchClear (ranges : list string)
| Update (range_name : string) (values : list (list string)).

End Sheet.

(** ** The sync pipeline *)

Module Sync.
Import Datetime Sql Sheet.

(** What a sync run can see and change outside the process. *)
Record world := mkWorld {
  db : database;
  sheet : worksheet;
  calls : list gateway_call;
  (** the module-level [_worksheet]: set once the handle is open *)
  _worksheet : bool
}.

(** The failures that the outside can inject into one run. *)
Record faults := mkFaults {
  query_fails : bool;
  open_fails : bool;
  clear_fails : bool;
  update_fails : bool
}.

Definition no_faults : faults := mkFaults false false false false.

(** Computations over the world that may raise. *)
Definition M (A : Type) : Type := world -> Py.result A * world.

Global Instance M_ret : MRet M := fun A a w => (Py.Ok a, w).
Global Instance M_bind : MBind M := fun A B k m w =>
  match m w with
  | (Py.Ok a, w') => k a w'
  | (Py.Raise e, w') => (Py.Raise e, w')
  end.

Fixpoint mapM {A B} (f : A -> Py.result B) (l : list A)
  : Py.result (list B) :=
  match l with
  | [] => Py.Ok []
  | a :: rest =>
      match f a with
      | Py.Ok b =>
          match mapM f rest with
          | Py.Ok bs => Py.Ok (b :: bs)
          | Py.Raise e => Py.Raise e
          end
      | Py.Raise e => Py.Raise e
      end
  end.

Section Pipeline.
Context (collate : relation string) `{!RelDecision collate}.
Variable rome_utcoffset : Z -> Z.
Variable f : faults.

(** [ws.batch_clear(ranges)] *)
Definition batch_clear (ranges : list string) : M unit :=
  fun w =>
    let w := mkWorld (db w) (sheet w) (calls w ++ [BatchClear ranges])
                     (_worksheet w) in
    if clear_fails f then (Py.Raise Py.GatewayError, w)
    else
      match mapM (fun n => match parse_a1 n with
                           | Some rg => Py.Ok rg
                           | None => Py.Raise Py.GatewayError
                           end) ranges with
      | Py.Ok rgs =>
          (Py.Ok tt,
           mkWorld (db w) (foldr clear_range (sheet w) rgs) (calls w)
                   (_worksheet w))
      | Py.Raise e => (Py.Raise e, w)
      end.

(** [ws.update(range_name, values)] *)
Definition update (range_name : string) (values : list (list string))
  : M unit :=
  fun w =>
    let w := mkWorld (db w) (sheet w)
                     (calls w ++ [Update range_name values])
                     (_worksheet w) in
    if update_fails f then (Py.Raise Py.GatewayError, w)
    else
      match parse_a1 range_name with
      | Some rg =>
          (Py.Ok tt,
           mkWorld (db w)
                   (write_block (first_row rg) (first_col rg) values
                                (sheet w))
                   (calls w) (_worksheet w))
      | None => (Py.Raise Py.GatewayError, w)
      end.

Definition get_worksheet : M unit :=
  fun w =>
    if _worksheet w then (Py.Ok tt, w)
    else if open_fails f then (Py.Raise Py.GatewayError, w)
    else (Py.Ok tt, mkWorld (db w) (sheet w) (calls w) true).

Definition sheet_row (r : inbound_row) : Py.result (list string) :=
  match decode_event_time (r_event_time r) with
  | Py.Ok event_time =>
      match format_event_time_ita rome_utcoffset event_time with
      | Py.Ok event_time_str =>
          Py.Ok [r_barcode r; r_nome r; r_cognome r; event_time_str]
      | Py.Raise e => Py.Raise e
      end
  | Py.Raise e => Py.Raise e
  end.

Definition fetch_last_inbound_rows : M (list (list string)) :=
  fun w =>
    if query_fails f then (Py.Raise Py.DatabaseError, w)
    else (mapM sheet_row (LAST_INBOUND_SQL collate (db w)), w).

Definition write_full_table_to_sheet
    (rows_for_sheet : list (list string)) : M unit :=
  _ ← get_worksheet;
  _ ← batch_clear ["A2:D"];
  match rows_for_sheet with
  | [] => mret tt
  | _ => update "A2" rows_for_sheet
  end.

Definition refresh_sheet_from_db : M unit :=
  rows_for_sheet ← fetch_last_inbound_rows;
  write_full_table_to_sheet rows_for_sheet.
End Pipeline.

End Sync.

(** ** The notification dispatcher *)

Module Dispatcher.
Import Datetime Sql Sheet Sync.

(** A websocket connection, by identity. *)
Definition websocket : Type := nat.

(** What [_listener] puts on the queue. *)
Record event := mkEvent { ev_channel : string; ev_payload : string }.

(** What [send_json] is given. *)
Record message := mkMessage {
  msg_type : string; msg_channel : string; msg_payload : string
}.

(** A task made by [asyncio.create_task(refresh_sheet_from_db())]: not
    started, suspended between the query and the write, or finished
    with the result or exception that the task object keeps. *)
Inductive task :=
| Pending
| Fetched (rows_for_sheet : list (list string))
| Finished (r : Py.result unit).

(** What the other tasks of the event loop do while the dispatcher is
    suspended in an [await]. *)
Inductive env_action :=
| Connect (c : websocket)
| Disconnect (c : websocket)
| Notify (channel payload : string)
| Commit (db' : database)
| StepSync (i : nat) (f : faults).

(** One broadcast as seen from outside: the message and, in order, the
    connections it was sent to with [true] for a send that returned. *)
Record broadcast := mkBroadcast {
  b_message : message;
  b_attempts : list (websocket * bool)
}.

Record state := mkState {
  connected_websockets : gset websocket;
  notification_queue : list event;
  tasks : list task;
  outside : world;
  (** the actions of the other tasks, one list per [await] *)
  schedule : list (list env_action);
  (** history: every event put on the queue, every broadcast made *)
  received : list event;
  broadcasts : list broadcast
}.

Definition with_websockets (s : gset websocket) (st : state) : state :=
  mkState s (notification_queue st) (tasks st) (outside st) (schedule st)
          (received st) (broadcasts st).
Definition with_queue (q : list event) (st : state) : state :=
  mkState (connected_websockets st) q (tasks st) (outside st)
          (schedule st) (received st) (broadcasts st).
Definition with_tasks (ts : list task) (st : state) : state :=
  mkState (connected_websockets st) (notification_queue st) ts
          (outside st) (schedule st) (received st) (broadcasts st).
Definition with_outside (w : world) (st : state) : state :=
  mkState (connected_websockets st) (notification_queue st) (tasks st)
          w (schedule st) (received st) (broadcasts st).
Definition with_schedule (sch : list (list env_action)) (st : state)
  : state :=
  mkState (connected_websockets st) (notification_queue st) (tasks st)
          (outside st) sch (received st) (broadcasts st).
Definition with_received (evs : list event) (st : state) : state :=
  mkState (connected_websockets st) (notification_queue st) (tasks st)
          (outside st) (schedule st) evs (broadcasts st).
Definition with_broadcasts (bs : list broadcast) (st : state) : state :=
  mkState (connected_websockets st) (notification_queue st) (tasks st)
          (outside st) (schedule st) (received st) bs.

Section Loop.
Context (collate : relation string) `{!RelDecision collate}.
Variable rome_utcoffset : Z -> Z.
(** [send_raises k c]: [c.send_json] raises an [Exception] during
    broadcast number [k] (counted from 0). *)
Variable send_raises : nat -> websocket -> bool.

(** One resumption of a sync task: from the start to the end of the
    query, or from there to the end of the sheet write. *)
Definition step_task (f : faults) (t : task) (w : world)
  : task * world :=
  match t with
  | Pending =>
      match fetch_last_inbound_rows collate rome_utcoffset f w with
      | (Py.Ok rows, w') => (Fetched rows, w')
      | (Py.Raise e, w') => (Finished (Py.Raise e), w')
      end
  | Fetched rows =>
      match write_full_table_to_sheet f rows w with
      | (r, w') => (Finished r, w')
      end
  | Finished r => (Finished r, w)
  end.

Definition apply_action (a : env_action) (st : state) : state :=
  match a with
  | Connect c =>
      with_websockets (connected_websockets st ∪ {[c]}) st
  | Disconnect c =>
      with_websockets (connected_websockets st ∖ {[c]}) st
  | Notify channel payload =>
      let ev := mkEvent channel payload in
      with_received (received st ++ [ev])
        (with_queue (notification_queue st ++ [ev]) st)
  | Commit db' =>
      let w := outside st in
      with_outside (mkWorld db' (sheet w) (calls w) (_worksheet w)) st
  | StepSync i f =>
      match tasks st !! i with
      | Some t =>
          let '(t', w') := step_task f t (outside st) in
          with_outside w' (with_tasks (<[i := t']> (tasks st)) st)
      | None => st
      end
  end.

(** The dispatcher is suspended once: the other tasks run. *)
Definition await (st : state) : state :=
  match schedule st with
  | [] => st
  | acts :: rest => foldl (flip apply_action) (with_schedule rest st) acts
  end.

(** The locals of the broadcast loop together with the state. *)
Record loop_vars := mkVars {
  dead : list websocket;
  attempts : list (websocket * bool);
  now : state
}.

(** The body of [for ws in ...]: [try: await ws.send_json(message)
    except Exception: dead.append(ws)]. *)
Definition send_to (k : nat) (c : websocket) (v : loop_vars)
  : loop_vars :=
  let st := await (now v) in
  if send_raises k c
  then mkVars (dead v ++ [c]) (attempts v ++ [(c, false)]) st
  else mkVars (dead v) (attempts v ++ [(c, true)]) st.

(** A [for] loop over [items].  [si_used] is [None] for the iterator
    of a list; for the iterator of the set itself it is the size the
    set had when the loop began, and every call of [next] compares
    it with the present size. *)
Definition size_changed (si_used : option nat) (s : gset websocket)
  : bool :=
  match si_used with
  | None => false
  | Some n => negb (n =? size s)%nat
  end.

Fixpoint for_each (si_used : option nat) (items : list websocket)
    (k : nat) (v : loop_vars) : Py.result loop_vars :=
  if size_changed si_used (connected_websockets (now v))
  then Py.Raise (Py.RuntimeError "Set changed size during iteration")
  else
    match items with
    | [] => Py.Ok v
    | c :: rest => for_each si_used rest k (send_to k c v)
    end.

Definition discard (st : state) (c : websocket) : state :=
  with_websockets (connected_websockets st ∖ {[c]}) st.

(** [asyncio.create_task(refresh_sheet_from_db())] *)
Definition create_task (st : state) : state :=
  with_tasks (tasks st ++ [Pending]) st.

(** The body of [while True], after [event] has been taken from the
    queue. *)
Definition dispatch (event : event) (st : state) : Py.result state :=
  let message :=
    mkMessage "logs_changed" (ev_channel event) (ev_payload event) in
  let k := length (broadcasts st) in
  match for_each None (elements (connected_websockets st)) k
                 (mkVars [] [] st) with
  | Py.Ok v =>
      let st := foldl discard (now v) (dead v) in
      let st :=
        with_broadcasts
          (broadcasts st ++ [mkBroadcast message (attempts v)]) st in
      Py.Ok (create_task st)
  | Py.Raise e => Py.Raise e
  end.

(** [fuel] turns of [while True].  With an empty queue the turn is
    spent suspended in [notification_queue.get()]. *)
Fixpoint notification_dispatcher (fuel : nat) (st : state)
  : Py.result state :=
  match fuel with
  | O => Py.Ok st
  | S fuel' =>
      match notification_queue st with
      | [] => notification_dispatcher fuel' (await st)
      | event :: rest =>
          match dispatch event (with_queue rest st) with
          | Py.Ok st' => notification_dispatcher fuel' st'
          | Py.Raise e => Py.Raise e
          end
      end
  end.
End Loop.

Definition message_of (ev : event) : message :=
  mkMessage "logs_changed" (ev_channel ev) (ev_payload ev).

Definition empty_world : world :=
  mkWorld (mkDatabase [] []) ∅ [] false.

(** The state at startup, with some connections and queued events. *)
Definition startup (conns : gset websocket) (queue : list event)
    (sch : list (list env_action)) : state :=
  mkState conns queue [] empty_world sch queue [].

End Dispatcher.

(** ** The worksheet handle: get_worksheet *)

Module Handle.

(** The calls that [get_worksheet] makes to the Google libraries. *)
Inductive library_call :=
| FromServiceAccountFile
| Authorize
| OpenByKey
| Worksheet.

Global Instance library_call_eq_dec : EqDecision library_call.
Proof. solve_decision. Defined.

(** The module-level [_credentials], [_client] and [_worksheet]; an
    object is named by the position in [made] of the call that
    returned it.  [made] lists the library calls made so far, with
    [true] for a call that returned. *)
Record globals := mkGlobals {
  _credentials : option nat;
  _client : option nat;
  _worksheet : option nat;
  made : list (library_call * bool)
}.

Definition at_import : globals := mkGlobals None None None [].

Definition G (A : Type) : Type := globals -> Py.result A * globals.

Global Instance G_ret : MRet G := fun A a g => (Py.Ok a, g).
Global Instance G_bind : MBind G := fun A B k m g =>
  match m g with
  | (Py.Ok a, g') => k a g'
  | (Py.Raise e, g') => (Py.Raise e, g')
  end.

(** One library call: it raises when [raises] says so for its position
    among the calls. *)
Definition call (raises : nat -> bool) (c : library_call) : G nat :=
  fun g =>
    let n := length (made g) in
    if raises n
    then (Py.Raise Py.GatewayError,
          mkGlobals (_credentials g) (_client g) (_worksheet g)
                    (made g ++ [(c, false)]))
    else (Py.Ok n,
          mkGlobals (_credentials g) (_client g) (_worksheet g)
                    (made g ++ [(c, true)])).

Definition set_credentials (c : nat) : G unit :=
  fun g => (Py.Ok tt, mkGlobals (Some c) (_client g) (_worksheet g) (made g)).
Definition set_client (c : nat) : G unit :=
  fun g =>
    (Py.Ok tt, mkGlobals (_credentials g) (Some c) (_worksheet g) (made g)).
Definition set_worksheet (ws : nat) : G unit :=
  fun g =>
    (Py.Ok tt, mkGlobals (_credentials g) (_client g) (Some ws) (made g)).

Definition get_worksheet (raises : nat -> bool) : G nat :=
  fun g =>
    match _worksheet g with
    | Some ws => (Py.Ok ws, g)
    | None =>
        (_ ← (fun g =>
                match _credentials g with
                | Some _ => (Py.Ok tt, g)
                | None =>
                    (c ← call raises FromServiceAccountFile;
                     set_credentials c) g
                end);
         _ ← (fun g =>
                match _client g with
                | Some _ => (Py.Ok tt, g)
                | None => (c ← call raises Authorize; set_client c) g
                end);
         _ ← call raises OpenByKey;
         ws ← call raises Worksheet;
         _ ← set_worksheet ws;
         mret ws) g
    end.

(** [n] calls of [get_worksheet], one after the other, with their
    results. *)
Fixpoint calls_in_a_row (raises : nat -> bool) (n : nat) (g : globals)
  : list (Py.result nat) * globals :=
  match n with
  | O => ([], g)
  | S n' =>
      let '(r, g1) := get_worksheet raises g in
      let '(rs, g2) := calls_in_a_row raises n' g1 in
      (r :: rs, g2)
  end.

End Handle.

(** ** Python and Quart values of the HTTP routes *)

Module Http.

(** Text is a [string] whose characters stand for the code points
    below 256. *)

(** A JSON value as [request.get_json] returns it.  A float is kept
    by what the routes can observe of it, whether it is zero; an
    object is kept as its members in the order of the document, of
    which the last one of a key counts. *)
#[local] Unset Elimination Schemes.
Inductive json :=
| JNull
| JBool (b : bool)
| JInt (n : Z)
| JFloat (nonzero : bool)
| JStr (s : string)
| JList (items : list json)
| JDict (items : list (string * json)).
#[local] Set Elimination Schemes.

(** What a route can raise: [abort(code, description)], the exceptions
    of Python's own operations, and the exceptions of asyncpg, of
    which the routes tell [UniqueViolationError] from the others. *)
Inductive exn :=
| HTTPException (code : Z) (description : string)
| AttributeError
| TypeError
| ValueError
| IndexError
| OverflowError
| UniqueViolationError
| PostgresError.

Inductive outcome (A : Type) :=
| Return (a : A)
| Raise (e : exn).
Arguments Return {A} a.
Arguments Raise {A} e.

Global Instance outcome_ret : MRet outcome := fun A a => Return a.
Global Instance outcome_bind : MBind outcome := fun A B k m =>
  match m with
  | Return a => k a
  | Raise e => Raise e
  end.

(** A loop that appends [f x] for every [x], up to the first
    exception. *)
Fixpoint traverse {A B} (f : A -> outcome B) (l : list A)
  : outcome (list B) :=
  match l with
  | [] => Return []
  | a :: rest => b ← f a; bs ← traverse f rest; Return (b :: bs)
  end.

(** What a route returns: [jsonify(body), status]. *)
Record response := mkResponse { status : Z; body : json }.

(** The status that the client sees: Quart answers an [HTTPException]
    with its code and any other exception with 500. *)
Definition status_seen (r : outcome response) : Z :=
  match r with
  | Return resp => status resp
  | Raise (HTTPException code _) => code
  | Raise _ => 500
  end.

(** [bool(v)] *)
Definition truthy (v : json) : bool :=
  match v with
  | JNull => false
  | JBool b => b
  | JInt n => negb (n =? 0)
  | JFloat nonzero => nonzero
  | JStr s => negb (bool_decide (s = ""))
  | JList items => match items with [] => false | _ => true end
  | JDict items => match items with [] => false | _ => true end
  end.

(** [len(v)] *)
Definition len (v : json) : outcome nat :=
  match v with
  | JStr s => Return (String.length s)
  | JList items => Return (length items)
  | JDict items => Return (length (remove_dups items.*1))
  | _ => Raise TypeError
  end.

(** [c.isdigit()] for one character: the decimal digits and the
    superscripts 1, 2 and 3. *)
Definition isdigit_char (c : Ascii.ascii) : bool :=
  let n := Ascii.nat_of_ascii c in
  ((48 <=? n) && (n <=? 57) || (n =? 178) || (n =? 179) || (n =? 185))%nat.

(** [s.isdigit()] *)
Definition str_isdigit (s : string) : bool :=
  negb (bool_decide (s = ""))
  && forallb isdigit_char (String.list_ascii_of_string s).

(** [v.isdigit()] *)
Definition isdigit (v : json) : outcome bool :=
  match v with
  | JStr s => Return (str_isdigit s)
  | _ => Raise AttributeError
  end.

(** The member of an object parsed from JSON. *)
Fixpoint member (key : string) (items : list (string * json))
  : option json :=
  match items with
  | [] => None
  | (k, v) :: rest =>
      match member key rest with
      | Some v' => Some v'
      | None => if decide (k = key) then Some v else None
      end
  end.

(** [data.get(key)] *)
Definition get (data : json) (key : string) : outcome json :=
  match data with
  | JDict items => Return (default JNull (member key items))
  | _ => Raise AttributeError
  end.

(** [v == s] for a string [s]. *)
Definition eq_str (v : json) (s : string) : bool :=
  match v with
  | JStr s' => bool_decide (s' = s)
  | _ => false
  end.

(** [c.isspace()] *)
Definition isspace (c : Ascii.ascii) : bool :=
  let n := Ascii.nat_of_ascii c in
  ((9 <=? n) && (n <=? 13) || (28 <=? n) && (n <=? 32)
   || (n =? 133) || (n =? 160))%nat.

(** [s.split()]: the maximal runs of characters that are not
    whitespace.  [word] holds the run under way, last character
    first. *)
Fixpoint split_chars (word : list Ascii.ascii) (s : list Ascii.ascii)
  : list string :=
  match s with
  | [] =>
      match word with
      | [] => []
      | _ => [String.string_of_list_ascii (rev word)]
      end
  | c :: rest =>
      if isspace c then
        match word with
        | [] => split_chars [] rest
        | _ => String.string_of_list_ascii (rev word) :: split_chars [] rest
        end
      else split_chars (c :: word) rest
  end.

Definition split (s : string) : list string :=
  split_chars [] (String.list_ascii_of_string s).

(** [xs[-1]] *)
Definition last_item {A} (xs : list A) : outcome A :=
  match last xs with
  | Some x => Return x
  | None => Raise IndexError
  end.

Definition decimal_value (c : Ascii.ascii) : option Z :=
  let n := Ascii.nat_of_ascii c in
  if ((48 <=? n) && (n <=? 57))%nat then Some (Z.of_nat n - 48) else None.

(** The digits of an [int] literal: single underscores are allowed
    between digits only. *)
Fixpoint int_digits (acc : Z) (after_digit : bool) (s : list Ascii.ascii)
  : option Z :=
  match s with
  | [] => if after_digit then Some acc else None
  | c :: rest =>
      match decimal_value c with
      | Some d => int_digits (10 * acc + d) true rest
      | None =>
          if Ascii.eqb c "_" && after_digit
          then int_digits acc false rest
          else None
      end
  end.

Fixpoint lstrip (s : list Ascii.ascii) : list Ascii.ascii :=
  match s with
  | c :: rest => if isspace c then lstrip rest else s
  | [] => []
  end.

(** [int(s)] for a string: whitespace around, a sign, decimal digits.
    The interpreter's bound on the number of digits (4300 unless
    configured) is left out. *)
Definition int (s : string) : outcome Z :=
  let s := rev (lstrip (rev (lstrip (String.list_ascii_of_string s)))) in
  let '(sign, digits) :=
    match s with
    | c :: rest =>
        if Ascii.eqb c "-" then (-1, rest)
        else if Ascii.eqb c "+" then (1, rest)
        else (1, s)
    | [] => (1, [])
    end in
  match int_digits 0 false digits with
  | Some n => Return (sign * n)
  | None => Raise ValueError
  end.

End Http.

(** ** The HTTP routes over the tables *)

Module Api.
Import Datetime Sql Http.

(** A route runs over the tables and may raise.  Each route is
    modelled as it runs when the pool hands out a connection and no
    other request commits between its statements. *)
Definition H (A : Type) : Type := database -> outcome A * database.

Global Instance H_ret : MRet H := fun A a db => (Return a, db).
Global Instance H_bind : MBind H := fun A B k m db =>
  match m db with
  | (Return a, db') => k a db'
  | (Raise e, db') => (Raise e, db')
  end.

Definition lift {A} (o : outcome A) : H A := fun db => (o, db).

(** [abort(code, description)] *)
Definition abort {A} (code : Z) (description : string) : H A :=
  lift (Raise (HTTPException code description)).

(** *** The statements, over the schema of conftest.py *)

Definition has_nul (s : string) : bool :=
  existsb (fun c => (Ascii.nat_of_ascii c =? 0)%nat)
          (String.list_ascii_of_string s).

(** A Python value as the argument of a text parameter: [None] is
    NULL, a [str] without the zero character is itself, and the
    driver or the server refuses the rest. *)
Definition text_arg (v : json) : outcome (option string) :=
  match v with
  | JNull => Return None
  | JStr s => if has_nul s then Raise PostgresError else Return (Some s)
  | _ => Raise PostgresError
  end.

(** A Python [int] as the argument of an [integer] parameter. *)
Definition int4_arg (n : Z) : outcome Z :=
  if (-2147483648 <=? n) && (n <=? 2147483647) then Return n
  else Raise PostgresError.

(** Storing into a [VARCHAR(n)] column: characters beyond [n] are an
    error unless they are all spaces, which are cut off. *)
Definition varchar (n : nat) (s : string) : outcome string :=
  let cs := String.list_ascii_of_string s in
  if forallb (fun c => Ascii.eqb c " ") (drop n cs)
  then Return (String.string_of_list_ascii (take n cs))
  else Raise PostgresError.

(** The command tag that [execute] returns for a DELETE. *)
Definition delete_tag (n : nat) : string :=
  "DELETE " +:+ Py.str (Z.of_nat n).

(** [SELECT barcode, nome, cognome FROM users WHERE barcode = $1],
    first row. *)
Definition select_user (barcode : json) : H (option user_row) :=
  fun db =>
    match text_arg barcode with
    | Return (Some b) =>
        (Return (List.find (fun u => bool_decide (Sql.barcode u = b))
                           (users db)), db)
    | Return None => (Return None, db)
    | Raise e => (Raise e, db)
    end.

(** [SELECT barcode FROM users WHERE barcode = $1], first row. *)
Definition select_barcode (barcode : json) : H (option string) :=
  fun db =>
    match text_arg barcode with
    | Return (Some b) =>
        (Return (List.find (fun b' => bool_decide (b' = b))
                           (Sql.barcode <$> users db)), db)
    | Return None => (Return None, db)
    | Raise e => (Raise e, db)
    end.

(** [INSERT INTO users (barcode, nome, cognome) VALUES ($1, $2, $3)] *)
Definition insert_user (barcode nome cognome : json) : H string :=
  fun db =>
    let row :=
      b ← text_arg barcode; n ← text_arg nome; c ← text_arg cognome;
      match b, n, c with
      | Some b, Some n, Some c =>
          b' ← varchar 13 b; n' ← varchar 255 n; c' ← varchar 255 c;
          Return (mkUser b' n' c')
      | _, _, _ => Raise PostgresError
      end in
    match row with
    | Return u =>
        if bool_decide (Sql.barcode u ∈ Sql.barcode <$> users db)
        then (Raise UniqueViolationError, db)
        else (Return "INSERT 0 1", mkDatabase (users db ++ [u]) (log db))
    | Raise e => (Raise e, db)
    end.

(** [DELETE FROM log WHERE barcode = $1] *)
Definition delete_log_of (barcode : json) : H string :=
  fun db =>
    match text_arg barcode with
    | Return (Some b) =>
        let kept := filter (fun l => log_barcode l <> b) (log db) in
        (Return (delete_tag (length (log db) - length kept)),
         mkDatabase (users db) kept)
    | Return None => (Return (delete_tag 0), db)
    | Raise e => (Raise e, db)
    end.

(** [DELETE FROM users WHERE barcode = $1]; the foreign key of [log]
    refuses it while a log row refers to the user. *)
Definition delete_user_row (barcode : json) : H string :=
  fun db =>
    match text_arg barcode with
    | Return (Some b) =>
        let kept := filter (fun u => Sql.barcode u <> b) (users db) in
        if bool_decide (b ∈ Sql.barcode <$> users db)
           && bool_decide (b ∈ log_barcode <$> log db)
        then (Raise PostgresError, db)
        else (Return (delete_tag (length (users db) - length kept)),
              mkDatabase kept (log db))
    | Return None => (Return (delete_tag 0), db)
    | Raise e => (Raise e, db)
    end.

(** [DELETE FROM log WHERE id = $1] *)
Definition delete_log_row (log_id : Z) : H string :=
  fun db =>
    match int4_arg log_id with
    | Return i =>
        let kept := filter (fun l => id l <> i) (log db) in
        (Return (delete_tag (length (log db) - length kept)),
         mkDatabase (users db) kept)
    | Raise e => (Raise e, db)
    end.

(** A row of [log] as the driver hands it to Python. *)
Record log_record := mkLogRecord {
  rec_id : Z; rec_barcode : string;
  rec_event_time : option datetime; rec_direction : string
}.

Definition direction_text (d : direction) : string :=
  match d with
  | CHECKIN => "CHECKIN"
  | CHECKOUT => "CHECKOUT"
  end.

(** The driver raises [OverflowError] for a time that [datetime]
    cannot hold. *)
Definition decode_log (l : log_row) : outcome log_record :=
  match decode_event_time (event_time l) with
  | Py.Ok t =>
      Return (mkLogRecord (id l) (log_barcode l) t
                          (direction_text (log_direction l)))
  | Py.Raise _ => Raise OverflowError
  end.

(** [SELECT id, barcode, event_time, direction FROM log WHERE id = $1],
    first row. *)
Definition select_log (log_id : Z) : H (option log_record) :=
  fun db =>
    match int4_arg log_id with
    | Return i =>
        match List.find (fun l => bool_decide (id l = i)) (log db) with
        | Some l =>
            match decode_log l with
            | Return r => (Return (Some r), db)
            | Raise e => (Raise e, db)
            end
        | None => (Return None, db)
        end
    | Raise e => (Raise e, db)
    end.

(** [SELECT 1 FROM users WHERE barcode = $1], first value. *)
Definition select_user_exists (barcode : json) : H (option Z) :=
  fun db =>
    match text_arg barcode with
    | Return (Some b) =>
        (Return (if bool_decide (b ∈ Sql.barcode <$> users db)
                 then Some 1 else None), db)
    | Return None => (Return None, db)
    | Raise e => (Raise e, db)
    end.

(** The value of the [direction] column. *)
Definition direction_of (s : string) : outcome direction :=
  if bool_decide (s = "CHECKIN") then Return CHECKIN
  else if bool_decide (s = "CHECKOUT") then Return CHECKOUT
  else Raise PostgresError.

(** What the server adds to an INSERT into [log]: the next value of
    the sequence of [id] and the time of the transaction. *)
Record insert_env := mkInsertEnv { nextval : Z; current_timestamp : Z }.

(** [INSERT INTO log (barcode, direction[, event_time]) ... RETURNING
    id]; [event_time] is [None] for the statement without the
    column, which takes the default. *)
Definition insert_log (env : insert_env) (barcode direction : json)
    (event_time : option (option Z)) : H Z :=
  fun db =>
    let row :=
      b ← text_arg barcode; d ← text_arg direction;
      match b, d with
      | Some b, Some d =>
          b' ← varchar 13 b; d' ← varchar 10 d; dir ← direction_of d';
          Return (mkLog (nextval env) b'
                        (default (Some (current_timestamp env)) event_time)
                        dir)
      | _, _ => Raise PostgresError
      end in
    match row with
    | Return l =>
        if bool_decide (id l ∈ id <$> log db)
        then (Raise UniqueViolationError, db)
        else if bool_decide (log_barcode l ∈ Sql.barcode <$> users db)
        then (Return (id l), mkDatabase (users db) (log db ++ [l]))
        else (Raise PostgresError, db)
    | Raise e => (Raise e, db)
    end.

(** *** The routes *)

Definition user_json (u : user_row) : json :=
  JDict [("barcode", JStr (Sql.barcode u)); ("nome", JStr (nome u));
         ("cognome", JStr (cognome u))].

(** GET /users/<barcode> *)
Definition get_user (barcode : string) : H response :=
  if negb (String.length barcode =? 13)%nat || negb (str_isdigit barcode)
  then abort 400 "Barcode non valido (deve essere 13 cifre)"
  else
    row ← select_user (JStr barcode);
    match row with
    | None => abort 404 "Utente non trovato"
    | Some u => mret (mkResponse 200 (user_json u))
    end.

(** [not barcode or len(barcode) != 13 or not barcode.isdigit()] *)
Definition barcode_refused (barcode : json) : outcome bool :=
  if negb (truthy barcode) then Return true
  else
    n ← len barcode;
    if negb (n =? 13)%nat then Return true
    else d ← isdigit barcode; Return (negb d).

Definition a_grave : string := String (Ascii.ascii_of_nat 224) "".

(** POST /users *)
Definition create_user (data : json) : H response :=
  barcode ← lift (get data "barcode");
  nome ← lift (get data "nome");
  cognome ← lift (get data "cognome");
  refused ← lift (barcode_refused barcode);
  if (refused : bool) then (abort 400 "Barcode obbligatorio, 13 cifre numeriche" : H response)
  else if negb (truthy nome) || negb (truthy cognome)
  then (abort 400 "Nome e cognome sono obbligatori" : H response)
  else
    _ ← (fun db =>
           match insert_user barcode nome cognome db with
           | (Raise UniqueViolationError, db') =>
               abort 409
                 ("Utente con questo barcode gi" +:+ a_grave
                  +:+ " esistente") db'
           | r => r
           end);
    mret (mkResponse 201 (JDict [("message", JStr "Utente creato")])).

(** [int(result.split()[-1])] *)
Definition deleted_rows (result : string) : outcome Z :=
  word ← last_item (split result); int word.

(** DELETE /users/<barcode> *)
Definition delete_user (barcode : string) : H response :=
  _ ← delete_log_of (JStr barcode);
  result ← delete_user_row (JStr barcode);
  n ← lift (deleted_rows result);
  if n =? 0 then (abort 404 "Utente non trovato" : H response)
  else mret (mkResponse 200 (JDict [("message", JStr "Utente cancellato")])).

(** DELETE /logs/<id> *)
Definition delete_log (log_id : Z) : H response :=
  result ← delete_log_row log_id;
  n ← lift (deleted_rows result);
  if n =? 0 then (abort 404 "Log non trovato" : H response)
  else mret (mkResponse 200 (JDict [("message", JStr "Log cancellato")])).

(** The offset at the end of [isoformat()]. *)
Definition offset_text (o : Z) : string :=
  let a := Z.abs o in
  (if o <? 0 then "-" else "+")
  +:+ zfill 2 (Py.str (a / 3600)) +:+ ":"
  +:+ zfill 2 (Py.str (a mod 3600 / 60))
  +:+ (if a mod 60 =? 0 then "" else ":" +:+ zfill 2 (Py.str (a mod 60))).

(** [dt.isoformat()] for a [dt] without zone or with a fixed offset,
    as the driver makes them. *)
Definition isoformat (dt : datetime) : string :=
  zfill 4 (Py.str (year dt)) +:+ "-" +:+ zfill 2 (Py.str (month dt))
  +:+ "-" +:+ zfill 2 (Py.str (day dt)) +:+ "T"
  +:+ zfill 2 (Py.str (hour dt)) +:+ ":" +:+ zfill 2 (Py.str (minute dt))
  +:+ ":" +:+ zfill 2 (Py.str (second dt))
  +:+ (if microsecond dt =? 0 then ""
       else "." +:+ zfill 6 (Py.str (microsecond dt)))
  +:+ match tzinfo_of dt with
      | Some tz => offset_text (fixed_utcoffset tz)
      | None => ""
      end.

(** [item = dict(row); item["event_time"] =
    item["event_time"].isoformat()] *)
Definition log_item (r : log_record) : outcome json :=
  match rec_event_time r with
  | None => Raise AttributeError
  | Some dt =>
      Return (JDict [("id", JInt (rec_id r));
                     ("barcode", JStr (rec_barcode r));
                     ("event_time", JStr (isoformat dt));
                     ("direction", JStr (rec_direction r))])
  end.

(** GET /logs/<id> *)
Definition get_log (log_id : Z) : H response :=
  row ← select_log log_id;
  match row with
  | None => abort 404 "Log non trovato"
  | Some r => item ← lift (log_item r); mret (mkResponse 200 item)
  end.

Section Ean.
Context {rng : Type}.
Variable randint : Z -> Z -> rng -> Z * rng.

(** The variables of the loop of [get_new_ean], with the state of
    [random]. *)
Record ean_vars := mkEanVars {
  new_ean : string; found : bool; count : Z; random_state : rng
}.

(** [while found and count < 10: ...], at most [fuel] times round. *)
Fixpoint while_found (fuel : nat) (v : ean_vars) : H ean_vars :=
  if found v && (count v <? 10) then
    match fuel with
    | O => mret v
    | S fuel' =>
        row ← select_barcode (JStr (new_ean v));
        let v' :=
          match row with
          | None =>
              mkEanVars (new_ean v) false (count v) (random_state v)
          | Some _ =>
              let '(ean, g) := Ean.genera_ean13 randint (random_state v) in
              mkEanVars ean (found v) (count v) g
          end in
        while_found fuel'
          (mkEanVars (new_ean v') (found v') (count v' + 1)
                     (random_state v'))
    end
  else mret v.

(** GET /users/newean; the loop ends within ten rounds. *)
Definition get_new_ean (g : rng) : H (response * rng) :=
  let '(ean, g) := Ean.genera_ean13 randint g in
  v ← while_found 10 (mkEanVars ean true 0 g);
  if 10 <=? count v
  then (abort 500 "Non e' stato possibile trovare un ean libero"
        : H (response * rng))
  else mret (mkResponse 200 (JDict [("new_ean", JStr (new_ean v))]),
             random_state v).
End Ean.

(** *** The logs *)

Definition nl : string := String (Ascii.ascii_of_nat 10) "".

(** The text that [query] starts from. *)
Definition select_logs : string :=
  nl +:+ "        SELECT id, barcode, event_time, direction" +:+ nl
  +:+ "        FROM log" +:+ nl
  +:+ "        WHERE 1=1" +:+ nl +:+ "    ".

(** The text and the arguments that [get_all_logs] hands to [fetch],
    from the [barcode], [from] and [to] of the query string. *)
Definition logs_query (barcode from_date to_date : option string)
  : string * list string :=
  let query := select_logs in
  let params : list string := [] in
  let idx := 1 in
  let '(query, params, idx) :=
    match barcode with
    | Some b =>
        if negb (bool_decide (b = ""))
        then (query +:+ " AND barcode = $" +:+ Py.str idx,
              params ++ [b], idx + 1)
        else (query, params, idx)
    | None => (query, params, idx)
    end in
  let '(query, params, idx) :=
    match from_date with
    | Some d =>
        if negb (bool_decide (d = ""))
        then (query +:+ " AND event_time >= $" +:+ Py.str idx,
              params ++ [d], idx + 1)
        else (query, params, idx)
    | None => (query, params, idx)
    end in
  let '(query, params, idx) :=
    match to_date with
    | Some d =>
        if negb (bool_decide (d = ""))
        then (query +:+ " AND event_time <= $" +:+ Py.str idx,
              params ++ [d], idx + 1)
        else (query, params, idx)
    | None => (query, params, idx)
    end in
  (query +:+ " ORDER BY event_time DESC", params).

Section Logs.
(** asyncpg's encoder of an argument of type [timestamptz]. *)
Variable timestamptz_arg : json -> outcome Z.

(** POST /logs *)
Definition create_log (env : insert_env) (data : json) : H response :=
  barcode ← lift (get data "barcode");
  direction ← lift (get data "direction");
  event_time ← lift (get data "event_time");
  if negb (truthy barcode)
  then (abort 400 "Barcode obbligatorio" : H response)
  else if negb (eq_str direction "CHECKIN" || eq_str direction "CHECKOUT")
  then (abort 400 "direction deve essere CHECKIN o CHECKOUT" : H response)
  else
    user_exists ← select_user_exists barcode;
    match user_exists with
    | None => abort 400 "Utente non esiste per questo barcode"
    | Some _ =>
        log_id ←
          (if truthy event_time
           then (t ← lift (timestamptz_arg event_time);
                 insert_log env barcode direction (Some (Some t))) : H Z
           else insert_log env barcode direction None);
        mret (mkResponse 201 (JDict [("message", JStr "Log creato");
                                     ("id", JInt log_id)]))
    end.

(** A filter of the query string that is given and not empty. *)
Definition given_arg (v : option string) : option string :=
  match v with
  | Some s => if bool_decide (s = "") then None else Some s
  | None => None
  end.

Definition optional {A B} (encode : A -> outcome B) (v : option A)
  : outcome (option B) :=
  match v with
  | Some a => b ← encode a; Return (Some b)
  | None => Return None
  end.

(** What the conditions of the query keep of the log. *)
Definition kept_by (barcode : option string) (from_date to_date : option Z)
    (l : log_row) : Prop :=
  match barcode with Some b => log_barcode l = b | None => True end
  /\ match from_date with
     | Some f => match event_time l with Some t => f <= t | None => False end
     | None => True
     end
  /\ match to_date with
     | Some u => match event_time l with Some t => t <= u | None => False end
     | None => True
     end.

Global Instance kept_by_dec barcode from_date to_date l :
  Decision (kept_by barcode from_date to_date l).
Proof.
  unfold kept_by.
  destruct barcode, from_date, to_date, (event_time l); apply _.
Defined.

(** [ORDER BY event_time DESC] over [log]. *)
Definition most_recent_first (l1 l2 : log_row) : Prop :=
  time_desc (event_time l1) (event_time l2).

Global Instance most_recent_first_dec : RelDecision most_recent_first.
Proof. intros l1 l2. unfold most_recent_first. apply _. Defined.

(** [conn.fetch(query, *params)] for the query and the arguments of
    [logs_query]. *)
Definition fetch_logs (barcode from_date to_date : option string)
  : H (list log_record) :=
  fun db =>
    let args :=
      b ← optional (fun s => if has_nul s then Raise PostgresError
                             else Return s) (given_arg barcode);
      f ← optional (fun s => timestamptz_arg (JStr s)) (given_arg from_date);
      u ← optional (fun s => timestamptz_arg (JStr s)) (given_arg to_date);
      Return (b, f, u) in
    match args with
    | Return (b, f, u) =>
        (traverse decode_log
           (merge_sort most_recent_first
              (filter (kept_by b f u) (log db))), db)
    | Raise e => (Raise e, db)
    end.

(** GET /logs *)
Definition get_all_logs (barcode from_date to_date : option string)
  : H response :=
  rows ← fetch_logs barcode from_date to_date;
  logs ← lift (traverse log_item rows);
  mret (mkResponse 200 (JList logs)).
End Logs.

End Api.

(** * Properties *)

(** ** The barcode generator *)

Module EanSpec.
Import Ean.

Definition is_digit (d : Z) : Prop := 0 <= d <= 9.

Lemma str_of_digit d : is_digit d -> Py.str d = String (digit_char d) "".
Proof.
  unfold is_digit. intros Hd.
  assert (d = 0 \/ d = 1 \/ d = 2 \/ d = 3 \/ d = 4 \/ d = 5 \/ d = 6
          \/ d = 7 \/ d = 8 \/ d = 9) as Hcases by lia.
  repeat destruct Hcases as [-> | Hcases]; try subst d; reflexivity.
Qed.

Lemma join_digits ds :
  Forall is_digit ds -> Py.join (Py.str <$> ds) = ean_string ds.
Proof.
  unfold Py.join, ean_string.
  induction 1 as [|d ds Hd Hds IH]; [reflexivity|].
  rewrite !fmap_cons, (str_of_digit d Hd). simpl.
  destruct ds as [|d' ds']; [reflexivity|].
  rewrite fmap_cons in IH |- *. simpl in IH |- *. by rewrite IH.
Qed.

Lemma checksum_is_digit ds : is_digit (checksum_of ds).
Proof.
  unfold is_digit, checksum_of.
  match goal with
  | |- 0 <= ?x mod 10 <= 9 => pose proof (Z.mod_pos_bound x 10)
  end.
  lia.
Qed.

Section Draw.
Context {rng : Type} (randint : Z -> Z -> rng -> Z * rng).
Hypothesis randint_range :
  forall a b g, a <= b -> a <= (randint a b g).1 <= b.

Lemma draw_digits_spec n g :
  length (draw_digits randint n g).1 = n
  /\ Forall is_digit (draw_digits randint n g).1.
Proof.
  revert g. induction n as [|n IH]; intros g; simpl.
  - split; [reflexivity | constructor].
  - pose proof (randint_range 0 9 g ltac:(lia)) as Hd.
    destruct (randint 0 9 g) as [d g1]. specialize (IH g1).
    destruct (draw_digits randint n g1) as [ds g2]. simpl in *.
    destruct IH as [Hlen Hall]. split; [by rewrite Hlen|].
    constructor; [exact Hd | exact Hall].
Qed.
End Draw.

(** C10. Whatever the random source yields within the bounds it is
    asked for, the string returned by [genera_ean13] is made of 13
    decimal digits, and the digits in the odd places plus three times
    the digits in the even places add up to a multiple of ten. *)
Theorem genera_ean13_valid {rng : Type}
    (randint : Z -> Z -> rng -> Z * rng) (g : rng) :
  (forall a b g', a <= b -> a <= (randint a b g').1 <= b) ->
  exists d1 d2 d3 d4 d5 d6 d7 d8 d9 d10 d11 d12 d13 : Z,
    (genera_ean13 randint g).1
    = ean_string [d1; d2; d3; d4; d5; d6; d7; d8; d9; d10; d11; d12; d13]
    /\ String.length (genera_ean13 randint g).1 = 13%nat
    /\ Forall is_digit
         [d1; d2; d3; d4; d5; d6; d7; d8; d9; d10; d11; d12; d13]
    /\ (d1 + d3 + d5 + d7 + d9 + d11 + d13
        + 3 * (d2 + d4 + d6 + d8 + d10 + d12)) mod 10 = 0.
Proof.
  intros Hrange. unfold genera_ean13.
  destruct (draw_digits_spec randint Hrange 12 g) as [Hlen Hall].
  destruct (draw_digits randint 12 g) as [ds g']. simpl in Hlen, Hall.
  do 12 (destruct ds as [|? ds]; [discriminate Hlen|]).
  destruct ds; [|discriminate Hlen]. clear Hlen.
  eexists _, _, _, _, _, _, _, _, _, _, _, _, (checksum_of _).
  assert (Forall is_digit
            ([z; z0; z1; z2; z3; z4; z5; z6; z7; z8; z9; z10]
             ++ [checksum_of [z; z0; z1; z2; z3; z4; z5; z6; z7; z8; z9; z10]]))
    as Hall'.
  { apply Forall_app. split; [exact Hall|].
    constructor; [apply checksum_is_digit | constructor]. }
  cbn [fst]. rewrite (join_digits _ Hall').
  split; [reflexivity|]. split; [reflexivity|]. split; [exact Hall'|].
  unfold checksum_of, Py.sum, Py.slice_from_step2.
  cbn [drop Py.stride2 foldl].
  Z.div_mod_to_equations. lia.
Qed.

Lemma lcg_randint_range a b g : a <= b -> a <= (lcg_randint a b g).1 <= b.
Proof.
  intros Hab. unfold lcg_randint. simpl.
  pose proof (Z.mod_pos_bound g (b - a + 1)). lia.
Qed.

Lemma genera_ean13_valid_witness :
  exists d1 d2 d3 d4 d5 d6 d7 d8 d9 d10 d11 d12 d13 : Z,
    (genera_ean13 lcg_randint 42).1
    = ean_string [d1; d2; d3; d4; d5; d6; d7; d8; d9; d10; d11; d12; d13]
    /\ String.length (genera_ean13 lcg_randint 42).1 = 13%nat
    /\ Forall is_digit
         [d1; d2; d3; d4; d5; d6; d7; d8; d9; d10; d11; d12; d13]
    /\ (d1 + d3 + d5 + d7 + d9 + d11 + d13
        + 3 * (d2 + d4 + d6 + d8 + d10 + d12)) mod 10 = 0.
Proof. apply (genera_ean13_valid lcg_randint 42), lcg_randint_range. Defined.

Example genera_ean13_sample :
  (genera_ean13 lcg_randint 42).1 = "2743652369252".
Proof. reflexivity. Qed.

End EanSpec.

(** ** The display format of event times *)

Module DatetimeSpec.
Import Datetime.

(** Two and four decimal digits, most significant first. *)
Definition two (n : Z) : string :=
  String (Ean.digit_char (n / 10)) (String (Ean.digit_char (n mod 10)) "").

Definition four (n : Z) : string :=
  String (Ean.digit_char (n / 1000))
    (String (Ean.digit_char (n / 100 mod 10)) (two (n mod 100))).

(** [HH:MM DD/MM/YYYY] *)
Definition display (h mi d mo y : Z) : string :=
  two h +:+ ":" +:+ two mi +:+ " " +:+ two d +:+ "/" +:+ two mo
  +:+ "/" +:+ four y.

Lemma range_check (P : Z -> Prop) `{!forall n, Decision (P n)} (a len : Z) :
  bool_decide (Forall P (seqZ a len)) = true ->
  forall n, a <= n < a + len -> P n.
Proof.
  intros Hall n Hn. apply bool_decide_eq_true_1 in Hall.
  rewrite Forall_forall in Hall. apply Hall, elem_of_seqZ. lia.
Qed.

Lemma zfill2_str n : 0 <= n < 100 -> zfill 2 (Py.str n) = two n.
Proof.
  intros Hn.
  apply (range_check (fun n => zfill 2 (Py.str n) = two n) 0 100);
    [vm_compute; reflexivity | lia].
Qed.

Lemma zfill4_str n : 0 <= n < 10000 -> zfill 4 (Py.str n) = four n.
Proof.
  intros Hn.
  apply (range_check (fun n => zfill 4 (Py.str n) = four n) 0 10000);
    [vm_compute; reflexivity | lia].
Qed.

Lemma append_empty_r (s : string) : s +:+ "" = s.
Proof.
  induction s as [|c s IH]; [reflexivity|].
  change (String c (s +:+ "") = String c s). by rewrite IH.
Qed.

Lemma strftime_display dt :
  0 <= hour dt < 24 -> 0 <= minute dt < 60 -> 1 <= day dt <= 31 ->
  1 <= month dt <= 12 -> 0 <= year dt < 10000 ->
  strftime dt "%H:%M %d/%m/%Y"
  = display (hour dt) (minute dt) (day dt) (month dt) (year dt).
Proof.
  intros Hh Hmi Hd Hmo Hy. unfold display.
  rewrite <- !zfill2_str, <- zfill4_str by lia.
  rewrite <- (append_empty_r (zfill 4 _)) at 1. reflexivity.
Qed.

(** Day of the year to month and day, as [_ord2ymd] does it. *)
Definition month_day (leapyear : bool) (n : Z) : Z * Z :=
  let m := Z.shiftr (n + 50) 5 in
  let preceding :=
    table _DAYS_BEFORE_MONTH m + (if (2 <? m) && leapyear then 1 else 0) in
  if n <? preceding then
    let m := m - 1 in
    let preceding :=
      preceding
      - (table _DAYS_IN_MONTH m + (if (m =? 2) && leapyear then 1 else 0)) in
    (m, n - preceding + 1)
  else (m, n - preceding + 1).

Definition month_day_ok (leapyear : bool) (n : Z) : Prop :=
  let '(m, d) := month_day leapyear n in
  1 <= m <= 12
  /\ 1 <= d <= (if (m =? 2) && leapyear then 29 else table _DAYS_IN_MONTH m)
  /\ table _DAYS_BEFORE_MONTH m + (if (2 <? m) && leapyear then 1 else 0) + d
     = n + 1.

Global Instance month_day_ok_dec (leapyear : bool) (n : Z) :
  Decision (month_day_ok leapyear n).
Proof. unfold month_day_ok. destruct (month_day leapyear n). apply _. Defined.

Lemma month_day_spec (leapyear : bool) (n : Z) :
  0 <= n < (if leapyear then 366 else 365) -> month_day_ok leapyear n.
Proof.
  intros Hn. destruct leapyear.
  - apply (range_check (month_day_ok true) 0 366);
      [vm_compute; reflexivity | lia].
  - apply (range_check (month_day_ok false) 0 365);
      [vm_compute; reflexivity | lia].
Qed.

Lemma days_before_year_split a b c d :
  0 <= a -> 0 <= b <= 3 -> 0 <= c <= 24 -> 0 <= d <= 3 ->
  _days_before_year (a * 400 + 1 + b * 100 + c * 4 + d)
  = 146097 * a + 36524 * b + 1461 * c + 365 * d.
Proof.
  intros Ha Hb Hc Hd. unfold _days_before_year.
  replace (a * 400 + 1 + b * 100 + c * 4 + d - 1)
    with (400 * a + 100 * b + 4 * c + d) by lia.
  assert ((400 * a + 100 * b + 4 * c + d) / 4 = 100 * a + 25 * b + c) as ->.
  { symmetry. apply (Z.div_unique _ _ _ d); lia. }
  assert ((400 * a + 100 * b + 4 * c + d) / 100 = 4 * a + b) as ->.
  { symmetry. apply (Z.div_unique _ _ _ (4 * c + d)); lia. }
  assert ((400 * a + 100 * b + 4 * c + d) / 400 = a) as ->.
  { symmetry. apply (Z.div_unique _ _ _ (100 * b + 4 * c + d)); lia. }
  lia.
Qed.

Lemma is_leap_split a b c d :
  0 <= a -> 0 <= b <= 3 -> 0 <= c <= 24 -> 0 <= d <= 3 ->
  _is_leap (a * 400 + 1 + b * 100 + c * 4 + d)
  = (d =? 3) && (negb (c =? 24) || (b =? 3)).
Proof.
  intros Ha Hb Hc Hd. unfold _is_leap.
  replace (a * 400 + 1 + b * 100 + c * 4 + d)
    with (400 * a + 100 * b + 4 * c + (d + 1)) by lia.
  assert ((400 * a + 100 * b + 4 * c + (d + 1)) mod 4 = (d + 1) mod 4) as ->.
  { replace (400 * a + 100 * b + 4 * c + (d + 1))
      with ((d + 1) + (100 * a + 25 * b + c) * 4) by lia.
    apply Z.mod_add. lia. }
  assert ((400 * a + 100 * b + 4 * c + (d + 1)) mod 100
          = (4 * c + d + 1) mod 100) as ->.
  { replace (400 * a + 100 * b + 4 * c + (d + 1))
      with ((4 * c + d + 1) + (4 * a + b) * 100) by lia.
    apply Z.mod_add. lia. }
  assert ((400 * a + 100 * b + 4 * c + (d + 1)) mod 400
          = (100 * b + 4 * c + d + 1) mod 400) as ->.
  { replace (400 * a + 100 * b + 4 * c + (d + 1))
      with ((100 * b + 4 * c + d + 1) + a * 400) by lia.
    apply Z.mod_add. lia. }
  destruct (Z.eqb_spec d 3) as [->|Hd3].
  - change ((3 + 1) mod 4 =? 0) with true. cbn [andb].
    destruct (Z.eqb_spec c 24) as [->|Hc24].
    + change ((4 * 24 + 3 + 1) mod 100 =? 0) with true. cbn [negb orb].
      destruct (Z.eqb_spec b 3) as [->|Hb3]; [reflexivity|].
      apply Z.eqb_neq. rewrite Z.mod_small by lia. lia.
    + cbn [negb orb]. rewrite Z.mod_small by lia.
      destruct (Z.eqb_spec (4 * c + 3 + 1) 0); [lia | reflexivity].
  - cbn [andb]. apply andb_false_intro1, Z.eqb_neq.
    assert (d = 0 \/ d = 1 \/ d = 2) as [-> | [-> | ->]] by lia; discriminate.
Qed.

Lemma days_in_month_eq y m :
  _days_in_month y m
  = if (m =? 2) && _is_leap y then 29 else table _DAYS_IN_MONTH m.
Proof. reflexivity. Qed.

(** The date of an ordinal day is a date of the calendar, and its
    ordinal is the day it was computed from. *)
Lemma ord2ymd_spec n :
  1 <= n ->
  match _ord2ymd n with
  | (y, m, d) =>
      1 <= y /\ 1 <= m <= 12 /\ 1 <= d <= _days_in_month y m
      /\ _ymd2ord y m d = n
  end.
Proof.
  intros Hn. unfold _ord2ymd. cbv zeta. unfold _DI400Y, _DI100Y, _DI4Y.
  pose proof (Z.div_mod (n - 1) 146097 ltac:(lia)) as E1.
  pose proof (Z.mod_pos_bound (n - 1) 146097 ltac:(lia)) as B1.
  pose proof (Z.div_pos (n - 1) 146097 ltac:(lia) ltac:(lia)) as Ha.
  set (a := (n - 1) / 146097) in *. set (r := (n - 1) mod 146097) in *.
  pose proof (Z.div_mod r 36524 ltac:(lia)) as E2.
  pose proof (Z.mod_pos_bound r 36524 ltac:(lia)) as B2.
  set (b := r / 36524) in *. set (r2 := r mod 36524) in *.
  pose proof (Z.div_mod r2 1461 ltac:(lia)) as E3.
  pose proof (Z.mod_pos_bound r2 1461 ltac:(lia)) as B3.
  set (c := r2 / 1461) in *. set (r3 := r2 mod 1461) in *.
  pose proof (Z.div_mod r3 365 ltac:(lia)) as E4.
  pose proof (Z.mod_pos_bound r3 365 ltac:(lia)) as B4.
  set (d := r3 / 365) in *. set (e := r3 mod 365) in *.
  clearbody a r b r2 c r3 d e.
  assert (0 <= b <= 4 /\ 0 <= c <= 24 /\ 0 <= d <= 4) as (Hb & Hc & Hd) by lia.
  destruct (Z.eqb_spec d 4) as [Hd4|Hd4]; cbn [orb].
  { assert (e = 0 /\ c <= 23 /\ b <= 3) as (-> & Hc' & Hb') by lia. subst d.
    replace (a * 400 + 1 + b * 100 + c * 4 + 4 - 1)
      with (a * 400 + 1 + b * 100 + c * 4 + 3) by lia.
    unfold _ymd2ord, _days_before_month. rewrite days_in_month_eq.
    rewrite days_before_year_split, is_leap_split by lia.
    change (12 =? 2) with false. change (2 <? 12) with true.
    change (3 =? 3) with true.
    destruct (Z.eqb_spec c 24); [lia|]. cbn [andb negb orb].
    change (table _DAYS_IN_MONTH 12) with 31.
    change (table _DAYS_BEFORE_MONTH 12) with 334. lia. }
  destruct (Z.eqb_spec b 4) as [Hb4|Hb4].
  { assert (r2 = 0 /\ c = 0 /\ d = 0 /\ e = 0) as (-> & -> & -> & ->) by lia.
    subst b.
    replace (a * 400 + 1 + 4 * 100 + 0 * 4 + 0 - 1)
      with (a * 400 + 1 + 3 * 100 + 24 * 4 + 3) by lia.
    unfold _ymd2ord, _days_before_month. rewrite days_in_month_eq.
    rewrite days_before_year_split, is_leap_split by lia.
    change (12 =? 2) with false. change (2 <? 12) with true.
    cbn [andb negb orb Z.eqb Pos.eqb].
    change (table _DAYS_IN_MONTH 12) with 31.
    change (table _DAYS_BEFORE_MONTH 12) with 334. lia. }
  rewrite <- (is_leap_split a b c d) by lia.
  set (y := a * 400 + 1 + b * 100 + c * 4 + d).
  pose proof (month_day_spec (_is_leap y) e) as Hmd.
  unfold month_day_ok, month_day in Hmd. cbv zeta in Hmd.
  assert (_days_before_year y + e = n - 1) as Hdby.
  { subst y. rewrite days_before_year_split by lia. lia. }
  destruct (e <? _) in Hmd |- *;
    (destruct Hmd as (Hm & Hday & Hsum); [destruct (_is_leap y); lia|]);
    unfold _ymd2ord, _days_before_month; rewrite days_in_month_eq;
    (split; [subst y; lia|]); (split; [exact Hm|]);
    (split; [exact Hday|]); lia.
Qed.
Lemma days_before_year_succ y :
  _days_before_year (y + 1)
  = _days_before_year y + (if _is_leap y then 366 else 365).
Proof.
  unfold _days_before_year, _is_leap. cbv zeta.
  replace (y + 1 - 1) with y by lia.
  destruct (Z.eqb_spec (y mod 4) 0) as [H4|H4];
    destruct (Z.eqb_spec (y mod 100) 0) as [H100|H100];
    destruct (Z.eqb_spec (y mod 400) 0) as [H400|H400];
    cbn [andb orb negb]; Z.div_mod_to_equations; lia.
Qed.

Lemma days_before_year_mono y1 y2 :
  y1 <= y2 -> _days_before_year y1 <= _days_before_year y2.
Proof.
  intros Hle. unfold _days_before_year. cbv zeta.
  Z.div_mod_to_equations. lia.
Qed.

Lemma days_in_month_le_31 y m : 1 <= m <= 12 -> _days_in_month y m <= 31.
Proof.
  intros Hm. rewrite days_in_month_eq.
  assert (m = 1 \/ m = 2 \/ m = 3 \/ m = 4 \/ m = 5 \/ m = 6 \/ m = 7
          \/ m = 8 \/ m = 9 \/ m = 10 \/ m = 11 \/ m = 12) as Hcases by lia.
  repeat destruct Hcases as [-> | Hcases]; try subst m;
    destruct (_is_leap y); vm_compute; discriminate.
Qed.

Ltac eval_tables :=
  repeat match goal with
  | |- context [table ?t ?k] =>
      let v := eval vm_compute in (table t k) in
      change (table t k) with v
  | H : context [table ?t ?k] |- _ =>
      let v := eval vm_compute in (table t k) in
      change (table t k) with v in H
  end.

Lemma ymd2ord_bounds y m d :
  1 <= m <= 12 -> 1 <= d <= _days_in_month y m ->
  _days_before_year y < _ymd2ord y m d <= _days_before_year (y + 1).
Proof.
  intros Hm Hd. rewrite days_before_year_succ.
  unfold _ymd2ord, _days_before_month. rewrite days_in_month_eq in Hd.
  assert (m = 1 \/ m = 2 \/ m = 3 \/ m = 4 \/ m = 5 \/ m = 6 \/ m = 7
          \/ m = 8 \/ m = 9 \/ m = 10 \/ m = 11 \/ m = 12) as Hcases by lia.
  repeat destruct Hcases as [-> | Hcases]; try subst m;
    destruct (_is_leap y); eval_tables; cbn in Hd |- *; lia.
Qed.

(** The fields of a date and of a time of day are within the calendar
    and the clock. *)
Definition valid_fields (dt : datetime) : Prop :=
  1 <= month dt <= 12
  /\ 1 <= day dt <= _days_in_month (year dt) (month dt)
  /\ 0 <= hour dt < 24 /\ 0 <= minute dt < 60 /\ 0 <= second dt < 60.

(** A [datetime] that the constructor accepts, with an offset of less
    than a day when it carries a fixed one. *)
Definition valid (dt : datetime) : Prop :=
  1 <= year dt <= 9999 /\ valid_fields dt
  /\ match tzinfo_of dt with
     | Some (Timezone o) => -86400 < o < 86400
     | _ => True
     end.

Lemma add_seconds_spec dt delta :
  0 < (wall_seconds dt + delta) / 86400 <= _MAXORDINAL ->
  exists dt',
    add_seconds dt delta = Py.Ok dt'
    /\ valid_fields dt'
    /\ wall_seconds dt' = wall_seconds dt + delta
    /\ toordinal dt' = (wall_seconds dt + delta) / 86400
    /\ tzinfo_of dt' = tzinfo_of dt.
Proof.
  intros Hdays. unfold add_seconds. cbv zeta.
  set (total := wall_seconds dt + delta) in *.
  destruct (Z.ltb_spec 0 (total / 86400)); [|lia].
  destruct (Z.leb_spec (total / 86400) _MAXORDINAL); [|lia].
  cbn [andb].
  pose proof (ord2ymd_spec (total / 86400) ltac:(lia)) as Hymd.
  destruct (_ord2ymd (total / 86400)) as [[y m] d].
  destruct Hymd as (Hy & Hm & Hd & Hord).
  eexists. split; [reflexivity|].
  unfold valid_fields, wall_seconds, toordinal.
  cbn [year month day hour minute second tzinfo_of].
  rewrite Hord. clearbody total.
  generalize dependent (_days_in_month y m). intros dim Hd.
  repeat split; try reflexivity; Z.div_mod_to_equations; lia.
Qed.

Lemma year_of_ordinal dt :
  valid_fields dt ->
  _days_before_year 1000 < toordinal dt <= _days_before_year 10000 ->
  1000 <= year dt <= 9999.
Proof.
  intros (Hm & Hd & _) Hord.
  pose proof (ymd2ord_bounds (year dt) (month dt) (day dt) Hm Hd) as Hb.
  fold (toordinal dt) in Hb.
  destruct (Z.lt_ge_cases (year dt) 1000) as [Hlo|Hlo].
  { pose proof (days_before_year_mono (year dt + 1) 1000 ltac:(lia)). lia. }
  destruct (Z.le_gt_cases (year dt) 9999) as [Hhi|Hhi]; [lia|].
  pose proof (days_before_year_mono 10000 (year dt) ltac:(lia)). lia.
Qed.

Lemma ordinal_of_year dt :
  valid_fields dt -> 1001 <= year dt <= 9998 ->
  _days_before_year 1001 < toordinal dt <= _days_before_year 9999.
Proof.
  intros (Hm & Hd & _) Hy.
  pose proof (ymd2ord_bounds (year dt) (month dt) (day dt) Hm Hd) as Hb.
  fold (toordinal dt) in Hb.
  pose proof (days_before_year_mono 1001 (year dt) ltac:(lia)).
  pose proof (days_before_year_mono (year dt + 1) 9999 ltac:(lia)). lia.
Qed.

(** The wall clock of Europe/Rome at the instant that [dt] denotes,
    in seconds since ordinal day 0; a [dt] without zone is read as
    UTC. *)
Definition rome_wall_seconds (rome_utcoffset : Z -> Z) (dt : datetime) : Z :=
  match tzinfo_of dt with
  | Some (ZoneInfo Europe_Rome) => wall_seconds dt
  | tz =>
      let utc :=
        wall_seconds dt
        - match tz with Some (Timezone o) => o | _ => 0 end in
      utc + rome_utcoffset (utc - _EPOCHORDINAL * 86400)
  end.

Lemma wall_seconds_replace dt tz :
  wall_seconds (replace_tzinfo dt tz) = wall_seconds dt.
Proof. reflexivity. Qed.

Section Rome.
Variable rome_utcoffset : Z -> Z.
Hypothesis rome_bounded : forall t, -86400 < rome_utcoffset t < 86400.

Lemma fromutc_rome_eq utc :
  fromutc_rome rome_utcoffset utc
  = add_seconds utc
      (rome_utcoffset (wall_seconds utc - _EPOCHORDINAL * 86400)).
Proof.
  unfold fromutc_rome, wall_seconds. cbv zeta. do 2 f_equal. lia.
Qed.

Lemma via_utc_spec dt tz o :
  valid_fields dt -> 1001 <= year dt <= 9998 -> -86400 < o < 86400 ->
  exists utc it,
    add_seconds (replace_tzinfo dt tz) (- o) = Py.Ok utc
    /\ fromutc_rome rome_utcoffset
         (replace_tzinfo utc (Some (ZoneInfo Europe_Rome))) = Py.Ok it
    /\ valid_fields it /\ 1000 <= year it <= 9999
    /\ wall_seconds it
       = wall_seconds dt - o
         + rome_utcoffset (wall_seconds dt - o - _EPOCHORDINAL * 86400).
Proof.
  intros Hv Hy Ho.
  pose proof (ordinal_of_year dt Hv Hy) as Hord.
  assert (_days_before_year 1001 = 365242) as E1 by reflexivity.
  assert (_days_before_year 9999 = 3651694) as E2 by reflexivity.
  assert (_days_before_year 1000 = 364877) as E3 by reflexivity.
  assert (_days_before_year 10000 = 3652059) as E4 by reflexivity.
  rewrite E1, E2 in Hord.
  assert (toordinal dt * 86400 <= wall_seconds dt
          < toordinal dt * 86400 + 86400) as Hwall.
  { destruct Hv as (_ & _ & Hh & Hmi & Hs). unfold wall_seconds. lia. }
  destruct (add_seconds_spec (replace_tzinfo dt tz) (- o))
    as (utc & Eutc & Hvutc & Wutc & Outc & _).
  { rewrite wall_seconds_replace. unfold _MAXORDINAL.
    Z.div_mod_to_equations. lia. }
  rewrite wall_seconds_replace in Wutc, Outc.
  pose proof (rome_bounded (wall_seconds utc - _EPOCHORDINAL * 86400))
    as Hr.
  set (utc' := replace_tzinfo utc (Some (ZoneInfo Europe_Rome))).
  destruct (add_seconds_spec utc'
              (rome_utcoffset (wall_seconds utc - _EPOCHORDINAL * 86400)))
    as (it & Eit & Hvit & Wit & Oit & _).
  { unfold utc'. rewrite wall_seconds_replace. rewrite Wutc in Hr |- *.
    unfold _MAXORDINAL. Z.div_mod_to_equations. lia. }
  rewrite Wutc in Hr.
  unfold utc' in Wit, Oit. rewrite wall_seconds_replace in Wit, Oit.
  exists utc, it. split; [exact Eutc|].
  split; [rewrite fromutc_rome_eq; exact Eit|].
  split; [exact Hvit|]. split.
  - apply (year_of_ordinal it Hvit). rewrite E3, E4, Oit, Wutc.
    Z.div_mod_to_equations. lia.
  - rewrite Wit, Wutc. unfold Z.sub. reflexivity.
Qed.

Lemma to_rome_spec dt :
  valid dt -> 1001 <= year dt <= 9998 ->
  exists it,
    astimezone_rome rome_utcoffset
      (replace_tzinfo dt (Some (default (ZoneInfo UTC) (tzinfo_of dt))))
      (default (ZoneInfo UTC) (tzinfo_of dt)) = Py.Ok it
    /\ valid_fields it /\ 1000 <= year it <= 9999
    /\ wall_seconds it = rome_wall_seconds rome_utcoffset dt.
Proof.
  intros (Hy0 & Hv & Htz) Hy. unfold rome_wall_seconds, astimezone_rome.
  destruct (tzinfo_of dt) as [[o|[|]]|];
    cbn [from_option id fixed_utcoffset]; cbv iota beta.
  - destruct (via_utc_spec dt (Some (Timezone o)) o Hv Hy Htz)
      as (utc & it & -> & -> & H1 & H2 & H3). eauto.
  - destruct (via_utc_spec dt (Some (ZoneInfo UTC)) 0 Hv Hy ltac:(lia))
      as (utc & it & -> & -> & H1 & H2 & H3).
    eauto.
  - eexists. split; [reflexivity|]. split; [exact Hv|].
    split; [cbn; lia | reflexivity].
  - destruct (via_utc_spec dt (Some (ZoneInfo UTC)) 0 Hv Hy ltac:(lia))
      as (utc & it & -> & -> & H1 & H2 & H3).
    eauto.
Qed.
End Rome.

(** C4. A valid timestamp of the years 1001 to 9998 is rendered as
    [HH:MM DD/MM/YYYY], and the minute shown is the minute of the
    Europe/Rome wall clock at the instant of the timestamp, read as
    UTC when it carries no zone; a timestamp without zone gives what
    the same timestamp marked UTC gives; and 2024-01-15 10:00:00
    without zone gives "11:00 15/01/2024" when the offset of
    Europe/Rome at that instant is one hour. *)
Theorem format_event_time_ita_display
    (rome_utcoffset : Z -> Z) (dt : datetime) :
  (forall t, -86400 < rome_utcoffset t < 86400) ->
  valid dt -> 1001 <= year dt <= 9998 ->
  (exists h mi d mo y,
      format_event_time_ita rome_utcoffset (Some dt)
      = Py.Ok (display h mi d mo y)
      /\ 0 <= h < 24 /\ 0 <= mi < 60
      /\ 1 <= mo <= 12 /\ 1 <= d <= _days_in_month y mo
      /\ 1000 <= y <= 9999
      /\ _ymd2ord y mo d * 86400 + h * 3600 + mi * 60
         <= rome_wall_seconds rome_utcoffset dt
         < _ymd2ord y mo d * 86400 + h * 3600 + mi * 60 + 60)
  /\ format_event_time_ita rome_utcoffset (Some (replace_tzinfo dt None))
     = format_event_time_ita rome_utcoffset
         (Some (replace_tzinfo dt (Some (Timezone 0))))
  /\ (rome_utcoffset 1705312800 = 3600 ->
      format_event_time_ita rome_utcoffset
        (Some (mkDatetime 2024 1 15 10 0 0 0 None))
      = Py.Ok "11:00 15/01/2024").
Proof.
  intros Hrome Hvalid Hyear. split; [|split].
  - destruct (to_rome_spec rome_utcoffset Hrome dt Hvalid Hyear)
      as (it & Eit & (Hm & Hd & Hh & Hmi & Hs) & Hy & Hwall).
    exists (hour it), (minute it), (day it), (month it), (year it).
    unfold format_event_time_ita.
    replace (match tzinfo_of dt with Some tz => tz | None => ZoneInfo UTC end)
      with (default (ZoneInfo UTC) (tzinfo_of dt))
      by (destruct (tzinfo_of dt); reflexivity).
    rewrite Eit.
    pose proof (days_in_month_le_31 (year it) (month it) Hm).
    rewrite strftime_display by lia.
    rewrite <- Hwall. unfold wall_seconds, toordinal.
    repeat split; lia.
  - unfold format_event_time_ita, astimezone_rome, add_seconds.
    cbn [tzinfo_of replace_tzinfo fixed_utcoffset]. cbv zeta.
    destruct (_ && _); [|reflexivity].
    destruct (_ord2ymd _) as [[y m] d]. reflexivity.
  - intros Hoff. unfold format_event_time_ita, astimezone_rome.
    cbn [tzinfo_of replace_tzinfo fixed_utcoffset].
    match goal with
    | |- context [add_seconds ?d ?x] =>
        let v := eval vm_compute in (add_seconds d x) in
        change (add_seconds d x) with v
    end.
    cbv iota beta. rewrite fromutc_rome_eq.
    match goal with
    | |- context [rome_utcoffset ?t] =>
        let v := eval vm_compute in t in change t with v
    end.
    rewrite Hoff. reflexivity.
Qed.

Lemma rome_since_1996_bounded t : -86400 < rome_since_1996 t < 86400.
Proof.
  unfold rome_since_1996. destruct (_ord2ymd _) as [[y m] d].
  destruct (_ && _); lia.
Qed.

Definition january_morning : datetime := mkDatetime 2024 1 15 10 0 0 0 None.

Lemma january_morning_valid : valid january_morning.
Proof.
  unfold valid, valid_fields, january_morning.
  cbn [year month day hour minute second tzinfo_of].
  repeat split; vm_compute; first [reflexivity | discriminate].
Qed.

Lemma format_event_time_ita_display_witness :
  (exists h mi d mo y,
      format_event_time_ita rome_since_1996 (Some january_morning)
      = Py.Ok (display h mi d mo y)
      /\ 0 <= h < 24 /\ 0 <= mi < 60
      /\ 1 <= mo <= 12 /\ 1 <= d <= _days_in_month y mo
      /\ 1000 <= y <= 9999
      /\ _ymd2ord y mo d * 86400 + h * 3600 + mi * 60
         <= rome_wall_seconds rome_since_1996 january_morning
         < _ymd2ord y mo d * 86400 + h * 3600 + mi * 60 + 60)
  /\ format_event_time_ita rome_since_1996
       (Some (replace_tzinfo january_morning None))
     = format_event_time_ita rome_since_1996
         (Some (replace_tzinfo january_morning (Some (Timezone 0))))
  /\ format_event_time_ita rome_since_1996
       (Some (mkDatetime 2024 1 15 10 0 0 0 None))
     = Py.Ok "11:00 15/01/2024".
Proof.
  destruct (format_event_time_ita_display rome_since_1996 january_morning)
    as (H1 & H2 & H3).
  - apply rome_since_1996_bounded.
  - apply january_morning_valid.
  - vm_compute. split; discriminate.
  - split; [exact H1|]. split; [exact H2|]. apply H3. reflexivity.
Defined.

Example summer_evening :
  format_event_time_ita rome_since_1996
    (Some (mkDatetime 2024 7 15 22 30 0 0 (Some (Timezone 0))))
  = Py.Ok "00:30 16/07/2024".
Proof. vm_compute. reflexivity. Qed.

End DatetimeSpec.

(** ** The derived view *)

Module SqlSpec.
Import Sql.

(** *** The orders *)

Global Instance time_desc_refl : Reflexive time_desc.
Proof. intros [x|]; simpl; [lia | exact I]. Qed.

Global Instance time_desc_trans : Transitive time_desc.
Proof. intros [x|] [y|] [z|]; simpl; try tauto; lia. Qed.

Global Instance time_desc_total : Total time_desc.
Proof. intros [x|] [y|]; simpl; try tauto; lia. Qed.

Lemma byte_order_alt a b : byte_order a b <-> String.compare a b <> Gt.
Proof.
  unfold byte_order, String.leb. destruct (String.compare a b); split;
    intros; congruence.
Qed.

Lemma compare_gt_lt a b :
  String.compare a b = Gt <-> OrderedTypeEx.String_as_OT.lt b a.
Proof.
  rewrite <- OrderedTypeEx.String_as_OT.cmp_lt.
  unfold OrderedTypeEx.String_as_OT.cmp.
  rewrite (String.compare_antisym b a).
  destruct (String.compare a b); simpl; split; congruence.
Qed.

Global Instance byte_order_total_order : TotalOrder byte_order.
Proof.
  split; [split; [split|]|].
  - intros a. apply byte_order_alt.
    pose proof (proj2 (OrderedTypeEx.String_as_OT.cmp_eq a a) eq_refl) as E.
    unfold OrderedTypeEx.String_as_OT.cmp in E. by rewrite E.
  - intros a b c. rewrite !byte_order_alt, !compare_gt_lt.
    intros Hab Hbc Hca.
    destruct (String.compare b c) eqn:Ebc.
    + apply String.compare_eq_iff in Ebc. subst. tauto.
    + apply OrderedTypeEx.String_as_OT.cmp_lt in Ebc.
      apply Hab. eapply OrderedTypeEx.String_as_OT.lt_trans; eauto.
    + apply compare_gt_lt in Ebc. tauto.
  - intros a b. unfold byte_order. apply String.leb_antisym.
  - intros a b. unfold strict, byte_order.
    destruct (String.leb_total a b) as [Hab|Hba];
      destruct (String.leb a b) eqn:E1, (String.leb b a) eqn:E2;
      try discriminate;
      try (right; left; by apply String.leb_antisym);
      [left | right; right]; split; congruence.
Qed.

Section Orders.
Context (collate : relation string) `{!RelDecision collate}
        `{!TotalOrder collate}.

Local Abbreviation R := (by_barcode_then_recent collate).

Lemma collate_total a b : collate a b \/ collate b a.
Proof.
  destruct (trichotomy (strict collate) a b) as [[H _]|[->|[H _]]];
    [by left | by left | by right].
Qed.

Global Instance by_barcode_then_recent_total : Total R.
Proof.
  intros x y. unfold by_barcode_then_recent.
  destruct (total time_desc (event_time x) (event_time y));
    destruct (decide (collate (log_barcode x) (log_barcode y)));
    destruct (decide (collate (log_barcode y) (log_barcode x)));
    try tauto.
  all: destruct (collate_total (log_barcode x) (log_barcode y)); tauto.
Qed.

Global Instance by_barcode_then_recent_trans : Transitive R.
Proof.
  intros x y z [Hxy Txy] [Hyz Tyz]. split; [by etrans|].
  intros Hzx.
  assert (log_barcode y = log_barcode z) as Eyz.
  { apply (anti_symm collate); [done | by etrans]. }
  assert (log_barcode x = log_barcode y) as Exy.
  { apply (anti_symm collate); [done | by etrans]. }
  etrans; [apply Txy | apply Tyz]; [by rewrite Exy | by rewrite Eyz].
Qed.

Global Instance by_recent_total : Total by_recent.
Proof. intros x y. apply (total time_desc). Qed.

Global Instance by_recent_trans : Transitive by_recent.
Proof. intros x y z. unfold by_recent. apply transitivity. Qed.

(** *** DISTINCT ON over sorted rows *)

Lemma distinct_on_sorted b prev (s : list log_row) :
  StronglySorted R s ->
  (forall k, prev = Some k -> Forall (fun y => collate k (log_barcode y)) s) ->
  filter (fun l => log_barcode l = b) (distinct_on log_barcode prev s)
  = if decide (prev = Some b) then []
    else take 1 (filter (fun l => log_barcode l = b) s).
Proof.
  intros Hs. revert prev.
  induction Hs as [|x s Hs IH Hx]; intros prev Hprev; simpl.
  { by case_decide. }
  assert (Forall (fun y => collate (log_barcode x) (log_barcode y)) s)
    as Hx'.
  { eapply Forall_impl; [exact Hx|]. by intros y [? _]. }
  specialize (IH (Some (log_barcode x))
                 ltac:(by intros k [= <-])).
  rewrite (filter_cons _ x s).
  destruct (decide (log_barcode x = b)) as [<-|Nxb].
  - rewrite decide_True in IH by done.
    destruct (decide (prev = Some (log_barcode x))) as [->|Nprev].
    + exact IH.
    + rewrite filter_cons, decide_True by done. by rewrite IH.
  - assert (filter (fun l => log_barcode l = b)
              (if decide (prev = Some (log_barcode x))
               then distinct_on log_barcode (Some (log_barcode x)) s
               else x :: distinct_on log_barcode (Some (log_barcode x)) s)
            = filter (fun l => log_barcode l = b)
                (distinct_on log_barcode (Some (log_barcode x)) s)) as ->.
    { destruct (decide (prev = _)); [done|].
      by rewrite filter_cons, decide_False. }
    rewrite IH. rewrite (decide_False (P := Some _ = Some b)) by congruence.
    destruct (decide (prev = Some b)) as [Hpb|]; [|done].
    (* no row of [b] can follow a row of another barcode *)
    specialize (Hprev b Hpb). apply Forall_cons in Hprev as [Hbx _].
    destruct (filter _ s) as [|y ?] eqn:Ef; [done|].
    assert (y ∈ filter (fun l => log_barcode l = b) s) as Hy
      by (rewrite Ef; left).
    apply list_elem_of_filter in Hy as [Eyb Hys].
    rewrite Forall_forall in Hx'. specialize (Hx' y Hys).
    rewrite Eyb in Hx'. destruct Nxb. by apply (anti_symm collate).
Qed.

Lemma StronglySorted_filter {A} (Q : relation A) (P : A -> Prop)
    `{!forall x, Decision (P x)} (l : list A) :
  StronglySorted Q l -> StronglySorted Q (filter P l).
Proof.
  induction 1 as [|x l Hl IH Hx]; [constructor|].
  rewrite filter_cons. case_decide; [|done].
  constructor; [done|].
  apply Forall_forall. intros y Hy%list_elem_of_filter.
  rewrite Forall_forall in Hx. apply Hx, Hy.
Qed.

Lemma filter_fmap {A B} (f : A -> B) (P : B -> Prop)
    `{!forall y, Decision (P y)} (l : list A) :
  filter P (f <$> l) = f <$> filter (fun x => P (f x)) l.
Proof.
  induction l as [|x l IH]; [done|].
  rewrite fmap_cons, !filter_cons. case_decide; by rewrite IH.
Qed.

Lemma filter_comm {A} (P Q : A -> Prop) `{!forall x, Decision (P x)}
    `{!forall x, Decision (Q x)} (l : list A) :
  filter P (filter Q l) = filter Q (filter P l).
Proof.
  induction l as [|x l IH]; [done|].
  rewrite !filter_cons.
  destruct (decide (P x)), (decide (Q x));
    rewrite ?filter_cons, ?decide_True, ?decide_False, ?IH by done; done.
Qed.

Lemma time_desc_antisym a b : time_desc a b -> time_desc b a -> a = b.
Proof. destruct a, b; simpl; try tauto. intros. f_equal. lia. Qed.

(** The subquery keeps, for a barcode that has rows, one row, and
    no row of the barcode is more recent than it. *)
Lemma latest_per_barcode_row (rows : list log_row) b :
  (exists l, l ∈ rows /\ log_barcode l = b) ->
  exists l0,
    filter (fun l => log_barcode l = b) (latest_per_barcode collate rows)
    = [l0]
    /\ l0 ∈ rows /\ log_barcode l0 = b
    /\ forall l', l' ∈ rows -> log_barcode l' = b ->
                  time_desc (event_time l0) (event_time l').
Proof.
  intros (l & Hl & Hb). unfold latest_per_barcode.
  pose proof (StronglySorted_merge_sort R rows) as Hs.
  pose proof (merge_sort_Permutation R rows) as Hp.
  set (s := merge_sort R rows) in *.
  rewrite (distinct_on_sorted b None s Hs) by (intros k [=]).
  rewrite decide_False by done.
  pose proof (StronglySorted_filter R (fun l => log_barcode l = b) s Hs)
    as Hfs.
  assert (l ∈ filter (fun l => log_barcode l = b) s) as Hlf.
  { apply list_elem_of_filter. by rewrite Hp. }
  destruct (filter (fun l => log_barcode l = b) s) as [|l0 rest] eqn:Ef.
  { by apply elem_of_nil in Hlf. }
  assert (l0 ∈ filter (fun l => log_barcode l = b) s) as Hl0
    by (rewrite Ef; left).
  apply list_elem_of_filter in Hl0 as [Hb0 Hl0].
  exists l0. split; [done|]. split; [by rewrite <- Hp|]. split; [done|].
  intros l' Hl' Hb'.
  assert (l' ∈ l0 :: rest) as Hin.
  { rewrite <- Ef. apply list_elem_of_filter. by rewrite Hp. }
  apply StronglySorted_cons in Hfs as [Hfirst _].
  apply elem_of_cons in Hin as [->|Hin]; [reflexivity|].
  rewrite Forall_forall in Hfirst. destruct (Hfirst l' Hin) as [_ Ht].
  apply Ht. rewrite Hb0, Hb'. reflexivity.
Qed.

(** *** The join *)

Definition matches (l : log_row) (u : user_row)
  : list (user_row * log_row) :=
  if decide (barcode u = log_barcode l) then [(u, l)] else [].

Lemma join_users_eq us ls :
  join_users us ls = ls ≫= (fun l => us ≫= matches l).
Proof. reflexivity. Qed.

Lemma matches_filter b l us :
  filter (fun ul : user_row * log_row => barcode ul.1 = b)
         (us ≫= matches l)
  = if decide (log_barcode l = b) then us ≫= matches l else [].
Proof.
  induction us as [|u us IH].
  { by case_decide. }
  rewrite bind_cons, filter_app, IH. unfold matches at 1 3.
  destruct (decide (barcode u = log_barcode l)) as [E|N];
    destruct (decide (log_barcode l = b)) as [E'|N']; try done.
  - rewrite filter_cons, decide_True by (simpl; congruence). done.
  - rewrite filter_cons, decide_False by (simpl; congruence). done.
Qed.

Lemma join_users_filter b us ls :
  filter (fun ul : user_row * log_row => barcode ul.1 = b)
         (join_users us ls)
  = join_users us (filter (fun l => log_barcode l = b) ls).
Proof.
  rewrite !join_users_eq. induction ls as [|l ls IH]; [done|].
  rewrite bind_cons, filter_app, IH, matches_filter, filter_cons.
  case_decide; [by rewrite bind_cons | done].
Qed.

Lemma matches_unique us u0 l :
  NoDup (barcode <$> us) -> u0 ∈ us -> barcode u0 = log_barcode l ->
  us ≫= matches l = [(u0, l)].
Proof.
  intros Hnd Hin Hb. induction us as [|u us IH]; [by apply elem_of_nil in Hin|].
  rewrite fmap_cons in Hnd. apply NoDup_cons in Hnd as [Hu Hnd].
  rewrite bind_cons. apply elem_of_cons in Hin as [<-|Hin].
  - unfold matches at 1. rewrite decide_True by done.
    replace (us ≫= matches l) with (@nil (user_row * log_row)); [done|].
    symmetry. clear IH Hnd. induction us as [|u us IH]; [done|].
    rewrite bind_cons. unfold matches at 1.
    rewrite decide_False.
    + apply IH. intros Hin. apply Hu. rewrite fmap_cons. by right.
    + intros E. apply Hu. rewrite fmap_cons, Hb, <- E. left.
  - unfold matches at 1. rewrite decide_False; [by apply IH|].
    intros E. apply Hu. rewrite E, <- Hb.
    apply list_elem_of_fmap. by exists u0.
Qed.
End Orders.

(** C1 (amended). With [barcode] the key of [users], a barcode that
    has a user and whose most recent log event [l] is not tied with an
    event of the other direction gets exactly one row when [l] is a
    CHECKIN -- with the time of [l] and the names of the user -- and
    no row when [l] is a CHECKOUT. *)
Theorem last_inbound_row_of_barcode
    (collate : relation string) `{!RelDecision collate}
    (db : database) (u : user_row) (l : log_row) :
  TotalOrder collate ->
  NoDup (barcode <$> users db) ->
  u ∈ users db -> l ∈ log db -> barcode u = log_barcode l ->
  (forall l', l' ∈ log db -> log_barcode l' = log_barcode l ->
              time_desc (event_time l) (event_time l')) ->
  (forall l', l' ∈ log db -> log_barcode l' = log_barcode l ->
              time_desc (event_time l') (event_time l) ->
              log_direction l' = log_direction l) ->
  filter (fun r => r_barcode r = log_barcode l) (LAST_INBOUND_SQL collate db)
  = match log_direction l with
    | CHECKIN =>
        [mkInbound (log_barcode l) (nome u) (cognome u) (event_time l)]
    | CHECKOUT => []
    end.
Proof.
  intros Hord Hkey Hu Hl Hb Hlatest Hties.
  destruct (latest_per_barcode_row collate (log db) (log_barcode l))
    as (l0 & Hsel & Hl0 & Hb0 & Hmax); [by exists l|].
  assert (event_time l0 = event_time l) as Et.
  { apply time_desc_antisym; [by apply Hmax | by apply Hlatest]. }
  assert (log_direction l0 = log_direction l) as Ed.
  { apply Hties; [done | done | rewrite Et; reflexivity]. }
  unfold LAST_INBOUND_SQL. cbv zeta.
  rewrite (filter_fmap select_row). cbn [select_row r_barcode].
  set (kept := filter is_checkin _).
  assert (filter (fun ul : user_row * log_row => barcode ul.1 = log_barcode l)
            (merge_sort by_recent kept)
          ≡ₚ filter is_checkin [(u, l0)]) as Hperm.
  { rewrite (merge_sort_Permutation by_recent kept). unfold kept.
    rewrite filter_comm.
    rewrite join_users_filter, Hsel, join_users_eq, bind_cons.
    rewrite (matches_unique (users db) u l0) by congruence.
    reflexivity. }
  rewrite filter_cons in Hperm.
  destruct (log_direction l) eqn:Edir.
  - rewrite decide_True in Hperm by (unfold is_checkin; cbn; congruence).
    apply Permutation_singleton_r in Hperm. rewrite Hperm.
    cbn. unfold select_row. cbn [fst snd]. rewrite Hb, Et. reflexivity.
  - rewrite decide_False in Hperm by (unfold is_checkin; cbn; congruence).
    apply Permutation_nil_r in Hperm. by rewrite Hperm.
Qed.

Definition anna : user_row := mkUser "8001234567895" "Anna" "Rossi".
Definition bruno : user_row := mkUser "8009876543210" "Bruno" "Bianchi".

(** Anna checks in at T1 and T2 and out after T2; Bruno checks out and
    then in. *)
Definition sample_db : database :=
  mkDatabase [anna; bruno]
    [mkLog 1 "8001234567895" (Some 1000) CHECKIN;
     mkLog 2 "8009876543210" (Some 1500) CHECKOUT;
     mkLog 3 "8001234567895" (Some 2000) CHECKIN;
     mkLog 4 "8009876543210" (Some 2500) CHECKIN;
     mkLog 5 "8001234567895" (Some 3000) CHECKOUT].

Example sample_answer :
  LAST_INBOUND_SQL byte_order sample_db
  = [mkInbound "8009876543210" "Bruno" "Bianchi" (Some 2500)].
Proof. vm_compute. reflexivity. Qed.

Lemma last_inbound_row_of_barcode_witness :
  filter (fun r => r_barcode r = "8009876543210")
         (LAST_INBOUND_SQL byte_order sample_db)
  = [mkInbound "8009876543210" "Bruno" "Bianchi" (Some 2500)].
Proof.
  apply (last_inbound_row_of_barcode byte_order sample_db bruno
           (mkLog 4 "8009876543210" (Some 2500) CHECKIN)).
  - apply byte_order_total_order.
  - apply (bool_decide_unpack _). vm_compute. reflexivity.
  - set_solver.
  - set_solver.
  - reflexivity.
  - intros l' Hl' Hb'. cbn in Hl'.
    repeat (apply elem_of_cons in Hl' as [->|Hl']);
      try discriminate Hb'; try (simpl; lia).
    by apply elem_of_nil in Hl'.
  - intros l' Hl' Hb' Ht. cbn in Hl'.
    repeat (apply elem_of_cons in Hl' as [->|Hl']);
      try discriminate Hb'; try reflexivity; try (simpl in Ht; lia).
    by apply elem_of_nil in Hl'.
Defined.

(** C1 as stated fails: Anna has CHECKIN events, and her CHECKOUT
    after the latest of them leaves the answer without a row for
    her. *)
Lemma checkout_after_checkin_removes_row :
  ~ (forall b,
        (exists l, l ∈ log sample_db /\ log_barcode l = b
                   /\ log_direction l = CHECKIN) ->
        exists r, r ∈ LAST_INBOUND_SQL byte_order sample_db
                  /\ r_barcode r = b).
Proof.
  intros Hclaim.
  destruct (Hclaim "8001234567895") as (r & Hr & Hb).
  { exists (mkLog 3 "8001234567895" (Some 2000) CHECKIN).
    split; [set_solver | done]. }
  rewrite sample_answer in Hr. apply list_elem_of_singleton in Hr.
  subst r. discriminate Hb.
Qed.

End SqlSpec.

(** ** The worksheet and the sync pipeline *)

Module SyncSpec.
Import Datetime Sql Sheet Sync.
Local Open Scope nat_scope.

(** The value that a block written at [(r0, c0)] puts in a cell. *)
Definition block_value (r0 c0 : nat) (rows : list (list string)) (k : cell)
  : option string :=
  if decide (r0 <= k.1 /\ c0 <= k.2)
  then rows !! (k.1 - r0) ≫= (fun vals => vals !! (k.2 - c0))
  else None.

Lemma lookup_row_cells (r c : nat) (vals : list string) (k : cell) :
  (list_to_map (row_cells r c vals) : worksheet) !! k
  = if decide (k.1 = r /\ c <= k.2) then vals !! (k.2 - c) else None.
Proof.
  revert c. induction vals as [|v rest IH]; intros c; simpl.
  { rewrite lookup_empty. by case_decide. }
  destruct k as [r' c']. simpl in *.
  destruct (decide ((r, c) = (r', c'))) as [[= <- <-]|Hne].
  - rewrite lookup_insert_eq, decide_True by lia. by rewrite Nat.sub_diag.
  - rewrite lookup_insert_ne by done. rewrite IH. simpl.
    destruct (decide (r' = r /\ S c <= c')) as [[-> Hc]|Hn].
    + rewrite decide_True by lia.
      replace (c' - c) with (S (c' - S c)) by lia. done.
    + destruct (decide (r' = r /\ c <= c')) as [[-> Hc]|]; [|done].
      assert (c' = c) as -> by lia. congruence.
Qed.

Lemma lookup_block_cells (r c0 : nat) (rows : list (list string))
    (k : cell) :
  (list_to_map (block_cells r c0 rows) : worksheet) !! k
  = block_value r c0 rows k.
Proof.
  revert r. induction rows as [|vals rest IH]; intros r; simpl.
  { rewrite lookup_empty. unfold block_value. case_decide; [|done].
    by rewrite lookup_nil. }
  rewrite list_to_map_app, lookup_union, lookup_row_cells, IH.
  unfold block_value. destruct k as [r' c']. simpl.
  repeat case_decide; try lia.
  - assert (r' = r) as -> by lia. rewrite Nat.sub_diag. simpl.
    by destruct (vals !! (c' - c0)).
  - replace (r' - r) with (S (r' - S r)) by lia.
    by rewrite (left_id_L None _).
  - done.
Qed.

Lemma lookup_write_block (r0 c0 : nat) (rows : list (list string))
    (s : worksheet) (k : cell) :
  write_block r0 c0 rows s !! k
  = match block_value r0 c0 rows k with
    | Some v => Some v
    | None => s !! k
    end.
Proof.
  unfold write_block. rewrite lookup_union, lookup_block_cells.
  destruct (block_value r0 c0 rows k); [|by rewrite (left_id_L None _)].
  by destruct (s !! k).
Qed.

Lemma lookup_clear_range (rg : a1_range) (s : worksheet) (k : cell) :
  clear_range rg s !! k = if decide (in_range rg k) then None else s !! k.
Proof.
  unfold clear_range. rewrite map_lookup_filter.
  destruct (s !! k) as [v|]; simpl; [|by case_decide].
  destruct (decide (in_range rg k)).
  - rewrite option_guard_False; [done | simpl; tauto].
  - by rewrite option_guard_True.
Qed.

Definition A2_D : a1_range := mkRange 2 1 None 4.

Lemma block_value_in_range (rows : list (list string)) (k : cell) (v : string) :
  Forall (fun vals => length vals <= 4) rows ->
  block_value 2 1 rows k = Some v -> in_range A2_D k.
Proof.
  intros Hrows. unfold block_value. case_decide as Hk; [|done].
  destruct (rows !! (k.1 - 2)) as [vals|] eqn:Er; [|done]. simpl.
  intros Hv%lookup_lt_Some.
  rewrite Forall_forall in Hrows.
  assert (vals ∈ rows) as Hin by (eapply list_elem_of_lookup_2; eauto).
  specialize (Hrows vals Hin). unfold in_range, A2_D. simpl. lia.
Qed.

(** Clearing the region forgets a block that was written inside it. *)
Lemma clear_write_block (rows : list (list string)) (s : worksheet) :
  Forall (fun vals => length vals <= 4) rows ->
  clear_range A2_D (write_block 2 1 rows s) = clear_range A2_D s.
Proof.
  intros Hrows. apply map_eq. intros k.
  rewrite !lookup_clear_range. case_decide as Hk; [done|].
  rewrite lookup_write_block.
  destruct (block_value 2 1 rows k) as [v|] eqn:Ev; [|done].
  destruct Hk. by eapply block_value_in_range.
Qed.

Lemma clear_range_idemp (rg : a1_range) (s : worksheet) :
  clear_range rg (clear_range rg s) = clear_range rg s.
Proof.
  apply map_eq. intros k. rewrite !lookup_clear_range. by case_decide.
Qed.

Lemma parse_A2_D : parse_a1 "A2:D" = Some A2_D.
Proof. reflexivity. Qed.

Lemma parse_A2 : parse_a1 "A2" = Some (mkRange 2 1 (Some 2) 1).
Proof. reflexivity. Qed.

(** The runs of [write_full_table_to_sheet], case by case. *)
Lemma write_full_table_run (f : faults) (rows : list (list string))
    (w : world) :
  write_full_table_to_sheet f rows w
  = if negb (_worksheet w) && open_fails f
    then (Py.Raise Py.GatewayError, w)
    else
      let cs := calls w ++ [BatchClear ["A2:D"]] in
      if clear_fails f
      then (Py.Raise Py.GatewayError, mkWorld (db w) (sheet w) cs true)
      else
        let cleared := clear_range A2_D (sheet w) in
        match rows with
        | [] => (Py.Ok tt, mkWorld (db w) cleared cs true)
        | _ =>
            let cs' := cs ++ [Update "A2" rows] in
            if update_fails f
            then (Py.Raise Py.GatewayError, mkWorld (db w) cleared cs' true)
            else (Py.Ok tt,
                  mkWorld (db w) (write_block 2 1 rows cleared) cs' true)
        end.
Proof.
  unfold write_full_table_to_sheet, mbind, M_bind, get_worksheet,
    batch_clear, update, mret, M_ret.
  destruct w as [d s cs opened]. cbn [_worksheet db sheet calls].
  destruct opened, (open_fails f); cbn [negb andb];
    try reflexivity;
    destruct (clear_fails f); try reflexivity;
    cbn [mapM]; rewrite parse_A2_D; cbn [foldr];
    destruct rows; try reflexivity;
    cbn [_worksheet db sheet calls]; destruct (update_fails f);
    reflexivity.
Qed.

Lemma mapM_lookup {A B} (f : A -> Py.result B) (l : list A) (bs : list B)
    (i : nat) (a : A) :
  mapM f l = Py.Ok bs -> l !! i = Some a ->
  exists b, f a = Py.Ok b /\ bs !! i = Some b.
Proof.
  revert bs i. induction l as [|x l IH]; intros bs i Hm Hi; [done|].
  simpl in Hm. destruct (f x) as [b|] eqn:Ex; [|done].
  destruct (mapM f l) as [bs'|] eqn:El; [|done].
  injection Hm as <-. destruct i as [|i]; simpl in Hi.
  - injection Hi as <-. by exists b.
  - destruct (IH bs' i eq_refl Hi) as (b' & ? & ?). by exists b'.
Qed.

Lemma mapM_Forall {A B} (f : A -> Py.result B) (P : B -> Prop)
    (l : list A) (bs : list B) :
  (forall a b, f a = Py.Ok b -> P b) ->
  mapM f l = Py.Ok bs -> Forall P bs.
Proof.
  intros HP. revert bs. induction l as [|x l IH]; intros bs Hm; simpl in Hm.
  { injection Hm as <-. constructor. }
  destruct (f x) as [b|] eqn:Ex; [|done].
  destruct (mapM f l) as [bs'|] eqn:El; [|done].
  injection Hm as <-. constructor; eauto.
Qed.

Lemma lookup_written_cell (rows : list (list string)) (s : worksheet)
    (i j : nat) (vals : list string) (v : string) :
  rows !! i = Some vals -> vals !! j = Some v ->
  write_block 2 1 rows s !! (2 + i, 1 + j) = Some v.
Proof.
  intros Hi Hj. rewrite lookup_write_block. unfold block_value.
  rewrite decide_True by (simpl; lia). cbn [fst snd].
  replace (2 + i - 2) with i by lia. replace (1 + j - 1) with j by lia.
  rewrite Hi. simpl. by rewrite Hj.
Qed.

(** C5. When the worksheet can be opened and the clear call returns:
    with no rows the run makes one call, the clear of A2:D, and
    leaves the region empty; with rows it makes the clear and then
    one update at A2 with all the rows, after which the region holds
    the rows from A2 on and nothing else. *)
Theorem write_full_table_to_sheet_calls
    (f : faults) (rows : list (list string)) (w : world) :
  _worksheet w = true \/ open_fails f = false ->
  clear_fails f = false ->
  let run := write_full_table_to_sheet f rows w in
  match rows with
  | [] =>
      run.1 = Py.Ok tt
      /\ calls run.2 = calls w ++ [BatchClear ["A2:D"]]
      /\ sheet run.2 = clear_range A2_D (sheet w)
  | _ =>
      calls run.2 = calls w ++ [BatchClear ["A2:D"]; Update "A2" rows]
      /\ (update_fails f = false ->
          run.1 = Py.Ok tt
          /\ sheet run.2 = write_block 2 1 rows (clear_range A2_D (sheet w))
          /\ forall i j vals v,
               rows !! i = Some vals -> vals !! j = Some v ->
               sheet run.2 !! (2 + i, 1 + j) = Some v)
  end
  /\ forall k : cell,
       clear_range A2_D (sheet w) !! k
       = if decide (2 <= k.1 /\ 1 <= k.2 <= 4) then None else sheet w !! k.
Proof.
  intros Hopen Hclear run. subst run. rewrite write_full_table_run.
  assert (negb (_worksheet w) && open_fails f = false) as ->.
  { destruct Hopen as [-> | ->]; [done | by rewrite andb_false_r]. }
  rewrite Hclear. cbv zeta. split.
  - destruct rows as [|vals rest]; [done|].
    destruct (update_fails f); cbn [fst snd calls sheet].
    + split; [by rewrite <- app_assoc | done].
    + split; [by rewrite <- app_assoc|]. intros _.
      split; [done|]. split; [done|].
      intros i j vals' v. apply lookup_written_cell.
  - intros k. rewrite lookup_clear_range.
    unfold in_range, A2_D. cbn [first_row first_col last_col last_row].
    repeat case_decide; try done; tauto.
Qed.

Definition stale_world : world :=
  mkWorld (mkDatabase [] [])
          {[ (1, 1) := "barcode"; (2, 1) := "old"; (9, 4) := "older";
             (3, 5) := "note" ]}
          [] false.

Definition one_row : list (list string) :=
  [["8009876543210"; "Bruno"; "Bianchi"; "11:00 15/01/2024"]].

Lemma write_full_table_to_sheet_calls_witness :
  (calls (write_full_table_to_sheet no_faults one_row stale_world).2
   = calls stale_world ++ [BatchClear ["A2:D"]; Update "A2" one_row]
   /\ (update_fails no_faults = false ->
       (write_full_table_to_sheet no_faults one_row stale_world).1
       = Py.Ok tt
       /\ sheet (write_full_table_to_sheet no_faults one_row stale_world).2
          = write_block 2 1 one_row
              (clear_range A2_D (sheet stale_world))
       /\ forall i j vals v,
            one_row !! i = Some vals -> vals !! j = Some v ->
            sheet (write_full_table_to_sheet no_faults one_row
                     stale_world).2 !! (2 + i, 1 + j) = Some v))
  /\ forall k : cell,
       clear_range A2_D (sheet stale_world) !! k
       = if decide (2 <= k.1 /\ 1 <= k.2 <= 4) then None
         else sheet stale_world !! k.
Proof.
  apply (write_full_table_to_sheet_calls no_faults one_row stale_world);
    [right; reflexivity | reflexivity].
Defined.

Example empty_table_only_clears :
  calls (write_full_table_to_sheet no_faults [] stale_world).2
  = [BatchClear ["A2:D"]]
  /\ map_to_list (sheet (write_full_table_to_sheet no_faults []
                           stale_world).2)
     ≡ₚ [((1, 1), "barcode"); ((3, 5), "note")].
Proof. split; [reflexivity|]. vm_compute. by rewrite Permutation_swap. Qed.

Section Pipeline.
Context (collate : relation string) `{!RelDecision collate}.
Variable rome_utcoffset : Z -> Z.

Lemma sheet_row_length r vals :
  sheet_row rome_utcoffset r = Py.Ok vals -> length vals = 4.
Proof.
  unfold sheet_row. destruct (decode_event_time _); [|done].
  destruct (format_event_time_ita _ _); [|done]. by intros [= <-].
Qed.

Lemma refresh_run (f : faults) (w : world) :
  refresh_sheet_from_db collate rome_utcoffset f w
  = if query_fails f then (Py.Raise Py.DatabaseError, w)
    else
      match mapM (sheet_row rome_utcoffset)
                 (LAST_INBOUND_SQL collate (db w)) with
      | Py.Ok rows => write_full_table_to_sheet f rows w
      | Py.Raise e => (Py.Raise e, w)
      end.
Proof.
  unfold refresh_sheet_from_db, mbind, M_bind, fetch_last_inbound_rows.
  destruct (query_fails f); [done|]. by destruct (mapM _ _).
Qed.

Lemma refresh_keeps_db (f : faults) (w : world) :
  db (refresh_sheet_from_db collate rome_utcoffset f w).2 = db w.
Proof.
  rewrite refresh_run. destruct (query_fails f); [done|].
  destruct (mapM _ _) as [rows|]; [|done].
  rewrite write_full_table_run.
  destruct (negb _ && _); [done|]. cbv zeta.
  destruct (clear_fails f); [done|].
  destruct rows; [done|]. by destruct (update_fails f).
Qed.

(** C6. Two runs in a row over the same tables, meeting the same
    behaviour of the outside, compute the same rows, end the same
    way and leave the same sheet. *)
Theorem refresh_sheet_from_db_idempotent (f : faults) (w : world) :
  let run1 := refresh_sheet_from_db collate rome_utcoffset f w in
  let run2 := refresh_sheet_from_db collate rome_utcoffset f run1.2 in
  (fetch_last_inbound_rows collate rome_utcoffset f run1.2).1
  = (fetch_last_inbound_rows collate rome_utcoffset f w).1
  /\ run2.1 = run1.1
  /\ sheet run2.2 = sheet run1.2.
Proof.
  cbv zeta. split.
  { unfold fetch_last_inbound_rows. rewrite refresh_keeps_db.
    by destruct (query_fails f). }
  rewrite (refresh_run f (refresh_sheet_from_db _ _ _ _).2).
  rewrite refresh_keeps_db. rewrite !refresh_run.
  destruct (query_fails f); [done|].
  destruct (mapM _ _) as [rows|] eqn:Erows; [|done].
  assert (Forall (fun vals => length vals <= 4) rows) as Hwidth.
  { eapply mapM_Forall; [|exact Erows].
    intros r vals Hr. by rewrite (sheet_row_length r vals Hr). }
  rewrite !write_full_table_run.
  destruct (negb (_worksheet w) && open_fails f) eqn:Eopen.
  { cbn [snd]. by rewrite Eopen. }
  cbv zeta. destruct (clear_fails f) eqn:Eclear.
  { by cbn [snd fst _worksheet sheet negb andb]. }
  destruct rows as [|vals rest].
  { cbn [snd fst _worksheet sheet negb andb].
    by rewrite clear_range_idemp. }
  destruct (update_fails f) eqn:Eupdate;
    cbn [snd fst _worksheet sheet negb andb].
  - by rewrite clear_range_idemp.
  - by rewrite (clear_write_block _ _ Hwidth), clear_range_idemp.
Qed.

(** C9. [format_event_time_ita(None)] is the empty string, and a
    row of the derived view whose [event_time] is NULL goes to the
    sheet, in a run that completes, with its barcode and names and
    an empty fourth cell. *)
Theorem null_event_time_is_blank
    (w : world) (i : nat) (r : inbound_row) :
  LAST_INBOUND_SQL collate (db w) !! i = Some r ->
  r_event_time r = None ->
  (refresh_sheet_from_db collate rome_utcoffset no_faults w).1
  = Py.Ok tt ->
  format_event_time_ita rome_utcoffset None = Py.Ok ""
  /\ sheet_row rome_utcoffset r
     = Py.Ok [r_barcode r; r_nome r; r_cognome r; ""]
  /\ let s :=
       sheet (refresh_sheet_from_db collate rome_utcoffset no_faults w).2
     in
     s !! (2 + i, 1) = Some (r_barcode r)
     /\ s !! (2 + i, 2) = Some (r_nome r)
     /\ s !! (2 + i, 3) = Some (r_cognome r)
     /\ s !! (2 + i, 4) = Some "".
Proof.
  intros Hi Hnull Hok. split; [reflexivity|].
  assert (sheet_row rome_utcoffset r
          = Py.Ok [r_barcode r; r_nome r; r_cognome r; ""]) as Hrow.
  { unfold sheet_row. by rewrite Hnull. }
  split; [exact Hrow|]. cbv zeta.
  rewrite refresh_run in Hok |- *. cbn [no_faults query_fails] in *.
  destruct (mapM _ _) as [rows|] eqn:Erows; [|done].
  destruct (mapM_lookup _ _ _ i r Erows Hi) as (vals & Hvals & Hri).
  rewrite Hrow in Hvals. injection Hvals as <-.
  rewrite write_full_table_run.
  cbn [no_faults open_fails clear_fails update_fails].
  rewrite andb_false_r. cbv zeta.
  destruct rows as [|row0 rest]; [done|]. cbn [snd sheet].
  repeat split.
  - apply (lookup_written_cell _ _ i 0 _ _ Hri). reflexivity.
  - apply (lookup_written_cell _ _ i 1 _ _ Hri). reflexivity.
  - apply (lookup_written_cell _ _ i 2 _ _ Hri). reflexivity.
  - apply (lookup_written_cell _ _ i 3 _ _ Hri). reflexivity.
Qed.
End Pipeline.

(** A log whose only event has no time. *)
Definition timeless_world : world :=
  mkWorld
    (mkDatabase [mkUser "8001234567895" "Anna" "Rossi"]
                [mkLog 1 "8001234567895" None CHECKIN])
    ∅ [] false.

Lemma null_event_time_is_blank_witness :
  format_event_time_ita Datetime.rome_since_1996 None = Py.Ok ""
  /\ sheet_row Datetime.rome_since_1996
       (mkInbound "8001234567895" "Anna" "Rossi" None)
     = Py.Ok ["8001234567895"; "Anna"; "Rossi"; ""]
  /\ let s :=
       sheet (refresh_sheet_from_db byte_order Datetime.rome_since_1996
                no_faults timeless_world).2 in
     s !! (2 + 0, 1) = Some "8001234567895"
     /\ s !! (2 + 0, 2) = Some "Anna"
     /\ s !! (2 + 0, 3) = Some "Rossi"
     /\ s !! (2 + 0, 4) = Some "".
Proof.
  apply (null_event_time_is_blank byte_order Datetime.rome_since_1996
           timeless_world 0
           (mkInbound "8001234567895" "Anna" "Rossi" None)).
  - vm_compute. reflexivity.
  - reflexivity.
  - vm_compute. reflexivity.
Defined.

(** Two runs over the sample tables leave the same sheet. *)
Example sample_runs_agree :
  let run1 :=
    refresh_sheet_from_db byte_order Datetime.rome_since_1996 no_faults
      (mkWorld SqlSpec.sample_db (sheet stale_world) [] false) in
  let run2 :=
    refresh_sheet_from_db byte_order Datetime.rome_since_1996 no_faults
      run1.2 in
  sheet run2.2 = sheet run1.2
  /\ sheet run1.2 !! (2, 2) = Some "Bruno"
  /\ sheet run1.2 !! (2, 1) = Some "8009876543210"
  /\ sheet run1.2 !! (9, 4) = None.
Proof. vm_compute. done. Qed.

End SyncSpec.

(** ** The dispatcher *)

Module DispatcherSpec.
Import Datetime Sql Sheet Sync Dispatcher SqlSpec SyncSpec.
Local Open Scope nat_scope.

(** The events that a list of actions puts on the queue. *)
Definition notified_by (acts : list env_action) : list event :=
  acts ≫= (fun a => match a with
                    | Notify channel payload => [mkEvent channel payload]
                    | _ => []
                    end).

Definition notified (sch : list (list env_action)) : list event :=
  sch ≫= notified_by.

Definition outcome (send_raises : nat -> websocket -> bool) (k : nat)
    (c : websocket) : websocket * bool :=
  (c, negb (send_raises k c)).

Section Loop.
Context (collate : relation string) `{!RelDecision collate}.
Variable rome_utcoffset : Z -> Z.
Variable send_raises : nat -> websocket -> bool.

Local Abbreviation apply_action := (apply_action collate rome_utcoffset).
Local Abbreviation await := (await collate rome_utcoffset).
Local Abbreviation send_to := (send_to collate rome_utcoffset send_raises).
Local Abbreviation for_each :=
  (for_each collate rome_utcoffset send_raises).
Local Abbreviation dispatch :=
  (dispatch collate rome_utcoffset send_raises).
Local Abbreviation notification_dispatcher :=
  (notification_dispatcher collate rome_utcoffset send_raises).

(** *** What the other tasks can change *)

Lemma apply_action_fields a st :
  broadcasts (apply_action a st) = broadcasts st
  /\ schedule (apply_action a st) = schedule st
  /\ notification_queue (apply_action a st)
     = notification_queue st ++ notified_by [a]
  /\ received (apply_action a st) = received st ++ notified_by [a].
Proof.
  destruct a as [c|c|ch p|d|i f]; cbn;
    rewrite ?app_nil_r; try done.
  destruct (tasks st !! i) as [t|]; [|by rewrite ?app_nil_r].
  by destruct (step_task _ _ _ _ _).
Qed.

Lemma apply_actions_fields acts st :
  let st' := foldl (flip apply_action) st acts in
  broadcasts st' = broadcasts st
  /\ schedule st' = schedule st
  /\ notification_queue st' = notification_queue st ++ notified_by acts
  /\ received st' = received st ++ notified_by acts.
Proof.
  revert st. induction acts as [|a acts IH]; intros st; cbn.
  { by rewrite !app_nil_r. }
  destruct (IH (apply_action a st)) as (-> & -> & -> & ->).
  destruct (apply_action_fields a st) as (-> & -> & -> & ->).
  unfold notified_by. rewrite !bind_cons, !app_nil_r, <- !app_assoc.
  done.
Qed.

Lemma await_fields st :
  broadcasts (await st) = broadcasts st
  /\ schedule (await st) = tail (schedule st)
  /\ notification_queue (await st)
     = notification_queue st ++ notified_by (default [] (head (schedule st)))
  /\ received (await st)
     = received st ++ notified_by (default [] (head (schedule st))).
Proof.
  unfold Dispatcher.await. destruct (schedule st) as [|acts rest] eqn:E.
  { rewrite E. cbn. by rewrite !app_nil_r. }
  destruct (apply_actions_fields acts (with_schedule rest st))
    as (-> & -> & -> & ->). done.
Qed.

Lemma awaits_fields n st :
  let st' := Nat.iter n await st in
  broadcasts st' = broadcasts st
  /\ schedule st' = drop n (schedule st)
  /\ notification_queue st'
     = notification_queue st ++ notified (take n (schedule st))
  /\ received st' = received st ++ notified (take n (schedule st)).
Proof.
  induction n as [|n IH]; cbv zeta.
  { rewrite drop_0, take_0. unfold notified. cbn.
    by rewrite !app_nil_r. }
  rewrite Nat.iter_succ.
  destruct (await_fields (Nat.iter n await st)) as (-> & -> & -> & ->).
  destruct IH as (-> & -> & -> & ->).
  split; [done|]. split.
  { clear. revert n. induction (schedule st) as [|x l IHl]; intros n.
    - by rewrite !drop_nil.
    - destruct n; [by rewrite drop_0|]. cbn. apply IHl. }
  assert (notified (take (S n) (schedule st))
          = notified (take n (schedule st))
            ++ notified_by (default [] (head (drop n (schedule st)))))
    as ->; [|by rewrite <- !app_assoc].
  clear. revert n. induction (schedule st) as [|x l IHl]; intros n.
  { by rewrite !take_nil, drop_nil. }
  destruct n.
  - rewrite drop_0. unfold notified. cbn. by rewrite app_nil_r.
  - cbn [take drop]. unfold notified in *.
    rewrite !bind_cons, IHl. by rewrite <- app_assoc.
Qed.

(** *** The broadcast loop over a snapshot *)

Lemma for_each_list items k v :
  for_each None items k v
  = Py.Ok (mkVars (dead v ++ filter (fun c => send_raises k c = true) items)
                  (attempts v ++ (outcome send_raises k <$> items))
                  (Nat.iter (length items) await (now v))).
Proof.
  revert v. induction items as [|c items IH]; intros v.
  { cbn [Dispatcher.for_each size_changed length Nat.iter nat_rect].
    rewrite filter_nil, fmap_nil, !app_nil_r. by destruct v. }
  change (for_each None (c :: items) k v)
    with (for_each None items k (send_to k c v)).
  rewrite IH, filter_cons, fmap_cons. unfold Dispatcher.send_to, outcome.
  cbn [length]. rewrite Nat.iter_succ_r.
  destruct (send_raises k c) eqn:E; cbn [dead attempts now negb].
  - rewrite decide_True by done. by rewrite <- !app_assoc.
  - rewrite decide_False by done. by rewrite <- !app_assoc.
Qed.

Lemma foldl_discard st cs :
  foldl discard st cs
  = with_websockets (connected_websockets st ∖ list_to_set cs) st.
Proof.
  revert st. induction cs as [|c cs IH]; intros st; cbn.
  { destruct st. unfold with_websockets. cbn. f_equal.
    by rewrite difference_empty_L. }
  rewrite IH. unfold discard, with_websockets. cbn. f_equal.
  by rewrite difference_difference_l_L.
Qed.

(** The state after one turn of the loop body. *)
Definition after_dispatch (ev : event) (st : state) : state :=
  let k := length (broadcasts st) in
  let snapshot := elements (connected_websockets st) in
  let st1 := Nat.iter (length snapshot) await st in
  let failed := filter (fun c => send_raises k c = true) snapshot in
  mkState (connected_websockets st1 ∖ list_to_set failed)
          (notification_queue st1)
          (tasks st1 ++ [Pending])
          (outside st1) (schedule st1) (received st1)
          (broadcasts st1
           ++ [mkBroadcast (message_of ev)
                           (outcome send_raises k <$> snapshot)]).

Lemma dispatch_run ev st : dispatch ev st = Py.Ok (after_dispatch ev st).
Proof.
  unfold Dispatcher.dispatch. cbv zeta. rewrite for_each_list.
  cbn [dead attempts now app]. rewrite foldl_discard.
  reflexivity.
Qed.

(** The state after [fuel] turns of the dispatcher. *)
Fixpoint run (fuel : nat) (st : state) : state :=
  match fuel with
  | O => st
  | S fuel' =>
      match notification_queue st with
      | [] => run fuel' (await st)
      | ev :: rest => run fuel' (after_dispatch ev (with_queue rest st))
      end
  end.

Lemma dispatcher_run fuel st :
  notification_dispatcher fuel st = Py.Ok (run fuel st).
Proof.
  revert st. induction fuel as [|fuel IH]; intros st; [done|].
  cbn [Dispatcher.notification_dispatcher run].
  destruct (notification_queue st) as [|ev rest]; [apply IH|].
  rewrite dispatch_run. apply IH.
Qed.

Lemma notified_app sch1 sch2 :
  notified (sch1 ++ sch2) = notified sch1 ++ notified sch2.
Proof. unfold notified. apply bind_app. Qed.

Lemma notified_take_drop n sch :
  notified (take n sch) ++ notified (drop n sch) = notified sch.
Proof. by rewrite <- notified_app, take_drop. Qed.

Lemma after_dispatch_fields ev rest st :
  let n := length (elements (connected_websockets st)) in
  let st' := after_dispatch ev (with_queue rest st) in
  broadcasts st'
  = broadcasts st
    ++ [mkBroadcast (message_of ev)
          (outcome send_raises (length (broadcasts st))
             <$> elements (connected_websockets st))]
  /\ schedule st' = drop n (schedule st)
  /\ notification_queue st' = rest ++ notified (take n (schedule st))
  /\ received st' = received st ++ notified (take n (schedule st)).
Proof.
  cbv zeta. unfold after_dispatch. cbv zeta.
  cbn [broadcasts schedule notification_queue received
       connected_websockets with_queue].
  destruct (awaits_fields (length (elements (connected_websockets st)))
              (with_queue rest st)) as (-> & -> & -> & ->).
  done.
Qed.

(** Every event received so far has been broadcast, in the order of
    receipt, or is still on the queue. *)
Definition in_order (st : state) : Prop :=
  (b_message <$> broadcasts st) ++ (message_of <$> notification_queue st)
  = message_of <$> received st.

(** The events that the state has received or will receive. *)
Definition all_events (st : state) : list event :=
  received st ++ notified (schedule st).

Lemma head_tail_notified sch :
  notified_by (default [] (head sch)) ++ notified (tail sch)
  = notified sch.
Proof. destruct sch; [done|]. unfold notified. by rewrite bind_cons. Qed.

Lemma await_in_order st : in_order st -> in_order (await st).
Proof.
  unfold in_order. intros H.
  destruct (await_fields st) as (-> & _ & -> & ->).
  by rewrite !fmap_app, app_assoc, H.
Qed.

Lemma await_all_events st : all_events (await st) = all_events st.
Proof.
  unfold all_events.
  destruct (await_fields st) as (_ & -> & _ & ->).
  by rewrite <- app_assoc, head_tail_notified.
Qed.

Lemma after_dispatch_in_order ev rest st :
  notification_queue st = ev :: rest ->
  in_order st -> in_order (after_dispatch ev (with_queue rest st)).
Proof.
  unfold in_order. intros Hq H.
  destruct (after_dispatch_fields ev rest st) as (-> & _ & -> & ->).
  rewrite Hq in H. rewrite !fmap_app, <- H. cbn.
  by rewrite <- !app_assoc.
Qed.

Lemma after_dispatch_all_events ev rest st :
  all_events (after_dispatch ev (with_queue rest st)) = all_events st.
Proof.
  unfold all_events.
  destruct (after_dispatch_fields ev rest st) as (_ & -> & _ & ->).
  by rewrite <- app_assoc, notified_take_drop.
Qed.

Lemma run_in_order fuel st : in_order st -> in_order (run fuel st).
Proof.
  revert st. induction fuel as [|fuel IH]; intros st H; [done|].
  cbn [run]. destruct (notification_queue st) as [|ev rest] eqn:Hq.
  - by apply IH, await_in_order.
  - by apply IH, after_dispatch_in_order.
Qed.

Lemma run_all_events fuel st : all_events (run fuel st) = all_events st.
Proof.
  revert st. induction fuel as [|fuel IH]; intros st; [done|].
  cbn [run]. destruct (notification_queue st) as [|ev rest] eqn:Hq.
  - by rewrite IH, await_all_events.
  - by rewrite IH, after_dispatch_all_events.
Qed.

(** What is left to do: events queued or still to arrive, and
    suspensions still to be scheduled. *)
Definition backlog (st : state) : nat :=
  length (notification_queue st) + length (notified (schedule st))
  + length (schedule st).

Lemma run_drains fuel st :
  backlog st <= fuel ->
  notification_queue (run fuel st) = [] /\ schedule (run fuel st) = [].
Proof.
  revert st. induction fuel as [|fuel IH]; intros st Hb.
  { unfold backlog in Hb. cbn.
    split; apply length_zero_iff_nil; lia. }
  cbn [run]. destruct (notification_queue st) as [|ev rest] eqn:Hq.
  - apply IH. unfold backlog in *.
    destruct (await_fields st) as (_ & -> & -> & _).
    rewrite Hq in *. cbn [length app] in *.
    pose proof (head_tail_notified (schedule st)) as E.
    apply (f_equal length) in E. rewrite length_app in E.
    destruct (schedule st) as [|acts sch]; cbn in *; lia.
  - apply IH. unfold backlog in *.
    destruct (after_dispatch_fields ev rest st) as (_ & -> & -> & _).
    rewrite Hq in Hb. cbn [length] in Hb.
    pose proof (notified_take_drop
                  (length (elements (connected_websockets st)))
                  (schedule st)) as E.
    apply (f_equal length) in E. rewrite length_app in E.
    rewrite length_app, length_drop. lia.
Qed.

(** *** The registry across a broadcast and across a run *)

Definition never_connects (c : websocket) (sch : list (list env_action))
  : Prop :=
  Forall (Forall (fun a => a <> Connect c)) sch.

Definition failed_in (c : websocket) (b : broadcast) : Prop :=
  (c, false) ∈ b_attempts b.

Definition attempted_in (c : websocket) (b : broadcast) : Prop :=
  c ∈ (b_attempts b).*1.

Lemma outcome_fst k (cs : list websocket) :
  (outcome send_raises k <$> cs).*1 = cs.
Proof.
  induction cs as [|c cs IH]; [done|]. cbn. by rewrite IH.
Qed.

Lemma failed_outcome c k (cs : list websocket) :
  (c, false) ∈ outcome send_raises k <$> cs
  <-> c ∈ cs /\ send_raises k c = true.
Proof.
  rewrite list_elem_of_fmap. unfold outcome. split.
  - intros (c' & [= <- E] & Hin). split; [done|].
    by destruct (send_raises k c).
  - intros [Hin E]. exists c. by rewrite E.
Qed.

Lemma apply_action_absent c a st :
  a <> Connect c ->
  c ∉ connected_websockets st ->
  c ∉ connected_websockets (apply_action a st).
Proof.
  intros Ha Hc. destruct a as [c'|c'|ch p|d|i f]; cbn; try done.
  - assert (c <> c') by congruence.
    by rewrite not_elem_of_union, not_elem_of_singleton.
  - intros [Hin _]%elem_of_difference. by apply Hc.
  - destruct (tasks st !! i); [|done]. by destruct (step_task _ _ _ _ _).
Qed.

Lemma await_absent c st :
  never_connects c (schedule st) ->
  c ∉ connected_websockets st ->
  (c ∉ connected_websockets (await st))
  /\ never_connects c (schedule (await st)).
Proof.
  unfold never_connects, Dispatcher.await. intros Hn Hc.
  destruct (schedule st) as [|acts rest] eqn:E.
  { by rewrite E. }
  apply Forall_cons in Hn as [Hacts Hrest].
  destruct (apply_actions_fields acts (with_schedule rest st))
    as (_ & -> & _). split; [|done].
  assert (c ∉ connected_websockets (with_schedule rest st)) as Hc'
    by done.
  revert Hc'. generalize (with_schedule rest st). clear E.
  induction Hacts as [|a acts Ha Hacts IH]; intros st' Hc'; [done|].
  cbn. by apply IH, apply_action_absent.
Qed.

Lemma await_never_connects c st :
  never_connects c (schedule st) ->
  never_connects c (schedule (await st)).
Proof.
  unfold never_connects. destruct (await_fields st) as (_ & -> & _).
  destruct (schedule st); [done|]. cbn. by intros [_ ?]%Forall_cons.
Qed.

Lemma awaits_absent c n st :
  never_connects c (schedule st) ->
  c ∉ connected_websockets st ->
  (c ∉ connected_websockets (Nat.iter n await st))
  /\ never_connects c (schedule (Nat.iter n await st)).
Proof.
  intros Hn Hc. induction n as [|n IH]; [done|].
  rewrite Nat.iter_succ. destruct IH. by apply await_absent.
Qed.

Lemma awaits_never_connects c n st :
  never_connects c (schedule st) ->
  never_connects c (schedule (Nat.iter n await st)).
Proof.
  intros Hn. induction n as [|n IH]; [done|].
  rewrite Nat.iter_succ. by apply await_never_connects.
Qed.

(** A connection whose send failed is out of the registry when the
    turn ends, whatever the other tasks did meanwhile. *)
Lemma after_dispatch_drops_failed ev st c :
  c ∈ connected_websockets st ->
  send_raises (length (broadcasts st)) c = true ->
  c ∉ connected_websockets (after_dispatch ev st).
Proof.
  intros Hc Hf. unfold after_dispatch. cbn.
  intros [_ Hnot]%elem_of_difference. apply Hnot.
  apply elem_of_list_to_set, list_elem_of_filter.
  split; [done | by apply elem_of_elements].
Qed.

(** The facts about one connection that a run keeps. *)
Definition gone_for_good (c : websocket) (st : state) : Prop :=
  never_connects c (schedule st)
  /\ ((exists b, b ∈ broadcasts st /\ failed_in c b) ->
      c ∉ connected_websockets st)
  /\ (forall i j bi bj,
        broadcasts st !! i = Some bi -> broadcasts st !! j = Some bj ->
        i < j -> failed_in c bi -> ~ attempted_in c bj).

Lemma await_gone_for_good c st :
  gone_for_good c st -> gone_for_good c (await st).
Proof.
  intros (Hn & Hout & Hlater). split; [by apply await_never_connects|].
  destruct (await_fields st) as (Eb & _). rewrite Eb.
  split; [|done]. intros Hf. by apply await_absent, Hout.
Qed.

Lemma after_dispatch_gone_for_good c ev rest st :
  gone_for_good c st ->
  gone_for_good c (after_dispatch ev (with_queue rest st)).
Proof.
  intros (Hn & Hout & Hlater).
  destruct (after_dispatch_fields ev rest st) as (Eb & Es & _).
  set (k := length (broadcasts st)) in *.
  set (snapshot := elements (connected_websockets st)) in *.
  split; [|split].
  - unfold after_dispatch. cbn [schedule].
    by apply awaits_never_connects.
  - rewrite Eb. intros (b & Hb & Hfail).
    apply elem_of_app in Hb as [Hb|Hb].
    + (* failed in an earlier broadcast *)
      assert (c ∉ connected_websockets st) as Hc by eauto.
      unfold after_dispatch. cbn [connected_websockets].
      intros [Hin _]%elem_of_difference. revert Hin.
      by apply (awaits_absent c _ (with_queue rest st)).
    + (* failed in this broadcast *)
      apply list_elem_of_singleton in Hb as ->.
      apply failed_outcome in Hfail as [Hin Hf].
      apply (after_dispatch_drops_failed ev (with_queue rest st));
        [|exact Hf].
      unfold snapshot in Hin. by apply elem_of_elements in Hin.
  - rewrite Eb. intros i j bi bj Hi Hj Hij Hfail Hatt.
    assert (i < length (broadcasts st)) as Hi'.
    { apply lookup_lt_Some in Hj. rewrite length_app in Hj.
      cbn in Hj. lia. }
    rewrite lookup_app_l in Hi by done.
    destruct (decide (j < length (broadcasts st))) as [Hj'|Hj'].
    { rewrite lookup_app_l in Hj by done.
      exact (Hlater i j bi bj Hi Hj Hij Hfail Hatt). }
    rewrite lookup_app_r in Hj by lia.
    apply list_lookup_singleton_Some in Hj as [_ <-].
    unfold attempted_in in Hatt. cbn [b_attempts] in Hatt.
    rewrite outcome_fst in Hatt. apply elem_of_elements in Hatt.
    revert Hatt. apply Hout. exists bi. split; [|done].
    by eapply list_elem_of_lookup_2.
Qed.

Lemma run_gone_for_good c fuel st :
  gone_for_good c st -> gone_for_good c (run fuel st).
Proof.
  revert st. induction fuel as [|fuel IH]; intros st H; [done|].
  cbn [run]. destruct (notification_queue st) as [|ev rest].
  - by apply IH, await_gone_for_good.
  - by apply IH, after_dispatch_gone_for_good.
Qed.

(** *** Sync runs and the dispatcher *)















(** *** Where a broadcast of the history was made *)

(** A turn keeps the broadcasts made before it. *)
Lemma run_keeps_broadcasts fuel st i b :
  broadcasts st !! i = Some b -> broadcasts (run fuel st) !! i = Some b.
Proof.
  revert st. induction fuel as [|fuel IH]; intros st Hb; [done|].
  cbn [run]. destruct (notification_queue st) as [|ev rest].
  - apply IH. by destruct (await_fields st) as (-> & _).
  - apply IH. destruct (after_dispatch_fields ev rest st) as (-> & _).
    by apply lookup_app_l_Some.
Qed.

(** Every broadcast that a run adds to the history was made in one of
    its turns, for the event at the head of the queue, with one send to
    each connection that the registry held when the turn began. *)
Lemma run_broadcast_origin fuel st i b :
  length (broadcasts st) <= i ->
  broadcasts (run fuel st) !! i = Some b ->
  exists n ev rest,
    n < fuel
    /\ notification_queue (run n st) = ev :: rest
    /\ length (broadcasts (run n st)) = i
    /\ b = mkBroadcast (message_of ev)
             (outcome send_raises i
                <$> elements (connected_websockets (run n st))).
Proof.
  revert st. induction fuel as [|fuel IH]; intros st Hi Hb.
  { cbn in Hb. apply lookup_lt_Some in Hb. lia. }
  cbn [run] in Hb. destruct (notification_queue st) as [|ev rest] eqn:Hq.
  - destruct (IH (await st)) as (n & ev & rest & Hn & Hq' & Hlen & ->);
      [by destruct (await_fields st) as (-> & _) | done |].
    exists (S n), ev, rest. cbn [run]. rewrite Hq.
    split; [lia | done].
  - destruct (after_dispatch_fields ev rest st) as (Eb & _).
    destruct (decide (i = length (broadcasts st))) as [->|Hne].
    + exists 0, ev, rest. split; [lia|]. split; [done|]. split; [done|].
      cbn [run].
      assert (broadcasts (after_dispatch ev (with_queue rest st))
                !! length (broadcasts st)
              = Some (mkBroadcast (message_of ev)
                        (outcome send_raises (length (broadcasts st))
                           <$> elements (connected_websockets st)))) as Hnew.
      { rewrite Eb, lookup_app_r by lia. by rewrite Nat.sub_diag. }
      apply (run_keeps_broadcasts fuel) in Hnew. congruence.
    + destruct (IH (after_dispatch ev (with_queue rest st)))
        as (n & ev' & rest' & Hn & Hq' & Hlen & ->); [|done|].
      { rewrite Eb, length_app. cbn. lia. }
      exists (S n), ev', rest'. cbn [run]. rewrite Hq.
      split; [lia | done].
Qed.
End Loop.

(** C3. From startup with some events queued, after any number of
    turns the broadcasts made are, in the order of receipt, the
    messages of the events received, the remaining ones being still
    on the queue; every broadcast of the history was made in a turn
    that took its event from the head of the queue and sent the
    message [{type: "logs_changed", channel, payload}] of that event,
    once, to each connection registered when the turn began; and once
    the turns cover the backlog, the N events that were queued or have
    arrived have been broadcast in exactly N broadcasts, each with the
    message of its event. *)
Theorem one_broadcast_per_event_in_order
    (collate : relation string) `{!RelDecision collate}
    (rome_utcoffset : Z -> Z) (send_raises : nat -> websocket -> bool)
    (conns : gset websocket) (queue : list event)
    (sch : list (list env_action)) :
  (forall fuel, exists st',
      notification_dispatcher collate rome_utcoffset send_raises fuel
        (startup conns queue sch) = Py.Ok st'
      /\ (b_message <$> broadcasts st')
         ++ ((fun ev => mkMessage "logs_changed" (ev_channel ev)
                                  (ev_payload ev))
               <$> notification_queue st')
         = (fun ev => mkMessage "logs_changed" (ev_channel ev)
                                (ev_payload ev)) <$> received st'
      /\ received st' ++ notified (schedule st') = queue ++ notified sch
      /\ forall i b,
           broadcasts st' !! i = Some b ->
           exists n st ev rest,
             n < fuel
             /\ notification_dispatcher collate rome_utcoffset send_raises
                  n (startup conns queue sch) = Py.Ok st
             /\ length (broadcasts st) = i
             /\ notification_queue st = ev :: rest
             /\ received st' !! i = Some ev
             /\ b_message b
                = mkMessage "logs_changed" (ev_channel ev) (ev_payload ev)
             /\ b_attempts b
                = (fun c => (c, negb (send_raises i c)))
                    <$> elements (connected_websockets st))
  /\ (forall extra, exists st',
        notification_dispatcher collate rome_utcoffset send_raises
          (length queue + length (notified sch) + length sch + extra)
          (startup conns queue sch) = Py.Ok st'
        /\ notification_queue st' = []
        /\ b_message <$> broadcasts st'
           = (fun ev => mkMessage "logs_changed" (ev_channel ev)
                                  (ev_payload ev))
               <$> (queue ++ notified sch)
        /\ length (broadcasts st')
           = length queue + length (notified sch)).
Proof.
  assert (in_order (startup conns queue sch)) as Hstart.
  { unfold in_order, startup. done. }
  split.
  - intros fuel. eexists. split; [apply dispatcher_run|].
    pose proof (run_in_order collate rome_utcoffset send_raises fuel _
                  Hstart) as Hord.
    split; [exact Hord|]. split.
    { apply (run_all_events collate rome_utcoffset send_raises fuel
               (startup conns queue sch)). }
    intros i b Hb.
    destruct (run_broadcast_origin collate rome_utcoffset send_raises
                fuel (startup conns queue sch) i b)
      as (n & ev & rest & Hn & Hq & Hlen & ->); [cbn; lia | done |].
    exists n, (run collate rome_utcoffset send_raises n
                 (startup conns queue sch)), ev, rest.
    split; [done|].
    split; [apply dispatcher_run|]. split; [done|]. split; [done|].
    split; [|done].
    (* the i-th broadcast carries the message of the i-th event *)
    unfold in_order in Hord.
    assert (((b_message <$> broadcasts
                (run collate rome_utcoffset send_raises fuel
                   (startup conns queue sch)))
             ++ (message_of <$> notification_queue
                   (run collate rome_utcoffset send_raises fuel
                      (startup conns queue sch)))) !! i
            = Some (message_of ev)) as Hi.
    { rewrite lookup_app_l
        by (rewrite length_fmap; by apply lookup_lt_Some in Hb).
      by rewrite list_lookup_fmap, Hb. }
    rewrite Hord, list_lookup_fmap in Hi.
    destruct (received _ !! i) as [ev'|]; [|done].
    unfold message_of in Hi. destruct ev, ev'. cbn in Hi. congruence.
  - intros extra. eexists. split; [apply dispatcher_run|].
    set (fuel := length queue + length (notified sch) + length sch + extra).
    destruct (run_drains collate rome_utcoffset send_raises fuel
                (startup conns queue sch)) as [Hq Hs].
    { unfold backlog, startup, fuel. cbn [notification_queue schedule]. lia. }
    pose proof (run_in_order collate rome_utcoffset send_raises fuel _
                  Hstart) as Hord.
    pose proof (run_all_events collate rome_utcoffset send_raises fuel
                  (startup conns queue sch)) as Hall.
    unfold in_order, all_events in *.
    rewrite Hq, fmap_nil, app_nil_r in Hord.
    rewrite Hs in Hall. unfold startup in Hall at 2 3.
    cbn [received schedule] in Hall.
    change (notified []) with (@nil event) in Hall.
    rewrite app_nil_r in Hall. unfold message_of in Hord.
    split; [done|]. rewrite Hall in Hord.
    split; [exact Hord|].
    apply (f_equal length) in Hord.
    by rewrite !length_fmap, length_app in Hord.
Qed.

(** C7. A broadcast walks a copy of the registry made when it begins:
    whatever connections the other tasks add or remove while the
    sends are awaited, the broadcast does not raise and sends once to
    each connection of the copy and to no other; so the dispatcher
    never ends with an exception. *)
Theorem broadcast_walks_snapshot
    (collate : relation string) `{!RelDecision collate}
    (rome_utcoffset : Z -> Z) (send_raises : nat -> websocket -> bool)
    (ev : event) (st : state) :
  (exists st' b,
      dispatch collate rome_utcoffset send_raises ev st = Py.Ok st'
      /\ broadcasts st' = broadcasts st ++ [b]
      /\ b_message b
         = mkMessage "logs_changed" (ev_channel ev) (ev_payload ev)
      /\ (b_attempts b).*1 = elements (connected_websockets st)
      /\ NoDup (b_attempts b).*1
      /\ forall c, c ∈ (b_attempts b).*1 <-> c ∈ connected_websockets st)
  /\ forall fuel, exists st',
       notification_dispatcher collate rome_utcoffset send_raises fuel st
       = Py.Ok st'.
Proof.
  split.
  - eexists _, _. split; [apply dispatch_run|]. split.
    { unfold after_dispatch. cbv zeta. cbn [broadcasts].
      destruct (awaits_fields collate rome_utcoffset
                  (length (elements (connected_websockets st))) st)
        as (-> & _). reflexivity. }
    cbn [b_message b_attempts]. rewrite outcome_fst.
    split; [done|]. split; [done|].
    split; [apply NoDup_elements|]. intros c. apply elem_of_elements.
  - intros fuel. eexists. apply dispatcher_run.
Qed.

(** The iterator of the set itself would raise when the set changes
    size between two steps. *)
Example walking_the_live_set_raises :
  for_each byte_order rome_since_1996 (fun _ _ => false) (Some 1) [1] 0
    (mkVars [] [] (startup {[1]} [] [[Connect 2]]))
  = Py.Raise (Py.RuntimeError "Set changed size during iteration").
Proof. vm_compute. reflexivity. Qed.

(** C2. In a broadcast every connection of the snapshot is sent to,
    whether or not the sends before it raised, and a connection whose
    send raised is out of the registry when the broadcast ends; in a
    run from startup a connection that failed in one broadcast, and
    that no handler registers again, is in the registry no more and
    is in none of the later broadcasts; with connections 1, 2 and 3
    of which only 2 fails, the registry after the broadcast is
    {1, 3}. *)
Theorem failed_sends_are_dropped
    (collate : relation string) `{!RelDecision collate}
    (rome_utcoffset : Z -> Z) (send_raises : nat -> websocket -> bool) :
  (forall ev st, exists st' b,
      dispatch collate rome_utcoffset send_raises ev st = Py.Ok st'
      /\ broadcasts st' = broadcasts st ++ [b]
      /\ b_attempts b
         = (fun c => (c, negb (send_raises (length (broadcasts st)) c)))
             <$> elements (connected_websockets st)
      /\ forall c, c ∈ connected_websockets st ->
                   send_raises (length (broadcasts st)) c = true ->
                   c ∉ connected_websockets st')
  /\ (forall conns queue sch fuel c,
        Forall (Forall (fun a => a <> Connect c)) sch ->
        exists st',
          notification_dispatcher collate rome_utcoffset send_raises fuel
            (startup conns queue sch) = Py.Ok st'
          /\ forall i bi,
               broadcasts st' !! i = Some bi ->
               (c, false) ∈ b_attempts bi ->
               (c ∉ connected_websockets st')
               /\ forall j bj,
                    i < j -> broadcasts st' !! j = Some bj ->
                    c ∉ (b_attempts bj).*1)
  /\ (forall ev queue,
        send_raises 0 1 = false -> send_raises 0 2 = true ->
        send_raises 0 3 = false ->
        exists st',
          dispatch collate rome_utcoffset send_raises ev
            (startup {[1; 2; 3]} queue []) = Py.Ok st'
          /\ connected_websockets st' = {[1; 3]}).
Proof.
  split; [|split].
  - intros ev st. eexists _, _. split; [apply dispatch_run|].
    split; [|split].
    + unfold after_dispatch. cbv zeta. cbn [broadcasts].
      destruct (awaits_fields collate rome_utcoffset
                  (length (elements (connected_websockets st))) st)
        as (-> & _). reflexivity.
    + reflexivity.
    + intros c. apply after_dispatch_drops_failed.
  - intros conns queue sch fuel c Hsch. eexists.
    split; [apply dispatcher_run|].
    destruct (run_gone_for_good collate rome_utcoffset send_raises c fuel
                (startup conns queue sch)) as (_ & Hout & Hlater).
    { split; [exact Hsch|]. split.
      - intros (b & Hb & _). by apply elem_of_nil in Hb.
      - intros i j bi bj Hi. done. }
    intros i bi Hi Hfail. split.
    + apply Hout. exists bi. split; [|done].
      by eapply list_elem_of_lookup_2.
    + intros j bj Hij Hj. exact (Hlater i j bi bj Hi Hj Hij Hfail).
  - intros ev queue H1 H2 H3. eexists. split; [apply dispatch_run|].
    unfold after_dispatch, startup. cbv zeta.
    cbn [connected_websockets broadcasts length].
    set (n := length _). clearbody n.
    assert (forall s : state,
               schedule s = [] ->
               connected_websockets
                 (Nat.iter n (await collate rome_utcoffset) s)
               = connected_websockets s) as Hquiet.
    { intros s Hs. induction n as [|n IH]; [done|].
      rewrite Nat.iter_succ_r. unfold await at 2. by rewrite Hs. }
    rewrite Hquiet by done. cbn [connected_websockets].
    apply set_eq. intros c.
    rewrite elem_of_difference, elem_of_list_to_set, list_elem_of_filter.
    rewrite elem_of_elements, !elem_of_union, !elem_of_singleton. split.
    + intros [[[-> | ->] | ->] Hn]; [by left | | by right].
      destruct Hn. split; [done | left; by right].
    + intros [-> | ->]; (split; [tauto|]); intros [Hf _]; congruence.
Qed.

Definition fails_second (k : nat) (c : websocket) : bool :=
  bool_decide (c = 2).

Definition two_events : list event :=
  [mkEvent "log_changes" "INSERT"; mkEvent "log_changes" "DELETE"].

(** While the first broadcast is under way a new client connects,
    then a third event arrives, then client 1 goes away. *)
Definition busy_schedule : list (list env_action) :=
  [[Connect 7]; [Notify "log_changes" "UPDATE"]; [Disconnect 1]].

Lemma failed_sends_are_dropped_witness :
  (exists st',
      notification_dispatcher byte_order rome_since_1996 fails_second 5
        (startup {[1; 2; 3]} two_events busy_schedule) = Py.Ok st'
      /\ forall i bi,
           broadcasts st' !! i = Some bi ->
           (2, false) ∈ b_attempts bi ->
           (2 ∉ connected_websockets st')
           /\ forall j bj,
                i < j -> broadcasts st' !! j = Some bj ->
                2 ∉ (b_attempts bj).*1)
  /\ exists st',
       dispatch byte_order rome_since_1996 fails_second
         (mkEvent "log_changes" "INSERT") (startup {[1; 2; 3]} [] [])
       = Py.Ok st'
       /\ connected_websockets st' = {[1; 3]}.
Proof.
  destruct (failed_sends_are_dropped byte_order rome_since_1996
              fails_second) as (_ & Hrun & Hscenario).
  split.
  - apply Hrun. unfold busy_schedule.
    repeat (constructor; try discriminate).
  - apply Hscenario; reflexivity.
Defined.

(** The same run, broadcast by broadcast: client 2 fails in the first
    and is dropped, client 7 is registered meanwhile and client 1 goes
    away before the second. *)
Example busy_run_broadcasts :
  match notification_dispatcher byte_order rome_since_1996 fails_second 5
          (startup {[1; 2; 3]} two_events busy_schedule) with
  | Py.Ok st =>
      broadcasts st
      = [mkBroadcast (mkMessage "logs_changed" "log_changes" "INSERT")
           [(2, false); (3, true); (1, true)];
         mkBroadcast (mkMessage "logs_changed" "log_changes" "DELETE")
           [(7, true); (3, true)];
         mkBroadcast (mkMessage "logs_changed" "log_changes" "UPDATE")
           [(7, true); (3, true)]]
  | Py.Raise _ => False
  end.
Proof. vm_compute. reflexivity. Qed.


End DispatcherSpec.

(** * Further properties *)

(** ** The check digit *)

Module EanCheckDigit.
Import Ean EanSpec.

(** X1. The check digit tells single-digit errors apart: replacing any
    one of the twelve digits by a different digit changes the check
    digit computed by [genera_ean13]. *)
Theorem checksum_detects_one_wrong_digit (ds : list Z) (i : nat) (d d' : Z) :
  length ds = 12%nat -> Forall is_digit ds -> is_digit d' ->
  ds !! i = Some d -> d' <> d ->
  checksum_of (<[i := d']> ds) <> checksum_of ds.
Proof.
  intros Hlen Hall Hd' Hi Hne.
  do 12 (destruct ds as [|? ds]; [discriminate Hlen|]).
  destruct ds; [|discriminate Hlen]. clear Hlen.
  repeat match goal with
         | H : Forall _ (_ :: _) |- _ => apply Forall_cons in H as [? H]
         end.
  clear Hall. unfold is_digit in *.
  do 12 (destruct i as [|i];
         [injection Hi as ->; unfold checksum_of, Py.sum, Py.slice_from_step2;
          cbn [drop Py.stride2 foldl list_insert insert];
          Z.div_mod_to_equations; lia|]).
  discriminate Hi.
Qed.

Lemma checksum_detects_one_wrong_digit_witness :
  checksum_of (<[3%nat := 7]> [2; 7; 4; 3; 6; 5; 2; 3; 6; 9; 2; 5])
  <> checksum_of [2; 7; 4; 3; 6; 5; 2; 3; 6; 9; 2; 5].
Proof.
  apply (checksum_detects_one_wrong_digit _ 3 3 7);
    [reflexivity | | unfold is_digit; lia | reflexivity | lia].
  repeat constructor; unfold is_digit; lia.
Defined.

(** The digits behind the string that [genera_ean13] returns. *)
Lemma genera_ean13_digits {rng : Type}
    (randint : Z -> Z -> rng -> Z * rng) (g : rng) :
  (forall a b g', a <= b -> a <= (randint a b g').1 <= b) ->
  exists ds, (genera_ean13 randint g).1 = ean_string ds
             /\ length ds = 13%nat /\ Forall is_digit ds.
Proof.
  intros Hrange. unfold genera_ean13.
  destruct (draw_digits_spec randint Hrange 12 g) as [Hlen Hall].
  destruct (draw_digits randint 12 g) as [ds g']. simpl in Hlen, Hall.
  exists (ds ++ [checksum_of ds]).
  assert (Forall is_digit (ds ++ [checksum_of ds])) as Hall'.
  { apply Forall_app. split; [exact Hall|].
    constructor; [apply checksum_is_digit | constructor]. }
  cbn [fst]. rewrite (join_digits _ Hall').
  split; [done|]. split; [|done]. rewrite length_app, Hlen. done.
Qed.

End EanCheckDigit.

(** ** The rows of the derived view *)

Module ViewRows.
Import Sql SqlSpec.

(** The rows of the answer, most recent first. *)
Definition recent_first (r1 r2 : inbound_row) : Prop :=
  time_desc (r_event_time r1) (r_event_time r2).

Lemma at_most_one_NoDup {A K} `{EqDecision K} (f : A -> K) (l : list A) :
  (forall k, (length (filter (fun x => f x = k) l) <= 1)%nat) ->
  NoDup (f <$> l).
Proof.
  induction l as [|x l IH]; intros H; [constructor|].
  rewrite fmap_cons. constructor.
  - intros (y & Ey & Hy)%list_elem_of_fmap.
    specialize (H (f x)). rewrite filter_cons, decide_True in H by done.
    assert (y ∈ filter (fun z => f z = f x) l) as Hin
      by (by apply list_elem_of_filter).
    destruct (filter _ l); [by apply elem_of_nil in Hin | simpl in H; lia].
  - apply IH. intros k. specialize (H k). rewrite filter_cons in H.
    case_decide; simpl in H; lia.
Qed.

Lemma distinct_on_elem {A K} `{EqDecision K} (key : A -> K)
    (prev : option K) (rows : list A) (x : A) :
  x ∈ distinct_on key prev rows -> x ∈ rows.
Proof.
  revert prev. induction rows as [|r rows IH]; intros prev; simpl; [done|].
  destruct (decide (prev = Some (key r))).
  - intros Hx. right. by eapply IH.
  - intros [->|Hx]%elem_of_cons; [left | right; by eapply IH].
Qed.

(** Where a row of the answer comes from. *)
Lemma view_row_origin (collate : relation string) `{!RelDecision collate}
    (db : database) (r : inbound_row) :
  r ∈ LAST_INBOUND_SQL collate db ->
  exists u l, u ∈ users db /\ l ∈ log db /\ barcode u = log_barcode l
              /\ log_direction l = CHECKIN /\ r = select_row (u, l).
Proof.
  unfold LAST_INBOUND_SQL. cbv zeta.
  intros ([u l] & -> & Hin)%list_elem_of_fmap.
  rewrite merge_sort_Permutation in Hin.
  apply list_elem_of_filter in Hin as [Hdir Hin].
  apply list_elem_of_bind in Hin as (l1 & Hin & Hl1).
  apply list_elem_of_bind in Hin as (u1 & Hin & Hu1).
  case_decide; [|by apply elem_of_nil in Hin].
  apply list_elem_of_singleton in Hin. injection Hin as -> ->.
  unfold latest_per_barcode in Hl1. apply distinct_on_elem in Hl1.
  rewrite merge_sort_Permutation in Hl1. by exists u1, l1.
Qed.

Section Answer.
Context (collate : relation string) `{!RelDecision collate}
        `{!TotalOrder collate}.

(** The rows of one barcode, from its most recent event. *)
Lemma rows_of_latest_event (db : database) (u : user_row) (l : log_row) :
  NoDup (barcode <$> users db) ->
  u ∈ users db -> l ∈ log db -> barcode u = log_barcode l ->
  (forall l', l' ∈ log db -> log_barcode l' = log_barcode l ->
              time_desc (event_time l) (event_time l')) ->
  (forall l', l' ∈ log db -> log_barcode l' = log_barcode l ->
              time_desc (event_time l') (event_time l) ->
              log_direction l' = log_direction l) ->
  filter (fun r => r_barcode r = log_barcode l) (LAST_INBOUND_SQL collate db)
  = match log_direction l with
    | CHECKIN =>
        [mkInbound (log_barcode l) (nome u) (cognome u) (event_time l)]
    | CHECKOUT => []
    end.
Proof.
  intros Hkey Hu Hl Hb Hlatest Hties.
  destruct (latest_per_barcode_row collate (log db) (log_barcode l))
    as (l0 & Hsel & Hl0 & Hb0 & Hmax); [by exists l|].
  assert (event_time l0 = event_time l) as Et.
  { apply time_desc_antisym; [by apply Hmax | by apply Hlatest]. }
  assert (log_direction l0 = log_direction l) as Ed.
  { apply Hties; [done | done | rewrite Et; reflexivity]. }
  unfold LAST_INBOUND_SQL. cbv zeta.
  rewrite (filter_fmap select_row). cbn [select_row r_barcode].
  set (kept := filter is_checkin _).
  assert (filter (fun ul : user_row * log_row => barcode ul.1 = log_barcode l)
            (merge_sort by_recent kept)
          ≡ₚ filter is_checkin [(u, l0)]) as Hperm.
  { rewrite (merge_sort_Permutation by_recent kept). unfold kept.
    rewrite filter_comm.
    rewrite join_users_filter, Hsel, join_users_eq, bind_cons.
    rewrite (matches_unique (users db) u l0) by congruence.
    reflexivity. }
  rewrite filter_cons in Hperm.
  destruct (log_direction l) eqn:Edir.
  - rewrite decide_True in Hperm by (unfold is_checkin; cbn; congruence).
    apply Permutation_singleton_r in Hperm. rewrite Hperm.
    cbn. unfold select_row. cbn [fst snd]. rewrite Hb, Et. reflexivity.
  - rewrite decide_False in Hperm by (unfold is_checkin; cbn; congruence).
    apply Permutation_nil_r in Hperm. by rewrite Hperm.
Qed.

Lemma matches_at_most_one us l :
  NoDup (barcode <$> us) -> (length (us ≫= matches l) <= 1)%nat.
Proof.
  intros Hnd.
  destruct (decide (log_barcode l ∈ barcode <$> us)) as [Hin|Hout].
  - apply list_elem_of_fmap in Hin as (u0 & E & Hu0).
    rewrite (matches_unique us u0 l) by done. simpl. lia.
  - replace (us ≫= matches l) with (@nil (user_row * log_row)); [simpl; lia|].
    symmetry. clear Hnd. induction us as [|u us IH]; [done|].
    rewrite bind_cons. unfold matches at 1. rewrite decide_False.
    + apply IH. intros Hin. apply Hout. rewrite fmap_cons. by right.
    + intros E. apply Hout. rewrite fmap_cons, <- E. left.
Qed.

Lemma latest_per_barcode_at_most_one (rows : list log_row) b :
  (length (filter (fun l => log_barcode l = b)
             (latest_per_barcode collate rows)) <= 1)%nat.
Proof.
  unfold latest_per_barcode.
  rewrite (distinct_on_sorted collate b None)
    by (try apply StronglySorted_merge_sort; try apply _; intros k [=]).
  rewrite decide_False by done.
  destruct (filter _ _) as [|? ?]; simpl; lia.
Qed.

Lemma latest_per_barcode_elem (rows : list log_row) l :
  l ∈ latest_per_barcode collate rows ->
  l ∈ rows
  /\ forall l', l' ∈ rows -> log_barcode l' = log_barcode l ->
                time_desc (event_time l) (event_time l').
Proof.
  intros Hl.
  assert (l ∈ filter (fun l' => log_barcode l' = log_barcode l)
                (latest_per_barcode collate rows)) as Hf
    by (by apply list_elem_of_filter).
  unfold latest_per_barcode in Hf.
  rewrite (distinct_on_sorted collate _ None) in Hf
    by (try apply StronglySorted_merge_sort; try apply _; intros k [=]).
  rewrite decide_False in Hf by done.
  assert (exists l1, l1 ∈ rows /\ log_barcode l1 = log_barcode l) as Hex.
  { destruct (filter _ _) as [|l1 ?] eqn:Ef; [by apply elem_of_nil in Hf|].
    assert (l1 ∈ filter (fun l' => log_barcode l' = log_barcode l)
                   (merge_sort (by_barcode_then_recent collate) rows)) as H1
      by (rewrite Ef; left).
    apply list_elem_of_filter in H1 as [E H1].
    rewrite merge_sort_Permutation in H1. by exists l1. }
  destruct (latest_per_barcode_row collate rows _ Hex)
    as (l0 & Hsel & Hl0 & Hb0 & Hmax).
  assert (l ∈ [l0]) as ->%list_elem_of_singleton.
  { rewrite <- Hsel. by apply list_elem_of_filter. }
  split; [done|]. intros l' Hl' E. by apply Hmax.
Qed.

Lemma answer_of_barcode db b :
  filter (fun r => r_barcode r = b) (LAST_INBOUND_SQL collate db)
  ≡ₚ select_row
       <$> filter is_checkin
             (join_users (users db)
                (filter (fun l => log_barcode l = b)
                   (latest_per_barcode collate (log db)))).
Proof.
  unfold LAST_INBOUND_SQL. cbv zeta.
  rewrite (filter_fmap select_row). cbn [select_row r_barcode].
  apply fmap_Permutation.
  rewrite (merge_sort_Permutation by_recent).
  by rewrite filter_comm, join_users_filter.
Qed.

Lemma answer_elem db r :
  r ∈ LAST_INBOUND_SQL collate db ->
  exists u l, r = select_row (u, l) /\ u ∈ users db
              /\ l ∈ latest_per_barcode collate (log db)
              /\ barcode u = log_barcode l /\ log_direction l = CHECKIN.
Proof.
  unfold LAST_INBOUND_SQL. cbv zeta.
  intros ([u l] & -> & Hin)%list_elem_of_fmap.
  rewrite merge_sort_Permutation in Hin.
  apply list_elem_of_filter in Hin as [Hdir Hin].
  rewrite join_users_eq in Hin.
  apply list_elem_of_bind in Hin as (l1 & Hin & Hl1).
  apply list_elem_of_bind in Hin as (u1 & Hin & Hu1).
  unfold matches in Hin. case_decide; [|by apply elem_of_nil in Hin].
  apply list_elem_of_singleton in Hin. injection Hin as -> ->.
  by exists u1, l1.
Qed.
End Answer.

(** X2. The answer of LAST_INBOUND_SQL is ordered by event time, most
    recent first, with the rows without a time at the head. *)
Theorem last_inbound_most_recent_first
    (collate : relation string) `{!RelDecision collate} (db : database) :
  StronglySorted recent_first (LAST_INBOUND_SQL collate db).
Proof.
  unfold LAST_INBOUND_SQL. cbv zeta.
  apply (StronglySorted_fmap select_row by_recent); [by intros [??] [??]|].
  apply StronglySorted_merge_sort; apply _.
Qed.

(** X3. The answer never lists anyone who is not checked in: each of its
    rows carries the names of a user of the table and the time of a
    CHECKIN event of that user's barcode, and no event of the barcode
    is more recent than it. *)
Theorem last_inbound_rows_are_latest_checkins
    (collate : relation string) `{!RelDecision collate}
    (db : database) (r : inbound_row) :
  TotalOrder collate ->
  r ∈ LAST_INBOUND_SQL collate db ->
  exists u l,
    u ∈ users db /\ l ∈ log db /\ barcode u = log_barcode l
    /\ log_direction l = CHECKIN
    /\ r = mkInbound (barcode u) (nome u) (cognome u) (event_time l)
    /\ forall l', l' ∈ log db -> log_barcode l' = log_barcode l ->
                  time_desc (event_time l) (event_time l').
Proof.
  intros Hord Hr.
  destruct (answer_elem collate db r Hr) as (u & l & -> & Hu & Hl & Hb & Hd).
  destruct (latest_per_barcode_elem collate _ _ Hl) as [Hin Hmax].
  by exists u, l.
Qed.

Lemma last_inbound_rows_are_latest_checkins_witness :
  exists u l,
    u ∈ users sample_db /\ l ∈ log sample_db /\ barcode u = log_barcode l
    /\ log_direction l = CHECKIN
    /\ mkInbound "8009876543210" "Bruno" "Bianchi" (Some 2500)
       = mkInbound (barcode u) (nome u) (cognome u) (event_time l)
    /\ forall l', l' ∈ log sample_db -> log_barcode l' = log_barcode l ->
                  time_desc (event_time l) (event_time l').
Proof.
  apply (last_inbound_rows_are_latest_checkins byte_order sample_db).
  - apply byte_order_total_order.
  - apply (bool_decide_unpack _). vm_compute. reflexivity.
Defined.

(** X4. With [barcode] the key of [users], no barcode has two rows in
    the answer. *)
Theorem last_inbound_one_row_per_barcode
    (collate : relation string) `{!RelDecision collate} (db : database) :
  TotalOrder collate ->
  NoDup (barcode <$> users db) ->
  NoDup (r_barcode <$> LAST_INBOUND_SQL collate db).
Proof.
  intros Hord Hkey. apply at_most_one_NoDup. intros b.
  rewrite (answer_of_barcode collate db b), length_fmap.
  etrans; [apply length_filter|].
  pose proof (latest_per_barcode_at_most_one collate (log db) b) as H1.
  destruct (filter _ (latest_per_barcode collate (log db))) as [|l0 [|??]];
    [simpl; lia | | simpl in H1; lia].
  rewrite join_users_eq, bind_cons. change ([] ≫= _) with (@nil (user_row * log_row)).
  rewrite app_nil_r.
  by apply matches_at_most_one.
Qed.

Lemma last_inbound_one_row_per_barcode_witness :
  NoDup (r_barcode <$> LAST_INBOUND_SQL byte_order sample_db).
Proof.
  apply (last_inbound_one_row_per_barcode byte_order sample_db).
  - apply byte_order_total_order.
  - apply (bool_decide_unpack _). vm_compute. reflexivity.
Defined.

End ViewRows.

(** ** Sync runs and the sheet *)

Module SyncRuns.
Import Datetime Sql Sheet Sync DatetimeSpec SqlSpec SyncSpec.

Lemma mapM_length {A B} (f : A -> Py.result B) (l : list A) (bs : list B) :
  mapM f l = Py.Ok bs -> length bs = length l.
Proof.
  revert bs. induction l as [|x l IH]; intros bs Hm; simpl in Hm.
  { by injection Hm as <-. }
  destruct (f x) as [b|]; [|done].
  destruct (mapM f l) as [bs'|]; [|done].
  injection Hm as <-. simpl. by rewrite (IH bs').
Qed.

Lemma mapM_total {A B} (f : A -> Py.result B) (l : list A) :
  Forall (fun a => exists b, f a = Py.Ok b) l ->
  exists bs, mapM f l = Py.Ok bs.
Proof.
  induction 1 as [|x l [b Hb] _ [bs IH]]; simpl; [by eexists|].
  rewrite Hb, IH. by eexists.
Qed.

(** The first microsecond of a year, counted from the epoch. *)
Definition year_start_us (y : Z) : Z :=
  (_days_before_year y + 1 - _EPOCHORDINAL) * 86400 * 1000000.

Lemma year_between y1 y2 dt :
  valid_fields dt ->
  _days_before_year y1 < toordinal dt <= _days_before_year (y2 + 1) ->
  y1 <= year dt <= y2.
Proof.
  intros (Hm & Hd & _) Hord.
  pose proof (ymd2ord_bounds (year dt) (month dt) (day dt) Hm Hd) as Hb.
  fold (toordinal dt) in Hb.
  destruct (Z.lt_ge_cases (year dt) y1) as [Hlo|Hlo].
  { pose proof (days_before_year_mono (year dt + 1) y1 ltac:(lia)). lia. }
  destruct (Z.le_gt_cases (year dt) y2) as [Hhi|Hhi]; [lia|].
  pose proof (days_before_year_mono (y2 + 1) (year dt) ltac:(lia)). lia.
Qed.

Lemma timestamptz_decode_spec us :
  year_start_us 1001 <= us < year_start_us 9999 ->
  exists dt, timestamptz_decode us = Py.Ok dt
             /\ valid dt /\ 1001 <= year dt <= 9998.
Proof.
  unfold year_start_us.
  assert (_days_before_year 1001 = 365242) as -> by reflexivity.
  assert (_days_before_year 9999 = 3651694) as -> by reflexivity.
  unfold _EPOCHORDINAL. intros Hus. unfold timestamptz_decode.
  assert (wall_seconds epoch_utc = 719163 * 86400) as Hw by reflexivity.
  destruct (add_seconds_spec epoch_utc (us / 1000000))
    as (dt & -> & Hv & Hwall & Hord & Htz).
  { rewrite Hw. unfold _MAXORDINAL. Z.div_mod_to_equations. lia. }
  eexists. split; [reflexivity|].
  assert (1001 <= year dt <= 9998) as Hy.
  { apply (year_between 1001 9998 dt Hv).
    assert (_days_before_year 1001 = 365242) as -> by reflexivity.
    assert (_days_before_year (9998 + 1) = 3651694) as -> by reflexivity.
    rewrite Hord, Hw. Z.div_mod_to_equations. lia. }
  split; [|exact Hy].
  unfold valid. cbn [year tzinfo_of]. split; [lia|]. split; [exact Hv|].
  rewrite Htz. cbn. lia.
Qed.

Section Pipeline.
Context (collate : relation string) `{!RelDecision collate}.
Variable rome_utcoffset : Z -> Z.


Lemma view_time_in_log db r us :
  r ∈ LAST_INBOUND_SQL collate db -> r_event_time r = Some us ->
  exists l, l ∈ log db /\ event_time l = Some us.
Proof.
  intros (u & l & _ & Hl & _ & _ & ->)%ViewRows.view_row_origin Ht.
  by exists l.
Qed.

Hypothesis rome_bounded : forall t, -86400 < rome_utcoffset t < 86400.

Lemma sheet_row_total r :
  (forall us, r_event_time r = Some us ->
              year_start_us 1001 <= us < year_start_us 9999) ->
  exists t, sheet_row rome_utcoffset r
            = Py.Ok [r_barcode r; r_nome r; r_cognome r; t].
Proof.
  intros Hr. unfold sheet_row.
  destruct (r_event_time r) as [us|]; [|by eexists].
  cbn [decode_event_time].
  destruct (timestamptz_decode_spec us (Hr us eq_refl))
    as (dt & -> & Hv & Hy).
  destruct (to_rome_spec rome_utcoffset rome_bounded dt Hv Hy)
    as (it & Eit & _).
  unfold format_event_time_ita.
  replace (match tzinfo_of dt with Some tz => tz | None => ZoneInfo UTC end)
    with (default (ZoneInfo UTC) (tzinfo_of dt))
    by (destruct (tzinfo_of dt); reflexivity).
  rewrite Eit. by eexists.
Qed.
End Pipeline.

(** X5. A sync run changes no cell outside the region A2:D, however it
    ends: the header row and the columns from E on keep what they
    held. *)
Theorem refresh_leaves_the_rest_of_the_sheet
    (collate : relation string) `{!RelDecision collate}
    (rome_utcoffset : Z -> Z) (f : faults) (w : world) (k : cell) :
  ~ (2 <= k.1 /\ 1 <= k.2 <= 4)%nat ->
  sheet (refresh_sheet_from_db collate rome_utcoffset f w).2 !! k
  = sheet w !! k.
Proof.
  intros Hk.
  assert (~ in_range A2_D k) as Hout.
  { unfold in_range, A2_D. cbn. lia. }
  rewrite refresh_run. destruct (query_fails f); [done|].
  destruct (mapM _ _) as [rows|] eqn:Erows; [|done].
  assert (Forall (fun vals => length vals <= 4)%nat rows) as Hwidth.
  { eapply mapM_Forall; [|exact Erows].
    intros r vals Hr. by rewrite (sheet_row_length _ r vals Hr). }
  rewrite write_full_table_run.
  destruct (negb _ && _); [done|]. cbv zeta.
  destruct (clear_fails f); [done|].
  assert (clear_range A2_D (sheet w) !! k = sheet w !! k) as Hclear.
  { rewrite lookup_clear_range. by rewrite decide_False. }
  destruct rows as [|vals rest]; [done|].
  destruct (update_fails f); cbn [snd sheet]; [done|].
  rewrite lookup_write_block.
  destruct (block_value 2 1 (vals :: rest) k) as [v|] eqn:Ev; [|done].
  destruct Hout. by eapply block_value_in_range.
Qed.

Lemma refresh_leaves_the_rest_of_the_sheet_witness :
  sheet (refresh_sheet_from_db byte_order rome_since_1996 no_faults
           (mkWorld sample_db (sheet stale_world) [] false)).2 !! (3, 5)%nat
  = sheet (mkWorld sample_db (sheet stale_world) [] false) !! (3, 5)%nat.
Proof.
  apply (refresh_leaves_the_rest_of_the_sheet byte_order rome_since_1996
           no_faults (mkWorld sample_db (sheet stale_world) [] false)
           (3, 5)%nat).
  simpl. lia.
Defined.



(** X7. Formatting cannot stop a sync run over a table whose event
    times lie in the years 1001 to 9998 (or are NULL): when the query
    itself succeeds, [fetch_last_inbound_rows] returns one list of four
    cells for every row of the view. *)
Theorem fetch_last_inbound_rows_returns
    (collate : relation string) `{!RelDecision collate}
    (rome_utcoffset : Z -> Z) (f : faults) (w : world) :
  (forall t, -86400 < rome_utcoffset t < 86400) ->
  (forall l us, l ∈ log (db w) -> event_time l = Some us ->
                year_start_us 1001 <= us < year_start_us 9999) ->
  query_fails f = false ->
  exists rows,
    fetch_last_inbound_rows collate rome_utcoffset f w = (Py.Ok rows, w)
    /\ length rows = length (LAST_INBOUND_SQL collate (db w))
    /\ Forall (fun vals => length vals = 4%nat) rows.
Proof.
  intros Hrome Hlog Hq. unfold fetch_last_inbound_rows. rewrite Hq.
  destruct (mapM_total (sheet_row rome_utcoffset)
              (LAST_INBOUND_SQL collate (db w))) as [rows Hrows].
  { apply Forall_forall. intros r Hr.
    destruct (sheet_row_total rome_utcoffset Hrome r) as [t Ht];
      [|by eexists].
    intros us Hus.
    destruct (view_time_in_log collate _ _ _ Hr Hus) as (l & Hl & El).
    by apply (Hlog l). }
  exists rows. rewrite Hrows. split; [done|].
  split; [by apply mapM_length in Hrows|].
  eapply mapM_Forall; [|exact Hrows].
  intros r vals Hr. by apply sheet_row_length in Hr.
Qed.

Lemma fetch_last_inbound_rows_returns_witness :
  exists rows,
    fetch_last_inbound_rows byte_order rome_since_1996 no_faults
      (mkWorld sample_db ∅ [] false)
    = (Py.Ok rows, mkWorld sample_db ∅ [] false)
    /\ length rows = length (LAST_INBOUND_SQL byte_order sample_db)
    /\ Forall (fun vals => length vals = 4%nat) rows.
Proof.
  apply (fetch_last_inbound_rows_returns byte_order rome_since_1996
           no_faults (mkWorld sample_db ∅ [] false)).
  - apply rome_since_1996_bounded.
  - intros l us Hl Hus. cbn in Hl.
    repeat (apply elem_of_cons in Hl as [->|Hl]);
      try (injection Hus as <-; vm_compute; split; [discriminate | reflexivity]).
    by apply elem_of_nil in Hl.
  - reflexivity.
Defined.

End SyncRuns.

(** ** The registry of the dispatcher *)

Module RegistrySpec.
Import Datetime Sql Sheet Sync Dispatcher SqlSpec SyncSpec DispatcherSpec.
Local Open Scope nat_scope.

Definition never_disconnects (c : websocket) (sch : list (list env_action))
  : Prop :=
  Forall (Forall (fun a => a <> Disconnect c)) sch.

(** The connections that the handlers register in a schedule. *)
Definition connected_by (sch : list (list env_action)) : list websocket :=
  sch ≫= (fun acts => acts ≫= (fun a => match a with
                                        | Connect c => [c]
                                        | _ => []
                                        end)).

Section Loop.
Context (collate : relation string) `{!RelDecision collate}.
Variable rome_utcoffset : Z -> Z.
Variable send_raises : nat -> websocket -> bool.

Local Abbreviation apply_action := (apply_action collate rome_utcoffset).
Local Abbreviation await := (await collate rome_utcoffset).
Local Abbreviation after_dispatch :=
  (after_dispatch collate rome_utcoffset send_raises).
Local Abbreviation run := (run collate rome_utcoffset send_raises).

Lemma apply_action_present c a st :
  a <> Disconnect c ->
  c ∈ connected_websockets st ->
  c ∈ connected_websockets (apply_action a st).
Proof.
  intros Ha Hc. destruct a as [c'|c'|ch p|d|i f]; cbn; try done.
  - apply elem_of_union. by left.
  - apply elem_of_difference. split; [done|].
    rewrite elem_of_singleton. congruence.
  - destruct (tasks st !! i); [|done]. by destruct (step_task _ _ _ _ _).
Qed.

Lemma await_present c st :
  never_disconnects c (schedule st) ->
  c ∈ connected_websockets st ->
  c ∈ connected_websockets (await st)
  /\ never_disconnects c (schedule (await st)).
Proof.
  unfold never_disconnects, Dispatcher.await. intros Hn Hc.
  destruct (schedule st) as [|acts rest] eqn:E.
  { by rewrite E. }
  apply Forall_cons in Hn as [Hacts Hrest].
  destruct (apply_actions_fields collate rome_utcoffset acts
              (with_schedule rest st)) as (_ & -> & _). split; [|done].
  assert (c ∈ connected_websockets (with_schedule rest st)) as Hc'
    by done.
  revert Hc'. generalize (with_schedule rest st). clear E.
  induction Hacts as [|a acts Ha Hacts IH]; intros st' Hc'; [done|].
  cbn. by apply IH, apply_action_present.
Qed.

Lemma awaits_present c n st :
  never_disconnects c (schedule st) ->
  c ∈ connected_websockets st ->
  c ∈ connected_websockets (Nat.iter n await st)
  /\ never_disconnects c (schedule (Nat.iter n await st)).
Proof.
  intros Hn Hc. induction n as [|n IH]; [done|].
  rewrite Nat.iter_succ. destruct IH. by apply await_present.
Qed.

(** The facts about a connection that stays and whose sends return. *)
Definition served (c : websocket) (st : state) : Prop :=
  c ∈ connected_websockets st
  /\ never_disconnects c (schedule st)
  /\ forall b, b ∈ broadcasts st -> (c, true) ∈ b_attempts b.

Lemma await_served c st : served c st -> served c (await st).
Proof.
  intros (Hc & Hn & Hb).
  destruct (await_present c st Hn Hc) as [Hc' Hn'].
  split; [done|]. split; [done|].
  by destruct (await_fields collate rome_utcoffset st) as (-> & _).
Qed.

Lemma after_dispatch_served c ev rest st :
  (forall k, send_raises k c = false) ->
  served c st -> served c (after_dispatch ev (with_queue rest st)).
Proof.
  intros Hgood (Hc & Hn & Hb).
  destruct (after_dispatch_fields collate rome_utcoffset send_raises
              ev rest st) as (Eb & _).
  destruct (awaits_present c (length (elements (connected_websockets st)))
              (with_queue rest st) Hn Hc) as [Hc' Hn'].
  split; [|split].
  - unfold DispatcherSpec.after_dispatch. cbn [connected_websockets].
    apply elem_of_difference. split; [exact Hc'|].
    rewrite elem_of_list_to_set, list_elem_of_filter.
    intros [Hf _]. by rewrite Hgood in Hf.
  - exact Hn'.
  - rewrite Eb. intros b [Hin| ->%list_elem_of_singleton]%elem_of_app;
      [by apply Hb|].
    cbn [b_attempts]. apply list_elem_of_fmap. exists c.
    unfold outcome. rewrite Hgood. split; [done|].
    by apply elem_of_elements.
Qed.

Lemma run_served c fuel st :
  (forall k, send_raises k c = false) ->
  served c st -> served c (run fuel st).
Proof.
  intros Hgood. revert st. induction fuel as [|fuel IH]; intros st H; [done|].
  cbn [DispatcherSpec.run].
  destruct (notification_queue st) as [|ev rest].
  - by apply IH, await_served.
  - by apply IH, after_dispatch_served.
Qed.

Lemma connected_by_cons acts sch c :
  c ∈ connected_by (acts :: sch)
  <-> Connect c ∈ acts \/ c ∈ connected_by sch.
Proof.
  unfold connected_by. rewrite bind_cons, elem_of_app, list_elem_of_bind.
  split.
  - intros [(a & Ha & Hin)|H]; [left | by right].
    destruct a; try by apply elem_of_nil in Ha.
    by apply list_elem_of_singleton in Ha as ->.
  - intros [H|H]; [left | by right]. exists (Connect c).
    split; [apply list_elem_of_singleton; done | done].
Qed.

(** Every member of the registry, now or later, has the given origin. *)
Definition known (origin : websocket -> Prop) (st : state) : Prop :=
  forall c, c ∈ connected_websockets st \/ c ∈ connected_by (schedule st) ->
            origin c.

Lemma apply_action_members c a st :
  c ∈ connected_websockets (apply_action a st) ->
  c ∈ connected_websockets st \/ a = Connect c.
Proof.
  destruct a as [c'|c'|ch p|d|i f]; cbn; try by left.
  - intros [H| ->%elem_of_singleton]%elem_of_union; [by left | by right].
  - intros [H _]%elem_of_difference. by left.
  - destruct (tasks st !! i); [|by left].
    destruct (step_task _ _ _ _ _). by left.
Qed.

Lemma await_members c st :
  c ∈ connected_websockets (await st) ->
  c ∈ connected_websockets st
  \/ Connect c ∈ default [] (head (schedule st)).
Proof.
  unfold Dispatcher.await. destruct (schedule st) as [|acts rest];
    [by left|]. cbn [head default].
  assert (connected_websockets (with_schedule rest st)
          = connected_websockets st) as <- by done.
  generalize (with_schedule rest st).
  induction acts as [|a acts IH]; intros st'; cbn; [by left|].
  intros H. destruct (IH _ H) as [H'|H'].
  - destruct (apply_action_members c a st' H') as [H''| ->];
      [by left | right; left].
  - right. by right.
Qed.

Lemma await_known origin st : known origin st -> known origin (await st).
Proof.
  intros H c [Hc|Hc].
  - destruct (await_members c st Hc) as [H'|H']; [apply H; by left|].
    destruct (schedule st) as [|acts rest] eqn:E;
      [by apply elem_of_nil in H'|].
    apply H. right. rewrite E. apply connected_by_cons. by left.
  - destruct (await_fields collate rome_utcoffset st) as (_ & Es & _).
    rewrite Es in Hc. destruct (schedule st) as [|acts rest] eqn:E;
      [by apply elem_of_nil in Hc|].
    apply H. right. rewrite E. apply connected_by_cons. by right.
Qed.

Lemma awaits_known origin n st :
  known origin st -> known origin (Nat.iter n await st).
Proof.
  intros H. induction n as [|n IH]; [done|].
  rewrite Nat.iter_succ. by apply await_known.
Qed.

Lemma after_dispatch_known origin ev st :
  known origin st -> known origin (after_dispatch ev st).
Proof.
  intros H c Hc.
  apply (awaits_known origin (length (elements (connected_websockets st)))
           st H c).
  unfold DispatcherSpec.after_dispatch in Hc.
  cbn [connected_websockets schedule] in Hc.
  destruct Hc as [[Hc _]%elem_of_difference|Hc]; [by left | by right].
Qed.

Lemma run_known origin fuel st : known origin st -> known origin (run fuel st).
Proof.
  revert st. induction fuel as [|fuel IH]; intros st H; [done|].
  cbn [DispatcherSpec.run].
  destruct (notification_queue st) as [|ev rest].
  - by apply IH, await_known.
  - by apply IH, after_dispatch_known.
Qed.
End Loop.

(** X8. A connection that is registered at startup, whose handler does
    not end and whose sends all return, stays in the registry and is
    sent every broadcast, with success, whatever else happens at the
    awaits. *)
Theorem healthy_connection_gets_every_broadcast
    (collate : relation string) `{!RelDecision collate}
    (rome_utcoffset : Z -> Z) (send_raises : nat -> websocket -> bool)
    (conns : gset websocket) (queue : list event)
    (sch : list (list env_action)) (fuel : nat) (c : websocket) :
  c ∈ conns ->
  (forall k, send_raises k c = false) ->
  Forall (Forall (fun a => a <> Disconnect c)) sch ->
  exists st',
    notification_dispatcher collate rome_utcoffset send_raises fuel
      (startup conns queue sch) = Py.Ok st'
    /\ c ∈ connected_websockets st'
    /\ forall b, b ∈ broadcasts st' -> (c, true) ∈ b_attempts b.
Proof.
  intros Hc Hgood Hsch. eexists. split; [apply dispatcher_run|].
  destruct (run_served collate rome_utcoffset send_raises c fuel
              (startup conns queue sch) Hgood) as (H1 & _ & H2); [|done].
  split; [exact Hc|]. split; [exact Hsch|].
  intros b Hb. by apply elem_of_nil in Hb.
Qed.

Lemma healthy_connection_gets_every_broadcast_witness :
  exists st',
    notification_dispatcher byte_order rome_since_1996 fails_second 5
      (startup {[1; 2; 3]} two_events busy_schedule) = Py.Ok st'
    /\ 3 ∈ connected_websockets st'
    /\ forall b, b ∈ broadcasts st' -> (3, true) ∈ b_attempts b.
Proof.
  apply (healthy_connection_gets_every_broadcast byte_order rome_since_1996
           fails_second {[1; 2; 3]} two_events busy_schedule 5 3).
  - set_solver.
  - reflexivity.
  - unfold busy_schedule. repeat (constructor; try discriminate).
Defined.

(** X9. The dispatcher registers no connection itself: whoever is in the
    registry after any number of turns was in it at startup or was
    added by a websocket handler meanwhile. *)
Theorem dispatcher_registers_nobody
    (collate : relation string) `{!RelDecision collate}
    (rome_utcoffset : Z -> Z) (send_raises : nat -> websocket -> bool)
    (conns : gset websocket) (queue : list event)
    (sch : list (list env_action)) (fuel : nat) :
  exists st',
    notification_dispatcher collate rome_utcoffset send_raises fuel
      (startup conns queue sch) = Py.Ok st'
    /\ forall c, c ∈ connected_websockets st' ->
                 c ∈ conns \/ exists acts, acts ∈ sch /\ Connect c ∈ acts.
Proof.
  eexists. split; [apply dispatcher_run|]. intros c Hc.
  assert (c ∈ conns \/ c ∈ connected_by sch) as [H|H].
  { apply (run_known collate rome_utcoffset send_raises
             (fun c => c ∈ conns \/ c ∈ connected_by sch) fuel
             (startup conns queue sch)); [|by left].
    intros c' H'. exact H'. }
  - by left.
  - right. unfold connected_by in H.
    apply list_elem_of_bind in H as (acts & H & Hacts).
    exists acts. split; [done|].
    apply list_elem_of_bind in H as (a & Ha & Hin).
    destruct a; try by apply elem_of_nil in Ha.
    by apply list_elem_of_singleton in Ha as ->.
Qed.

End RegistrySpec.

(** ** The worksheet handle *)

Module HandleSpec.
Import Handle.
Local Open Scope nat_scope.

(** How many calls of a kind have returned. *)
Definition returned (c : library_call) (m : list (library_call * bool))
  : nat :=
  length (filter (fun x => x = (c, true)) m).

Definition held {A} (o : option A) : nat :=
  match o with Some _ => 1 | None => 0 end.

(** Each object is held when, and only when, the one call that makes
    it has returned. *)
Definition accounted (g : globals) : Prop :=
  returned FromServiceAccountFile (made g) = held (_credentials g)
  /\ returned Authorize (made g) = held (_client g)
  /\ returned Worksheet (made g) = held (_worksheet g).

Section Calls.
Variable raises : nat -> bool.

Lemma returned_snoc (c c' : library_call) (ok : bool)
    (m : list (library_call * bool)) :
  returned c (m ++ [(c', ok)])
  = (returned c m + if bool_decide ((c', ok) = (c, true)) then 1 else 0)%nat.
Proof.
  unfold returned. rewrite filter_app, length_app. f_equal.
  rewrite filter_cons. by repeat case_decide; case_bool_decide.
Qed.

Lemma get_worksheet_cached (g : globals) (ws : nat) :
  _worksheet g = Some ws -> get_worksheet raises g = (Py.Ok ws, g).
Proof. intros H. unfold get_worksheet. by rewrite H. Qed.

Lemma get_worksheet_step (g : globals) :
  accounted g ->
  accounted (get_worksheet raises g).2
  /\ forall h, (get_worksheet raises g).1 = Py.Ok h ->
               _worksheet (get_worksheet raises g).2 = Some h.
Proof.
  intros (H1 & H2 & H3). unfold get_worksheet.
  destruct g as [cred client ws m]. cbn [_worksheet] in *.
  destruct ws as [ws|].
  { split; [done|]. by intros h [= ->]. }
  unfold accounted, mbind, G_bind, call, set_credentials, set_client,
    set_worksheet, mret, G_ret.
  cbn [_credentials _client _worksheet made] in *.
  destruct cred as [cred|], client as [client|];
    cbn [_credentials _client _worksheet made];
    repeat (match goal with
            | |- context [raises ?n] => destruct (raises n)
            end;
            cbn [_credentials _client _worksheet made fst snd]);
    rewrite ?returned_snoc; cbn [held] in *;
    (split; [repeat split; repeat case_bool_decide; try done; lia|]);
    intros h; try done; by intros [= ->].
Qed.

Lemma calls_in_a_row_cached (n : nat) (g : globals) (ws : nat) :
  _worksheet g = Some ws ->
  calls_in_a_row raises n g = (replicate n (Py.Ok ws), g).
Proof.
  intros H. induction n as [|n IH]; [done|].
  cbn [calls_in_a_row]. by rewrite (get_worksheet_cached g ws H), IH.
Qed.

Lemma calls_in_a_row_app (i k : nat) (g : globals) :
  calls_in_a_row raises (i + k) g
  = ((calls_in_a_row raises i g).1
     ++ (calls_in_a_row raises k (calls_in_a_row raises i g).2).1,
     (calls_in_a_row raises k (calls_in_a_row raises i g).2).2).
Proof.
  revert g. induction i as [|i IH]; intros g.
  { cbn. by destruct (calls_in_a_row raises k g). }
  cbn [Nat.add calls_in_a_row].
  destruct (get_worksheet raises g) as [r g1]. rewrite IH.
  destruct (calls_in_a_row raises i g1) as [rs g2]. cbn [fst snd].
  by destruct (calls_in_a_row raises k g2).
Qed.

Lemma length_calls_in_a_row (n : nat) (g : globals) :
  length (calls_in_a_row raises n g).1 = n.
Proof.
  revert g. induction n as [|n IH]; intros g; [done|].
  cbn [calls_in_a_row]. destruct (get_worksheet raises g) as [r g1].
  specialize (IH g1). destruct (calls_in_a_row raises n g1). cbn in *.
  by rewrite IH.
Qed.

Lemma calls_in_a_row_accounted (n : nat) (g : globals) :
  accounted g -> accounted (calls_in_a_row raises n g).2.
Proof.
  revert g. induction n as [|n IH]; intros g Hg; [done|].
  cbn [calls_in_a_row].
  pose proof (get_worksheet_step g Hg) as [Hg1 _].
  destruct (get_worksheet raises g) as [r g1]. specialize (IH g1 Hg1).
  by destruct (calls_in_a_row raises n g1).
Qed.

(** The call that returns the handle leaves it in [_worksheet]. *)
Lemma calls_in_a_row_last (i : nat) (g : globals) (h : nat) :
  accounted g ->
  (calls_in_a_row raises (S i) g).1 !! i = Some (Py.Ok h) ->
  _worksheet (calls_in_a_row raises (S i) g).2 = Some h.
Proof.
  intros Hg. replace (S i) with (i + 1)%nat by lia.
  rewrite calls_in_a_row_app. cbn [fst snd].
  pose proof (calls_in_a_row_accounted i g Hg) as Hi.
  pose proof (length_calls_in_a_row i g) as Hlen.
  destruct (calls_in_a_row raises i g) as [rs gi]. cbn [fst snd] in *.
  rewrite lookup_app_r by lia. rewrite Hlen, Nat.sub_diag.
  cbn [calls_in_a_row].
  pose proof (get_worksheet_step gi Hi) as [_ Hok].
  destruct (get_worksheet raises gi) as [r g1]. cbn [fst snd] in *.
  intros [= ->]. by apply Hok.
Qed.
End Calls.

(** X20. However the library calls fail, over any number of calls of
    [get_worksheet] made one after the other the key file is read
    with success at most once, the client is authorized at most once
    and the worksheet is opened at most once; and once a call has
    returned a handle, every later call returns that handle and makes
    no library call. *)
Theorem worksheet_is_opened_once (raises : nat -> bool) (n : nat) :
  let rs := (calls_in_a_row raises n at_import).1 in
  let g := (calls_in_a_row raises n at_import).2 in
  (returned FromServiceAccountFile (made g) <= 1)%nat
  /\ (returned Authorize (made g) <= 1)%nat
  /\ (returned Worksheet (made g) <= 1)%nat
  /\ forall i h,
       rs !! i = Some (Py.Ok h) ->
       (forall j, (i <= j < n)%nat -> rs !! j = Some (Py.Ok h))
       /\ made g = made (calls_in_a_row raises (S i) at_import).2.
Proof.
  cbv zeta.
  assert (accounted at_import) as H0 by done.
  pose proof (calls_in_a_row_accounted raises n at_import H0)
    as (H1 & H2 & H3).
  split; [rewrite H1; destruct (_credentials _); cbn; lia|].
  split; [rewrite H2; destruct (_client _); cbn; lia|].
  split; [rewrite H3; destruct (_worksheet _); cbn; lia|].
  intros i h Hi.
  assert (i < n)%nat as Hin.
  { apply lookup_lt_Some in Hi. by rewrite length_calls_in_a_row in Hi. }
  replace n with (S i + (n - S i))%nat in Hi |- * by lia.
  rewrite calls_in_a_row_app in Hi |- *. cbn [fst snd] in Hi |- *.
  pose proof (length_calls_in_a_row raises (S i) at_import) as Hlen.
  rewrite lookup_app_l in Hi by lia.
  pose proof (calls_in_a_row_last raises i at_import h H0 Hi) as Hws.
  rewrite (calls_in_a_row_cached raises _ _ h Hws). cbn [fst snd].
  split; [|done]. intros j Hj.
  destruct (decide (j = i)) as [->|Hne].
  { by rewrite lookup_app_l by lia. }
  rewrite lookup_app_r by lia. apply lookup_replicate_2. lia.
Qed.

(** The file is read, the authorization fails once, and the
    spreadsheet is opened at the third call. *)
Example second_call_resumes :
  let raises n := bool_decide (n = 1 \/ n = 3) in
  (calls_in_a_row raises 4 at_import).1
  = [Py.Raise Py.GatewayError; Py.Raise Py.GatewayError; Py.Ok 5; Py.Ok 5]
  /\ made (calls_in_a_row raises 4 at_import).2
     = [(FromServiceAccountFile, true); (Authorize, false);
        (Authorize, true); (OpenByKey, false);
        (OpenByKey, true); (Worksheet, true)].
Proof. vm_compute. done. Qed.

End HandleSpec.

(** ** Strings and numbers of the routes *)

Module HttpSpec.
Import Http.

(** *** [str], [split] and [int] *)

Definition chars (s : string) : list Ascii.ascii :=
  String.list_ascii_of_string s.

Definition plain (c : Ascii.ascii) : Prop :=
  isspace c = false /\ Ascii.eqb c "-" = false /\ Ascii.eqb c "+" = false.

Lemma uint_chars_plain (d : Decimal.uint) :
  Forall plain (chars (NilEmpty.string_of_uint d)).
Proof.
  induction d; cbn; constructor; try done; by vm_compute.
Qed.

Lemma int_digits_acc (d : Decimal.uint) (acc : positive) :
  int_digits (Zpos acc) true (chars (NilEmpty.string_of_uint d))
  = Some (Zpos (Pos.of_uint_acc d acc)).
Proof.
  revert acc. induction d; intros acc; cbn [NilEmpty.string_of_uint chars
    String.list_ascii_of_string int_digits Pos.of_uint_acc];
    [reflexivity|..];
    (match goal with
     | |- context [decimal_value ?c] =>
         let v := eval vm_compute in (decimal_value c) in
         change (decimal_value c) with v
     end; cbv iota; rewrite <- IHd; f_equal; lia).
Qed.

Lemma int_digits_uint (d : Decimal.uint) (b : bool) :
  d <> Decimal.Nil \/ b = true ->
  int_digits 0 b (chars (NilEmpty.string_of_uint d))
  = Some (Z.of_N (Pos.of_uint d)).
Proof.
  revert b. induction d; intros b Hb; cbn [NilEmpty.string_of_uint chars
    String.list_ascii_of_string int_digits Pos.of_uint];
    [by destruct Hb as [?| ->]|..];
    match goal with
    | |- context [decimal_value ?c] =>
        let v := eval vm_compute in (decimal_value c) in
        change (decimal_value c) with v
    end; cbv iota;
    first [ apply IHd; by right
          | apply (int_digits_acc d) ].
Qed.

Lemma str_chars (n : nat) :
  exists cs,
    chars (Py.str (Z.of_nat n)) = cs /\ cs <> [] /\ Forall plain cs
    /\ int_digits 0 false cs = Some (Z.of_nat n).
Proof.
  eexists. split; [reflexivity|]. unfold Py.str.
  pose proof (DecimalZ.of_to (Z.of_nat n)) as Hn.
  destruct (Z.to_int (Z.of_nat n)) as [d|d] eqn:Ed.
  - cbn [NilZero.string_of_int]. unfold NilZero.string_of_uint.
    cbn [Z.of_int] in Hn. unfold Z.of_uint in Hn.
    assert (d = Decimal.Nil \/ d <> Decimal.Nil) as [->|Hd]
      by (destruct d; first [by left | by right]).
    + cbn in Hn. rewrite <- Hn. split; [done|]. split; [|done].
      repeat constructor.
    + assert (match d with
              | Decimal.Nil => "0"%string
              | _ => NilEmpty.string_of_uint d
              end = NilEmpty.string_of_uint d) as -> by (by destruct d).
      split; [by destruct d|]. split; [apply uint_chars_plain|].
      rewrite <- Hn. apply int_digits_uint. by left.
  - exfalso. destruct (Z.of_nat n) eqn:E; cbn in Ed; try discriminate. lia.
Qed.

Lemma lstrip_plain (cs : list Ascii.ascii) :
  Forall plain cs -> lstrip cs = cs.
Proof. intros [|c cs' [Hc _] _]; [done|]. cbn. by rewrite Hc. Qed.

Lemma split_chars_plain (word cs : list Ascii.ascii) :
  Forall plain cs -> rev word ++ cs <> [] ->
  split_chars word cs = [String.string_of_list_ascii (rev word ++ cs)].
Proof.
  intros Hcs. revert word. induction Hcs as [|c cs [Hc _] Hcs IH];
    intros word Hne.
  - rewrite app_nil_r in Hne |- *. cbn. destruct word; [done|]. done.
  - cbn [split_chars]. rewrite Hc. rewrite IH.
    + cbn [rev]. by rewrite <- app_assoc.
    + cbn [rev]. rewrite <- app_assoc. by destruct (rev word).
Qed.

Lemma chars_app (s t : string) : chars (s +:+ t) = chars s ++ chars t.
Proof.
  unfold chars. induction s as [|c s IH]; [done|].
  change (String.list_ascii_of_string (String c s +:+ t))
    with (c :: String.list_ascii_of_string (s +:+ t)).
  by rewrite IH.
Qed.

(** The last word of a text that ends in a blank and a word without
    blanks is that word, whatever comes before the blank. *)
Lemma split_chars_last (word pre cs : list Ascii.ascii) :
  Forall plain cs -> cs <> [] ->
  last (split_chars word (pre ++ chars " " ++ cs))
  = Some (String.string_of_list_ascii cs).
Proof.
  intros Hcs Hne. revert word.
  assert (split_chars [] cs = [String.string_of_list_ascii cs]) as Hlast.
  { by rewrite (split_chars_plain [] cs Hcs). }
  induction pre as [|c pre IH]; intros word.
  - cbn. rewrite Hlast. by destruct word.
  - cbn [app split_chars]. destruct (isspace c); [|apply IH].
    specialize (IH []). destruct word; [done|].
    destruct (split_chars [] _); [done|]. by rewrite last_cons, IH.
Qed.

Lemma int_plain (s : string) (n : Z) :
  chars s <> [] -> Forall plain (chars s) ->
  int_digits 0 false (chars s) = Some n ->
  int s = Return n.
Proof.
  intros Hne Hplain Hn. unfold int. fold (chars s).
  rewrite (lstrip_plain _ Hplain).
  rewrite (lstrip_plain (rev (chars s))) by (by apply Forall_rev).
  rewrite rev_involutive.
  destruct (chars s) as [|c cs] eqn:E; [done|].
  apply Forall_cons in Hplain as [(_ & -> & ->) _].
  rewrite Hn. f_equal. lia.
Qed.

End HttpSpec.

(** ** The HTTP routes *)

Module ApiSpec.
Import Datetime Sql Http Api HttpSpec SqlSpec.

Lemma tag_count (n : nat) :
  deleted_rows (delete_tag n) = Return (Z.of_nat n).
Proof.
  destruct (str_chars n) as (cs & Ecs & Hne & Hplain & Hval).
  unfold deleted_rows, delete_tag, split.
  assert (String.list_ascii_of_string ("DELETE " +:+ Py.str (Z.of_nat n))
          = chars "DELETE " ++ cs) as ->.
  { rewrite <- Ecs. reflexivity. }
  assert (split_chars [] (chars "DELETE " ++ cs)
          = ["DELETE"%string; Py.str (Z.of_nat n)]) as ->.
  { cbn. rewrite (split_chars_plain [] cs Hplain) by done. cbn.
    rewrite <- Ecs. unfold chars.
    by rewrite String.string_of_list_ascii_of_string. }
  cbn. apply int_plain; fold (chars (Py.str (Z.of_nat n)));
    by rewrite Ecs.
Qed.

(** X10. The count of a statement is read back from its command tag:
    for every number of rows and whatever the tag holds before its last
    blank (DELETE, or INSERT and an oid), [int(result.split()[-1])] of
    the tag followed by a blank and the count is the count. *)
Theorem deleted_rows_of_tag (command : string) (n : nat) :
  deleted_rows (command +:+ " " +:+ Py.str (Z.of_nat n))
  = Return (Z.of_nat n).
Proof.
  destruct (str_chars n) as (cs & Ecs & Hne & Hplain & Hval).
  unfold deleted_rows, split. fold (chars (command +:+ " " +:+ Py.str (Z.of_nat n))).
  rewrite !chars_app, Ecs. unfold last_item.
  rewrite (split_chars_last [] (chars command) cs Hplain Hne).
  rewrite <- Ecs. unfold chars.
  rewrite String.string_of_list_ascii_of_string.
  cbn [mbind outcome_bind].
  apply int_plain; fold (chars (Py.str (Z.of_nat n))); by rewrite Ecs.
Qed.

Lemma removed_none {A} (P : A -> Prop) `{!forall x, Decision (P x)}
    (l : list A) :
  (length l - length (filter P l) = 0)%nat <-> Forall P l.
Proof.
  induction l as [|x l IH]; [by split|].
  rewrite filter_cons. pose proof (length_filter P l) as Hle.
  destruct (decide (P x)) as [Hx|Hx]; cbn [length].
  - rewrite Forall_cons. split.
    + intros H. split; [done|]. apply IH. lia.
    + intros [_ H]. apply IH in H. lia.
  - split; [lia|]. by intros [? _]%Forall_cons.
Qed.

Lemma removed_none_key {A K} `{EqDecision K} (key : A -> K) (k : K)
    (l : list A) :
  (length l - length (filter (fun x => key x <> k) l) = 0)%nat
  <-> k ∉ key <$> l.
Proof.
  rewrite removed_none, Forall_forall, list_elem_of_fmap. split.
  - intros H (x & -> & Hx). by apply (H x).
  - intros H x Hx E. apply H. by exists x.
Qed.

Lemma text_arg_str (s : string) :
  has_nul s = false -> text_arg (JStr s) = Return (Some s).
Proof. intros H. cbn. by rewrite H. Qed.

(** The answer of a DELETE route from the count of rows removed. *)
Lemma answer_of_count (n : nat) (missing done : string) (db : database) :
  (n' ← lift (deleted_rows (delete_tag n));
   if n' =? 0 then (abort 404 missing : H response)
   else mret (mkResponse 200 (JDict [("message", JStr done)]))) db
  = (if bool_decide (n = 0%nat)
     then Raise (HTTPException 404 missing)
     else Return (mkResponse 200 (JDict [("message", JStr done)])), db).
Proof.
  unfold mbind, H_bind, lift. rewrite tag_count.
  destruct n; [done|]. case_bool_decide; [done|].
  destruct (Z.eqb_spec (Z.of_nat (S n)) 0); [lia | done].
Qed.

Lemma delete_log_run (log_id : Z) (db : database) :
  -2147483648 <= log_id <= 2147483647 ->
  delete_log log_id db
  = (if bool_decide (log_id ∈ id <$> log db)
     then Return (mkResponse 200 (JDict [("message", JStr "Log cancellato")]))
     else Raise (HTTPException 404 "Log non trovato"),
     mkDatabase (users db) (filter (fun l => id l <> log_id) (log db))).
Proof.
  intros Hid. unfold delete_log, mbind at 1, H_bind, delete_log_row.
  unfold int4_arg.
  destruct (Z.leb_spec (-2147483648) log_id); [|lia].
  destruct (Z.leb_spec log_id 2147483647); [|lia]. cbn [andb].
  rewrite answer_of_count. f_equal.
  pose proof (removed_none_key id log_id (log db)) as Hn.
  repeat case_bool_decide; tauto.
Qed.

Lemma delete_log_refused (log_id : Z) (db : database) :
  ~ (-2147483648 <= log_id <= 2147483647) ->
  delete_log log_id db = (Raise PostgresError, db).
Proof.
  intros Hid. unfold delete_log, mbind, H_bind, delete_log_row, int4_arg.
  destruct (Z.leb_spec (-2147483648) log_id);
    destruct (Z.leb_spec log_id 2147483647); try lia; done.
Qed.

(** X11. DELETE /logs/<id> answers 200 when the log has a row with
    that id and 404 when it has none, removes the row and nothing
    else, and answers 404 when it is asked again; an id beyond the
    range of the column is answered with 500 and changes nothing. *)
Theorem delete_log_removes_the_row (log_id : Z) (db : database) :
  (-2147483648 <= log_id <= 2147483647 ->
   let db' :=
     mkDatabase (users db) (filter (fun l => id l <> log_id) (log db)) in
   delete_log log_id db
   = (if bool_decide (log_id ∈ id <$> log db)
      then Return (mkResponse 200 (JDict [("message", JStr "Log cancellato")]))
      else Raise (HTTPException 404 "Log non trovato"), db')
   /\ status_seen (delete_log log_id db').1 = 404)
  /\ (2147483647 < log_id ->
      status_seen (delete_log log_id db).1 = 500
      /\ (delete_log log_id db).2 = db).
Proof.
  split.
  - intros Hid. cbv zeta. split; [by apply delete_log_run|].
    rewrite delete_log_run by done. cbn [fst log].
    rewrite bool_decide_eq_false_2; [done|].
    intros (l & E & Hl)%list_elem_of_fmap.
    by apply list_elem_of_filter in Hl as [Hne _].
  - intros Hid. by rewrite delete_log_refused by lia.
Qed.

Definition three_logs : database :=
  mkDatabase [mkUser "8001234567895" "Anna" "Rossi"]
    [mkLog 1 "8001234567895" (Some 1000) CHECKIN;
     mkLog 2 "8001234567895" (Some 2000) CHECKOUT;
     mkLog 3 "8001234567895" (Some 3000) CHECKIN].

Lemma delete_log_removes_the_row_witness :
  delete_log 2 three_logs
  = (Return (mkResponse 200 (JDict [("message", JStr "Log cancellato")])),
     mkDatabase [mkUser "8001234567895" "Anna" "Rossi"]
       [mkLog 1 "8001234567895" (Some 1000) CHECKIN;
        mkLog 3 "8001234567895" (Some 3000) CHECKIN])
  /\ status_seen (delete_log 4294967296 three_logs).1 = 500.
Proof.
  destruct (delete_log_removes_the_row 2 three_logs) as [H _].
  destruct (delete_log_removes_the_row 4294967296 three_logs) as [_ H'].
  split; [apply H; lia | apply H'; lia].
Defined.

Lemma delete_user_run (barcode : string) (db : database) :
  has_nul barcode = false ->
  delete_user barcode db
  = (if bool_decide (barcode ∈ Sql.barcode <$> users db)
     then Return (mkResponse 200
                    (JDict [("message", JStr "Utente cancellato")]))
     else Raise (HTTPException 404 "Utente non trovato"),
     mkDatabase (filter (fun u => Sql.barcode u <> barcode) (users db))
                (filter (fun l => log_barcode l <> barcode) (log db))).
Proof.
  intros Hnul.
  assert (barcode
          ∉ log_barcode <$> filter (fun l => log_barcode l <> barcode) (log db))
    as Hlog.
  { intros (l & E & Hl)%list_elem_of_fmap.
    by apply list_elem_of_filter in Hl as [Hne _]. }
  unfold delete_user, mbind at 1 2, H_bind, delete_log_of.
  rewrite (text_arg_str _ Hnul).
  unfold delete_user_row. rewrite (text_arg_str _ Hnul).
  cbn [users log].
  rewrite (bool_decide_eq_false_2 (barcode ∈ log_barcode <$> _)) by done.
  rewrite andb_false_r. rewrite answer_of_count. f_equal.
  pose proof (removed_none_key Sql.barcode barcode (users db)) as Hn.
  repeat case_bool_decide; tauto.
Qed.

Lemma delete_user_refused (barcode : string) (db : database) :
  has_nul barcode = true ->
  delete_user barcode db = (Raise PostgresError, db).
Proof.
  intros Hnul. unfold delete_user, mbind, H_bind, delete_log_of. cbn.
  by rewrite Hnul.
Qed.

(** X12. DELETE /users/<barcode> removes the log rows of the barcode
    and then the user, so that the foreign key of [log] is never in
    the way: it answers 200 when the user existed and 404 when not,
    and afterwards neither table has a row of the barcode and the
    derived view has no row for it. *)
Theorem delete_user_removes_user_and_logs
    (collate : relation string) `{!RelDecision collate}
    (barcode : string) (db : database) :
  has_nul barcode = false ->
  let db' :=
    mkDatabase (filter (fun u => Sql.barcode u <> barcode) (users db))
               (filter (fun l => log_barcode l <> barcode) (log db)) in
  delete_user barcode db
  = (if bool_decide (barcode ∈ Sql.barcode <$> users db)
     then Return (mkResponse 200
                    (JDict [("message", JStr "Utente cancellato")]))
     else Raise (HTTPException 404 "Utente non trovato"), db')
  /\ (barcode ∉ Sql.barcode <$> users db')
  /\ (barcode ∉ log_barcode <$> log db')
  /\ (barcode ∉ r_barcode <$> LAST_INBOUND_SQL collate db').
Proof.
  intros Hnul. cbv zeta.
  assert (barcode
          ∉ log_barcode <$> filter (fun l => log_barcode l <> barcode) (log db))
    as Hlog.
  { intros (l & E & Hl)%list_elem_of_fmap.
    by apply list_elem_of_filter in Hl as [Hne _]. }
  split; [by apply delete_user_run|]. split; [|split].
  - intros (u & E & Hu)%list_elem_of_fmap.
    by apply list_elem_of_filter in Hu as [Hne _].
  - exact Hlog.
  - intros (r & E & Hr)%list_elem_of_fmap.
    apply ViewRows.view_row_origin in Hr as (u & l & _ & Hl & Hb & _ & ->).
    apply Hlog. apply list_elem_of_fmap. exists l. split; [|done].
    cbn in E. congruence.
Qed.

Lemma delete_user_removes_user_and_logs_witness :
  delete_user "8001234567895" three_logs
  = (Return (mkResponse 200 (JDict [("message", JStr "Utente cancellato")])),
     mkDatabase [] [])
  /\ ("8001234567895"
      ∉ r_barcode <$> LAST_INBOUND_SQL byte_order (mkDatabase [] [])).
Proof.
  destruct (delete_user_removes_user_and_logs byte_order "8001234567895"
              three_logs) as (H1 & _ & _ & H2); [reflexivity|].
  split; [exact H1 | exact H2].
Defined.

(** *** Users *)

Lemma varchar_fits (n : nat) (s : string) :
  (String.length s <= n)%nat -> varchar n s = Return s.
Proof.
  intros Hlen. unfold varchar.
  assert (length (String.list_ascii_of_string s) = String.length s) as E.
  { clear. induction s as [|c s IH]; [done|]. cbn. by rewrite IH. }
  rewrite drop_ge, take_ge by lia. cbn.
  by rewrite String.string_of_list_ascii_of_string.
Qed.

Lemma find_barcode_new (us : list user_row) (u : user_row) :
  Sql.barcode u ∉ Sql.barcode <$> us ->
  List.find (fun u' => bool_decide (Sql.barcode u' = Sql.barcode u))
            (us ++ [u]) = Some u.
Proof.
  induction us as [|u' us IH]; intros Hnew; cbn.
  { by rewrite bool_decide_eq_true_2. }
  rewrite fmap_cons, not_elem_of_cons in Hnew. destruct Hnew as [Hne Hnew].
  rewrite bool_decide_eq_false_2 by done. by apply IH.
Qed.

Lemma str_isdigit_no_nul (s : string) :
  str_isdigit s = true -> has_nul s = false.
Proof.
  unfold str_isdigit, has_nul. intros [_ H]%andb_true_iff.
  induction (String.list_ascii_of_string s) as [|c cs IH]; [done|].
  cbn in H |- *. apply andb_true_iff in H as [Hc H]. rewrite (IH H).
  rewrite orb_false_r. unfold isdigit_char in Hc.
  destruct (Ascii.nat_of_ascii c) as [|n]; [done|done].
Qed.

(** The barcodes that POST /users lets through. *)
Lemma barcode_refused_false (v : json) :
  barcode_refused v = Return false ->
  exists b, v = JStr b /\ String.length b = 13%nat /\ str_isdigit b = true.
Proof.
  unfold barcode_refused. destruct (truthy v); [|done]. cbn [negb].
  destruct v as [|?|?|?|b|items|items]; try done; cbn.
  - destruct (Nat.eqb_spec (String.length b) 13); [|done]. cbn.
    destruct (str_isdigit b) eqn:E; [|done]. intros _. by exists b.
  - by destruct (_ =? _)%nat.
  - by destruct (_ =? _)%nat.
Qed.

Lemma text_arg_some (v : json) (s : string) :
  text_arg v = Return (Some s) -> v = JStr s /\ has_nul s = false.
Proof.
  destruct v; cbn; try done. destruct (has_nul s0) eqn:E; [done|].
  by intros [= ->].
Qed.

(** What an INSERT into [users] does. *)
Lemma insert_user_cases (vb vn vc : json) (db : database) :
  match insert_user vb vn vc db with
  | (Return tag, db') =>
      exists b n c b' n' c',
        vb = JStr b /\ vn = JStr n /\ vc = JStr c
        /\ varchar 13 b = Return b' /\ varchar 255 n = Return n'
        /\ varchar 255 c = Return c'
        /\ (b' ∉ Sql.barcode <$> users db)
        /\ db' = mkDatabase (users db ++ [mkUser b' n' c']) (log db)
  | (Raise e, db') => db' = db
  end.
Proof.
  unfold insert_user.
  destruct (text_arg vb) as [[b|]|] eqn:Hb; cbn [mbind outcome_bind];
    [| |done]; last first.
  { destruct (text_arg vn) as [[?|]|]; cbn [mbind outcome_bind]; [| |done];
      by destruct (text_arg vc) as [[?|]|]. }
  destruct (text_arg vn) as [[n|]|] eqn:Hn; cbn [mbind outcome_bind];
    [| |done]; last first.
  { by destruct (text_arg vc) as [[?|]|]. }
  destruct (text_arg vc) as [[c|]|] eqn:Hc; cbn [mbind outcome_bind];
    [|done|done].
  destruct (varchar 13 b) as [b'|] eqn:Hb'; cbn [mbind outcome_bind];
    [|done].
  destruct (varchar 255 n) as [n'|] eqn:Hn'; cbn [mbind outcome_bind];
    [|done].
  destruct (varchar 255 c) as [c'|] eqn:Hc'; cbn [mbind outcome_bind];
    [|done].
  cbn [Sql.barcode]. case_bool_decide as Hdup; [done|].
  apply text_arg_some in Hb as [-> _]. apply text_arg_some in Hn as [-> _].
  apply text_arg_some in Hc as [-> _].
  by exists b, n, c, b', n', c'.
Qed.

(** What POST /users does. *)
Lemma create_user_cases (data : json) (db : database) :
  match create_user data db with
  | (Return resp, db') =>
      exists b n c n' c',
        get data "barcode" = Return (JStr b)
        /\ get data "nome" = Return (JStr n)
        /\ get data "cognome" = Return (JStr c)
        /\ String.length b = 13%nat /\ str_isdigit b = true
        /\ varchar 255 n = Return n' /\ varchar 255 c = Return c'
        /\ (b ∉ Sql.barcode <$> users db)
        /\ resp = mkResponse 201 (JDict [("message", JStr "Utente creato")])
        /\ db' = mkDatabase (users db ++ [mkUser b n' c']) (log db)
  | (Raise e, db') => db' = db
  end.
Proof.
  unfold create_user, mbind at 1 2 3 4, H_bind, lift.
  destruct (get data "barcode") as [vb|] eqn:Eb; [|done].
  destruct (get data "nome") as [vn|] eqn:En; [|done].
  destruct (get data "cognome") as [vc|] eqn:Ec; [|done].
  destruct (barcode_refused vb) as [[|]|] eqn:Er; [done| |done].
  destruct (barcode_refused_false vb Er) as (b & -> & Hlen & Hdig).
  destruct (negb (truthy vn) || negb (truthy vc)); [done|].
  unfold mbind, H_bind.
  pose proof (insert_user_cases (JStr b) vn vc db) as Hins.
  destruct (insert_user (JStr b) vn vc db) as [[tag|e] db1].
  2:{ subst db1. by destruct e. }
  destruct Hins as (b0 & n & c & b' & n' & c' & [= <-] & -> & -> & Hb'
                    & Hn' & Hc' & Hnew & ->).
  rewrite (varchar_fits 13 b) in Hb' by lia. injection Hb' as <-.
  cbn [mret H_ret].
  by exists b, n, c, n', c'.
Qed.

Lemma created_user_tables (data : json) (db : database) :
  match create_user data db with
  | (Return resp, db') =>
      exists u, (Sql.barcode u ∉ Sql.barcode <$> users db)
                /\ db' = mkDatabase (users db ++ [u]) (log db)
  | (Raise e, db') => db' = db
  end.
Proof.
  pose proof (create_user_cases data db) as H.
  destruct (create_user data db) as [[resp|e] db']; [|done].
  destruct H as (b & n & c & n' & c' & _ & _ & _ & _ & _ & _ & _ & Hnew
                 & _ & ->).
  by exists (mkUser b n' c').
Qed.

(** X13. POST /users either stores exactly the row it was sent and
    answers 201, or answers with an error and leaves the tables as
    they were.  It answers 201 only for a barcode of 13 digit
    characters that no user has yet, and the user it has stored is
    the one that GET /users/<barcode> returns afterwards. *)
Theorem created_user_is_stored_and_read_back (data : json) (db : database) :
  match create_user data db with
  | (Return resp, db') =>
      exists b n c n' c',
        get data "barcode" = Return (JStr b)
        /\ get data "nome" = Return (JStr n)
        /\ get data "cognome" = Return (JStr c)
        /\ String.length b = 13%nat /\ str_isdigit b = true
        /\ varchar 255 n = Return n' /\ varchar 255 c = Return c'
        /\ (b ∉ Sql.barcode <$> users db)
        /\ resp = mkResponse 201 (JDict [("message", JStr "Utente creato")])
        /\ db' = mkDatabase (users db ++ [mkUser b n' c']) (log db)
        /\ get_user b db'
           = (Return (mkResponse 200 (user_json (mkUser b n' c'))), db')
  | (Raise e, db') => db' = db
  end.
Proof.
  pose proof (create_user_cases data db) as H.
  destruct (create_user data db) as [[resp|e] db']; [|done].
  destruct H as (b & n & c & n' & c' & Eb & En & Ec & Hlen & Hdig & Hn' & Hc'
                 & Hnew & -> & ->).
  exists b, n, c, n', c'. repeat (split; [done|]).
  unfold get_user. rewrite Hlen, Hdig. cbn [Nat.eqb negb orb].
  unfold mbind, H_bind, select_user.
  rewrite (text_arg_str b (str_isdigit_no_nul b Hdig)). cbn [users].
  pose proof (find_barcode_new (users db) (mkUser b n' c') Hnew) as Hfind.
  cbn [Sql.barcode] in Hfind. by rewrite Hfind.
Qed.

Example anna_is_created_once :
  let data := JDict [("barcode", JStr "8001234567895");
                     ("nome", JStr "Anna"); ("cognome", JStr "Rossi")] in
  let '(r1, db1) := create_user data (mkDatabase [] []) in
  let '(r2, db2) := create_user data db1 in
  status_seen r1 = 201 /\ status_seen r2 = 409 /\ db2 = db1
  /\ users db1 = [mkUser "8001234567895" "Anna" "Rossi"].
Proof. vm_compute. done. Qed.

(** *** Barcodes from the generator *)

Lemma ean_string_checks (ds : list Z) :
  ds <> [] -> Forall EanSpec.is_digit ds ->
  String.length (Ean.ean_string ds) = length ds
  /\ str_isdigit (Ean.ean_string ds) = true.
Proof.
  intros Hne Hall. unfold Ean.ean_string, str_isdigit.
  rewrite String.list_ascii_of_string_of_list_ascii. split.
  - clear. induction ds as [|d ds IH]; [done|]. cbn. by rewrite IH.
  - apply andb_true_iff. split.
    + destruct ds; [done|]. done.
    + clear Hne. induction Hall as [|d ds Hd Hall IH]; [done|].
      cbn. rewrite IH, andb_true_r. unfold EanSpec.is_digit in Hd.
      assert (d = 0 \/ d = 1 \/ d = 2 \/ d = 3 \/ d = 4 \/ d = 5 \/ d = 6
              \/ d = 7 \/ d = 8 \/ d = 9) as Hcases by lia.
      repeat destruct Hcases as [-> | Hcases]; try subst d; reflexivity.
Qed.

Section Generated.
Context {rng : Type} (randint : Z -> Z -> rng -> Z * rng).
Hypothesis randint_range :
  forall a b g, a <= b -> a <= (randint a b g).1 <= b.

Lemma generated_checks (g : rng) :
  String.length (Ean.genera_ean13 randint g).1 = 13%nat
  /\ str_isdigit (Ean.genera_ean13 randint g).1 = true.
Proof.
  destruct (EanCheckDigit.genera_ean13_digits randint g randint_range)
    as (ds & -> & Hlen & Hall).
  destruct (ean_string_checks ds) as [H1 H2]; [by destruct ds | done |].
  by rewrite H1, H2.
Qed.

(** The [k]-th barcode that the generator yields from the state [g],
    counted from 0, with the state it leaves. *)
Fixpoint candidate (k : nat) (g : rng) : string * rng :=
  match k with
  | O => Ean.genera_ean13 randint g
  | S k' => candidate k' (Ean.genera_ean13 randint g).2
  end.

Lemma candidate_succ (k : nat) (g : rng) :
  candidate (S k) g = Ean.genera_ean13 randint (candidate k g).2.
Proof.
  revert g. induction k as [|k IH]; intros g; [done|].
  change (candidate (S (S k)) g)
    with (candidate (S k) (Ean.genera_ean13 randint g).2).
  by rewrite IH.
Qed.

Lemma candidate_checks (k : nat) (g : rng) :
  String.length (candidate k g).1 = 13%nat
  /\ str_isdigit (candidate k g).1 = true.
Proof.
  revert g. induction k as [|k IH]; intros g; [apply generated_checks|].
  apply IH.
Qed.

(** The loop variables when the [j]-th barcode is about to be looked
    up. *)
Definition vars_at (j : nat) (g : rng) : ean_vars :=
  mkEanVars (candidate j g).1 true (Z.of_nat j) (candidate j g).2.

Lemma select_barcode_found (s : string) (db : database) :
  has_nul s = false ->
  select_barcode (JStr s) db
  = (Return (if bool_decide (s ∈ Sql.barcode <$> users db)
             then Some s else None), db).
Proof.
  intros Hnul. unfold select_barcode. rewrite (text_arg_str s Hnul).
  f_equal. f_equal. induction (Sql.barcode <$> users db) as [|b bs IH].
  { done. }
  cbn. destruct (decide (b = s)) as [->|Hne].
  - rewrite !bool_decide_eq_true_2; [done | left | done].
  - rewrite (bool_decide_eq_false_2 (b = s)) by done. rewrite IH.
    rewrite (bool_decide_ext (s ∈ b :: bs) (s ∈ bs)); [done|].
    rewrite elem_of_cons. split; [|by right].
    intros [E|H]; [by subst | done].
Qed.

Lemma while_found_taken (fuel j : nat) (g : rng) (db : database) :
  (j < 10)%nat -> (candidate j g).1 ∈ Sql.barcode <$> users db ->
  while_found randint (S fuel) (vars_at j g) db
  = while_found randint fuel (vars_at (S j) g) db.
Proof.
  intros Hj Htaken. cbn [while_found vars_at found count andb].
  destruct (Z.ltb_spec (Z.of_nat j) 10); [|lia].
  unfold mbind at 1, H_bind. cbn [new_ean].
  rewrite select_barcode_found
    by (apply str_isdigit_no_nul, candidate_checks).
  rewrite bool_decide_eq_true_2 by done.
  unfold vars_at at 1 2 3 4. cbn [random_state].
  rewrite <- candidate_succ. unfold vars_at.
  destruct (candidate (S j) g) as [ean g'].
  cbn [new_ean found count random_state fst snd].
  by replace (Z.of_nat j + 1) with (Z.of_nat (S j)) by lia.
Qed.

Lemma while_found_free (fuel j : nat) (g : rng) (db : database) :
  (j < 10)%nat -> (candidate j g).1 ∉ Sql.barcode <$> users db ->
  while_found randint (S fuel) (vars_at j g) db
  = (Return (mkEanVars (candidate j g).1 false (Z.of_nat j + 1)
                       (candidate j g).2), db).
Proof.
  intros Hj Hfree. cbn [while_found vars_at found count andb].
  destruct (Z.ltb_spec (Z.of_nat j) 10); [|lia].
  unfold mbind at 1, H_bind. cbn [new_ean].
  rewrite select_barcode_found
    by (apply str_isdigit_no_nul, candidate_checks).
  rewrite bool_decide_eq_false_2 by done.
  cbn [new_ean found count random_state]. by destruct fuel.
Qed.

Lemma while_found_all_taken (n fuel j : nat) (g : rng) (db : database) :
  (j + n <= 10)%nat ->
  (forall i, (j <= i < j + n)%nat ->
             (candidate i g).1 ∈ Sql.barcode <$> users db) ->
  while_found randint (n + fuel) (vars_at j g) db
  = while_found randint fuel (vars_at (j + n) g) db.
Proof.
  revert j. induction n as [|n IH]; intros j Hj Htaken.
  { by rewrite Nat.add_0_r. }
  cbn [Nat.add]. rewrite while_found_taken by (try apply Htaken; lia).
  rewrite IH by (try lia; intros i Hi; apply Htaken; lia).
  by replace (S j + n)%nat with (j + S n)%nat by lia.
Qed.

Lemma get_new_ean_found (k : nat) (g : rng) (db : database) :
  (k < 9)%nat ->
  (candidate k g).1 ∉ Sql.barcode <$> users db ->
  (forall j, (j < k)%nat -> (candidate j g).1 ∈ Sql.barcode <$> users db) ->
  get_new_ean randint g db
  = (Return (mkResponse 200 (JDict [("new_ean", JStr (candidate k g).1)]),
             (candidate k g).2), db).
Proof.
  intros Hk Hfree Htaken. unfold get_new_ean.
  change (mkEanVars (Ean.genera_ean13 randint g).1 true 0
            (Ean.genera_ean13 randint g).2) with (vars_at 0 g).
  destruct (Ean.genera_ean13 randint g) as [ean0 g0] eqn:E0.
  change (mkEanVars ean0 true 0 g0)
    with (mkEanVars (ean0, g0).1 true 0 (ean0, g0).2).
  rewrite <- E0. change (mkEanVars _ true 0 _) with (vars_at 0 g).
  unfold mbind, H_bind.
  replace 10%nat with (k + S (9 - k))%nat by lia.
  rewrite (while_found_all_taken k (S (9 - k)) 0)
    by (try lia; intros i Hi; apply Htaken; lia).
  cbn [Nat.add]. rewrite while_found_free by (done || lia).
  cbn [count new_ean random_state].
  destruct (Z.leb_spec 10 (Z.of_nat k + 1)); [lia | done].
Qed.

Lemma get_new_ean_gives_up (g : rng) (db : database) :
  (forall j, (j < 9)%nat -> (candidate j g).1 ∈ Sql.barcode <$> users db) ->
  get_new_ean randint g db
  = (Raise (HTTPException 500
              "Non e' stato possibile trovare un ean libero"), db).
Proof.
  intros Htaken. unfold get_new_ean.
  destruct (Ean.genera_ean13 randint g) as [ean0 g0] eqn:E0.
  change (mkEanVars ean0 true 0 g0)
    with (mkEanVars (ean0, g0).1 true 0 (ean0, g0).2).
  rewrite <- E0. change (mkEanVars _ true 0 _) with (vars_at 0 g).
  unfold mbind, H_bind.
  change 10%nat with (9 + 1)%nat at 1.
  rewrite (while_found_all_taken 9 1 0)
    by (try lia; intros i Hi; apply Htaken; lia).
  cbn [Nat.add].
  destruct (decide ((candidate 9 g).1 ∈ Sql.barcode <$> users db)).
  - rewrite while_found_taken by (done || lia). done.
  - rewrite while_found_free by (done || lia). done.
Qed.
End Generated.

(** X14. Every barcode that [genera_ean13] returns passes the checks of
    the user routes: GET /users/<barcode> does not answer 400 for it,
    and POST /users with it, with names that fit their columns and a
    table that does not hold it yet, answers 201. *)
Theorem generated_barcode_is_accepted {rng : Type}
    (randint : Z -> Z -> rng -> Z * rng) (g : rng) (db : database)
    (nome cognome : string) :
  (forall a b g', a <= b -> a <= (randint a b g').1 <= b) ->
  let ean := (Ean.genera_ean13 randint g).1 in
  barcode_refused (JStr ean) = Return false
  /\ status_seen (get_user ean db).1 <> 400
  /\ (nome <> "" -> cognome <> "" ->
      has_nul nome = false -> has_nul cognome = false ->
      (String.length nome <= 255)%nat -> (String.length cognome <= 255)%nat ->
      (ean ∉ Sql.barcode <$> users db) ->
      create_user (JDict [("barcode", JStr ean); ("nome", JStr nome);
                          ("cognome", JStr cognome)]) db
      = (Return (mkResponse 201 (JDict [("message", JStr "Utente creato")])),
         mkDatabase (users db ++ [mkUser ean nome cognome]) (log db))).
Proof.
  intros Hrange ean.
  destruct (generated_checks randint Hrange g) as [Hlen Hdig].
  fold ean in Hlen, Hdig.
  assert (ean <> "") as Hne by (intros E; by rewrite E in Hlen).
  assert (barcode_refused (JStr ean) = Return false) as Hok.
  { unfold barcode_refused. cbn [truthy].
    rewrite bool_decide_eq_false_2 by done. cbn. by rewrite Hlen, Hdig. }
  split; [exact Hok|]. split.
  - unfold get_user. rewrite Hlen, Hdig. cbn [Nat.eqb negb orb].
    unfold mbind, H_bind, select_user.
    rewrite (text_arg_str ean (str_isdigit_no_nul ean Hdig)).
    by destruct (find _ _).
  - intros Hn Hc Hnn Hcn Hnl Hcl Hnew. clearbody ean.
    set (data := JDict _).
    assert (get data "barcode" = Return (JStr ean)) as Eb by reflexivity.
    assert (get data "nome" = Return (JStr nome)) as En by reflexivity.
    assert (get data "cognome" = Return (JStr cognome)) as Ec
      by reflexivity.
    unfold create_user, mbind at 1 2 3 4, H_bind, lift.
    rewrite Eb, En, Ec, Hok.
    cbn [truthy]. rewrite !bool_decide_eq_false_2 by done. cbn [negb orb].
    unfold mbind, H_bind, insert_user.
    rewrite !text_arg_str by (done || by apply str_isdigit_no_nul).
    cbn [mbind outcome_bind].
    rewrite !varchar_fits by lia. cbn [mbind outcome_bind Sql.barcode].
    by rewrite bool_decide_eq_false_2.
Qed.

Lemma generated_barcode_is_accepted_witness :
  barcode_refused (JStr (Ean.genera_ean13 Ean.lcg_randint 42).1)
  = Return false
  /\ status_seen (get_user (Ean.genera_ean13 Ean.lcg_randint 42).1
                    three_logs).1 <> 400
  /\ create_user (JDict [("barcode",
                          JStr (Ean.genera_ean13 Ean.lcg_randint 42).1);
                         ("nome", JStr "Bruno"); ("cognome", JStr "Bianchi")])
                 three_logs
     = (Return (mkResponse 201 (JDict [("message", JStr "Utente creato")])),
        mkDatabase (users three_logs
                    ++ [mkUser (Ean.genera_ean13 Ean.lcg_randint 42).1
                               "Bruno" "Bianchi"]) (log three_logs)).
Proof.
  destruct (generated_barcode_is_accepted Ean.lcg_randint 42 three_logs
              "Bruno" "Bianchi" EanSpec.lcg_randint_range) as (H1 & H2 & H3).
  split; [exact H1|]. split; [exact H2|].
  apply H3.
  - discriminate.
  - discriminate.
  - reflexivity.
  - reflexivity.
  - apply (bool_decide_unpack _). vm_compute. reflexivity.
  - apply (bool_decide_unpack _). vm_compute. reflexivity.
  - apply (bool_decide_unpack _). vm_compute. reflexivity.
Defined.

(** X15. GET /users/newean looks up at most ten generated barcodes.  It
    answers 200 with the first one that no user has when that is one
    of the first nine, leaving the tables as they are; when the first
    nine are all taken it answers 500, also when the tenth is
    free. *)
Theorem get_new_ean_returns_a_free_barcode {rng : Type}
    (randint : Z -> Z -> rng -> Z * rng) (g : rng) (db : database) :
  (forall a b g', a <= b -> a <= (randint a b g').1 <= b) ->
  (forall k,
      (k < 9)%nat ->
      (candidate randint k g).1 ∉ Sql.barcode <$> users db ->
      (forall j, (j < k)%nat ->
                 (candidate randint j g).1 ∈ Sql.barcode <$> users db) ->
      get_new_ean randint g db
      = (Return (mkResponse 200
                   (JDict [("new_ean", JStr (candidate randint k g).1)]),
                 (candidate randint k g).2), db)
      /\ String.length (candidate randint k g).1 = 13%nat
      /\ str_isdigit (candidate randint k g).1 = true)
  /\ ((forall j, (j < 9)%nat ->
                 (candidate randint j g).1 ∈ Sql.barcode <$> users db) ->
      get_new_ean randint g db
      = (Raise (HTTPException 500
                  "Non e' stato possibile trovare un ean libero"), db)).
Proof.
  intros Hrange. split.
  - intros k Hk Hfree Htaken.
    split; [by apply get_new_ean_found|].
    by apply candidate_checks.
  - by apply get_new_ean_gives_up.
Qed.

(** A table that holds the first barcode that the generator yields
    from the state 42. *)
Definition one_taken : database :=
  mkDatabase [mkUser "2743652369252" "Anna" "Rossi"] [].

Lemma get_new_ean_returns_a_free_barcode_witness :
  get_new_ean Ean.lcg_randint 42 one_taken
  = (Return (mkResponse 200
               (JDict [("new_ean", JStr (candidate Ean.lcg_randint 1 42).1)]),
             (candidate Ean.lcg_randint 1 42).2), one_taken)
  /\ String.length (candidate Ean.lcg_randint 1 42).1 = 13%nat
  /\ str_isdigit (candidate Ean.lcg_randint 1 42).1 = true.
Proof.
  destruct (get_new_ean_returns_a_free_barcode Ean.lcg_randint 42 one_taken
              EanSpec.lcg_randint_range) as [H _].
  apply (H 1%nat).
  - lia.
  - apply (bool_decide_unpack _). vm_compute. reflexivity.
  - intros j Hj. assert (j = 0%nat) as -> by lia.
    apply (bool_decide_unpack _). vm_compute. reflexivity.
Defined.

(** *** Logs *)

Lemma eq_str_true (v : json) (s : string) :
  eq_str v s = true -> v = JStr s.
Proof.
  destruct v; cbn; try done. by intros ->%bool_decide_eq_true_1.
Qed.

(** What an INSERT into [log] does. *)
Lemma insert_log_cases (env : insert_env) (vb vd : json)
    (t : option (option Z)) (db : database) :
  match insert_log env vb vd t db with
  | (Return i, db') =>
      exists b d b' d' dir,
        vb = JStr b /\ vd = JStr d
        /\ varchar 13 b = Return b' /\ varchar 10 d = Return d'
        /\ direction_of d' = Return dir
        /\ i = nextval env
        /\ (nextval env ∉ id <$> log db)
        /\ b' ∈ Sql.barcode <$> users db
        /\ db' = mkDatabase (users db)
                   (log db
                    ++ [mkLog (nextval env) b'
                          (default (Some (current_timestamp env)) t) dir])
  | (Raise e, db') => db' = db
  end.
Proof.
  unfold insert_log.
  destruct (text_arg vb) as [[b|]|] eqn:Hb; cbn [mbind outcome_bind];
    [| |done]; last first.
  { by destruct (text_arg vd) as [[?|]|]. }
  destruct (text_arg vd) as [[d|]|] eqn:Hd; cbn [mbind outcome_bind];
    [|done|done].
  destruct (varchar 13 b) as [b'|] eqn:Hb'; cbn [mbind outcome_bind];
    [|done].
  destruct (varchar 10 d) as [d'|] eqn:Hd'; cbn [mbind outcome_bind];
    [|done].
  destruct (direction_of d') as [dir|] eqn:Hdir; cbn [mbind outcome_bind];
    [|done].
  cbn [id log_barcode]. case_bool_decide as Hdup; [done|].
  case_bool_decide as Hfk; [|done].
  apply text_arg_some in Hb as [-> _]. apply text_arg_some in Hd as [-> _].
  by exists b, d, b', d', dir.
Qed.

Section Logs.
Variable timestamptz_arg : json -> outcome Z.

(** What POST /logs does. *)
Lemma create_log_cases (env : insert_env) (data : json) (db : database) :
  match create_log timestamptz_arg env data db with
  | (Return resp, db') =>
      exists b b' dir t,
        get data "barcode" = Return (JStr b)
        /\ b ∈ Sql.barcode <$> users db
        /\ varchar 13 b = Return b'
        /\ b' ∈ Sql.barcode <$> users db
        /\ (get data "direction" = Return (JStr "CHECKIN") /\ dir = CHECKIN
            \/ get data "direction" = Return (JStr "CHECKOUT")
               /\ dir = CHECKOUT)
        /\ (exists v, get data "event_time" = Return v
                      /\ if truthy v
                         then exists t', timestamptz_arg v = Return t'
                                         /\ t = Some t'
                         else t = Some (current_timestamp env))
        /\ (nextval env ∉ id <$> log db)
        /\ resp = mkResponse 201 (JDict [("message", JStr "Log creato");
                                         ("id", JInt (nextval env))])
        /\ db' = mkDatabase (users db)
                   (log db ++ [mkLog (nextval env) b' t dir])
  | (Raise e, db') => db' = db
  end.
Proof.
  unfold create_log, mbind at 1 2 3, H_bind, lift.
  destruct (get data "barcode") as [vb|] eqn:Eb; [|done].
  destruct (get data "direction") as [vd|] eqn:Ed; [|done].
  destruct (get data "event_time") as [vt|] eqn:Et; [|done].
  destruct (truthy vb) eqn:Tb; [|done]. cbn [negb].
  destruct (eq_str vd "CHECKIN" || eq_str vd "CHECKOUT") eqn:Edir;
    [|done]. cbn [negb].
  unfold mbind at 1, H_bind, select_user_exists.
  destruct (text_arg vb) as [[b|]|] eqn:Hb; [|done|done].
  apply text_arg_some in Hb as [-> Hnul].
  case_bool_decide as Huser; [|done].
  unfold mbind at 1, H_bind.
  set (ins := if truthy vt then _ else _).
  assert (match ins db with
          | (Return i, db') =>
              exists b' dir t,
                varchar 13 b = Return b'
                /\ b' ∈ Sql.barcode <$> users db
                /\ (vd = JStr "CHECKIN" /\ dir = CHECKIN
                    \/ vd = JStr "CHECKOUT" /\ dir = CHECKOUT)
                /\ (if truthy vt
                    then exists t', timestamptz_arg vt = Return t'
                                    /\ t = Some t'
                    else t = Some (current_timestamp env))
                /\ i = nextval env
                /\ (nextval env ∉ id <$> log db)
                /\ db' = mkDatabase (users db)
                           (log db ++ [mkLog (nextval env) b' t dir])
          | (Raise e, db') => db' = db
          end) as Hins.
  { assert (forall d' dir, vd = JStr d' -> varchar 10 d' = Return d' ->
                           direction_of d' = Return dir ->
                           vd = JStr "CHECKIN" /\ dir = CHECKIN
                           \/ vd = JStr "CHECKOUT" /\ dir = CHECKOUT)
      as Hdirs.
    { intros d' dir -> _ Hdir. unfold direction_of in Hdir.
      repeat case_bool_decide; subst; try done;
        injection Hdir as <-; [by left | by right]. }
    assert (forall d d', vd = JStr d -> varchar 10 d = Return d' -> d' = d)
      as Hfit.
    { intros d d' -> Hd. apply orb_true_iff in Edir.
      destruct Edir as [->%bool_decide_eq_true_1 | ->%bool_decide_eq_true_1];
        cbn in Hd; by injection Hd as <-. }
    subst ins. destruct (truthy vt).
    - unfold mbind, H_bind, lift.
      destruct (timestamptz_arg vt) as [t'|] eqn:Ht; [|done].
      pose proof (insert_log_cases env (JStr b) vd (Some (Some t')) db) as H.
      destruct (insert_log env (JStr b) vd (Some (Some t')) db)
        as [[i|e] db1]; [|done].
      destruct H as (b0 & d & b' & d' & dir & [= <-] & -> & Hb' & Hd' & Hdir
                     & -> & Hid & Hfk & ->).
      pose proof (Hfit d d' eq_refl Hd') as ->.
      exists b', dir, (Some t'). repeat (split; [by eauto|]). done.
    - pose proof (insert_log_cases env (JStr b) vd None db) as H.
      destruct (insert_log env (JStr b) vd None db) as [[i|e] db1]; [|done].
      destruct H as (b0 & d & b' & d' & dir & [= <-] & -> & Hb' & Hd' & Hdir
                     & -> & Hid & Hfk & ->).
      pose proof (Hfit d d' eq_refl Hd') as ->.
      exists b', dir, (Some (current_timestamp env)).
      repeat (split; [by eauto|]). done. }
  destruct (ins db) as [[i|e] db1]; [|done].
  destruct Hins as (b' & dir & t & Hb' & Hfk & Hdir & Ht & -> & Hid & ->).
  cbn [mret H_ret].
  exists b, b', dir, t. split; [done|]. split; [done|]. split; [done|].
  split; [done|]. split.
  { destruct Hdir as [[-> ->]|[-> ->]]; [by left | by right]. }
  split; [by exists vt|]. done.
Qed.

(** The tables after an event of [u] later than all the events that
    [u] had. *)
Lemma view_after_event (collate : relation string) `{!RelDecision collate}
    (db : database) (u : user_row) (i now : Z) (dir : direction) :
  TotalOrder collate ->
  NoDup (Sql.barcode <$> users db) ->
  u ∈ users db ->
  (forall l, l ∈ log db -> log_barcode l = Sql.barcode u ->
             exists t, event_time l = Some t /\ t < now) ->
  filter (fun r => r_barcode r = Sql.barcode u)
         (LAST_INBOUND_SQL collate
            (mkDatabase (users db)
               (log db ++ [mkLog i (Sql.barcode u) (Some now) dir])))
  = match dir with
    | CHECKIN => [mkInbound (Sql.barcode u) (nome u) (cognome u) (Some now)]
    | CHECKOUT => []
    end.
Proof.
  intros Hord Hkey Hu Hearlier.
  set (new := mkLog i (Sql.barcode u) (Some now) dir).
  apply (ViewRows.rows_of_latest_event collate
           (mkDatabase (users db) (log db ++ [new])) u new); try done.
  - cbn [log]. apply elem_of_app. right. left.
  - cbn [log]. intros l' [Hl'| ->%list_elem_of_singleton]%elem_of_app Hb.
    + destruct (Hearlier l' Hl' Hb) as (t & -> & Ht). cbn. lia.
    + cbn. lia.
  - cbn [log]. intros l' [Hl'| ->%list_elem_of_singleton]%elem_of_app Hb Ht;
      [|done].
    destruct (Hearlier l' Hl' Hb) as (t & Et & Hlt).
    rewrite Et in Ht. cbn in Ht. lia.
Qed.
End Logs.

(** X16. POST /logs either stores exactly one event and answers 201
    with its id, or answers with an error and leaves the tables as
    they were.  It stores an event only for the barcode of a user of
    the table and with the direction CHECKIN or CHECKOUT that it was
    sent; without an [event_time] in the body the event carries the
    time of the database. *)
Theorem create_log_stores_one_event
    (timestamptz_arg : json -> outcome Z) (env : insert_env)
    (data : json) (db : database) :
  (forall resp db',
      create_log timestamptz_arg env data db = (Return resp, db') ->
      exists b dir t,
        b ∈ Sql.barcode <$> users db
        /\ (get data "direction" = Return (JStr "CHECKIN") /\ dir = CHECKIN
            \/ get data "direction" = Return (JStr "CHECKOUT")
               /\ dir = CHECKOUT)
        /\ (get data "event_time" = Return JNull ->
            t = Some (current_timestamp env))
        /\ resp = mkResponse 201 (JDict [("message", JStr "Log creato");
                                         ("id", JInt (nextval env))])
        /\ users db' = users db
        /\ log db' = log db ++ [mkLog (nextval env) b t dir])
  /\ (forall e db',
         create_log timestamptz_arg env data db = (Raise e, db') ->
         db' = db).
Proof.
  pose proof (create_log_cases timestamptz_arg env data db) as H.
  split.
  - intros resp db' E. rewrite E in H.
    destruct H as (b & b' & dir & t & _ & _ & _ & Hb' & Hdir
                   & (v & Ev & Ht) & _ & -> & ->).
    exists b', dir, t. repeat (split; [done|]). split; [|done].
    intros Enull. rewrite Enull in Ev. injection Ev as <-. exact Ht.
  - intros e db' E. by rewrite E in H.
Qed.

Definition noon : insert_env := mkInsertEnv 4 4000.

Definition refuses_all (v : json) : outcome Z := Raise PostgresError.

Lemma create_log_stores_one_event_witness :
  exists b dir t,
    b ∈ Sql.barcode <$> users three_logs
    /\ (get (JDict [("barcode", JStr "8001234567895");
                    ("direction", JStr "CHECKOUT")]) "direction"
        = Return (JStr "CHECKIN") /\ dir = CHECKIN
        \/ get (JDict [("barcode", JStr "8001234567895");
                       ("direction", JStr "CHECKOUT")]) "direction"
           = Return (JStr "CHECKOUT") /\ dir = CHECKOUT)
    /\ (get (JDict [("barcode", JStr "8001234567895");
                    ("direction", JStr "CHECKOUT")]) "event_time"
        = Return JNull -> t = Some (current_timestamp noon))
    /\ mkResponse 201 (JDict [("message", JStr "Log creato");
                              ("id", JInt 4)])
       = mkResponse 201 (JDict [("message", JStr "Log creato");
                                ("id", JInt (nextval noon))])
    /\ users (mkDatabase (users three_logs)
                (log three_logs
                 ++ [mkLog 4 "8001234567895" (Some 4000) CHECKOUT]))
       = users three_logs
    /\ log (mkDatabase (users three_logs)
              (log three_logs
               ++ [mkLog 4 "8001234567895" (Some 4000) CHECKOUT]))
       = log three_logs ++ [mkLog (nextval noon) b t dir].
Proof.
  destruct (create_log_stores_one_event refuses_all noon
              (JDict [("barcode", JStr "8001234567895");
                      ("direction", JStr "CHECKOUT")]) three_logs)
    as [H _].
  apply H. vm_compute. reflexivity.
Defined.

(** X17. A check-in through POST /logs puts the user on the derived
    view and a check-out takes the user off it: after a request
    without [event_time] that answers 201, for a user whose earlier
    events all have times before the time of the database, the view
    has exactly one row for the barcode, with the names of the user
    and that time, when the direction was CHECKIN, and no row for it
    when the direction was CHECKOUT. *)
Theorem check_in_and_out_reach_the_view
    (collate : relation string) `{!RelDecision collate}
    (timestamptz_arg : json -> outcome Z) (env : insert_env)
    (data direction : json) (db db' : database) (resp : response)
    (u : user_row) :
  TotalOrder collate ->
  NoDup (Sql.barcode <$> users db) ->
  u ∈ users db ->
  (String.length (Sql.barcode u) <= 13)%nat ->
  (forall l, l ∈ log db -> log_barcode l = Sql.barcode u ->
             exists t, event_time l = Some t /\ t < current_timestamp env) ->
  get data "barcode" = Return (JStr (Sql.barcode u)) ->
  get data "direction" = Return direction ->
  get data "event_time" = Return JNull ->
  create_log timestamptz_arg env data db = (Return resp, db') ->
  filter (fun r => r_barcode r = Sql.barcode u) (LAST_INBOUND_SQL collate db')
  = if eq_str direction "CHECKIN"
    then [mkInbound (Sql.barcode u) (nome u) (cognome u)
                    (Some (current_timestamp env))]
    else [].
Proof.
  intros Hord Hkey Hu Hlen Hearlier Eb Ed Et Erun.
  pose proof (create_log_cases timestamptz_arg env data db) as H.
  rewrite Erun in H.
  destruct H as (b & b' & dir & t & Eb' & _ & Hb' & _ & Hdir
                 & (v & Ev & Ht) & _ & _ & ->).
  rewrite Eb in Eb'. injection Eb' as <-.
  rewrite varchar_fits in Hb' by done. injection Hb' as <-.
  rewrite Et in Ev. injection Ev as <-. cbn in Ht. subst t.
  rewrite (view_after_event collate db u (nextval env)
             (current_timestamp env) dir) by done.
  rewrite Ed in Hdir.
  by destruct Hdir as [[[= ->] ->]|[[= ->] ->]].
Qed.

Lemma check_in_and_out_reach_the_view_witness :
  filter (fun r => r_barcode r = "8001234567895")
         (LAST_INBOUND_SQL byte_order
            (mkDatabase (users three_logs)
               (log three_logs
                ++ [mkLog 4 "8001234567895" (Some 4000) CHECKOUT])))
  = [].
Proof.
  apply (check_in_and_out_reach_the_view byte_order refuses_all noon
           (JDict [("barcode", JStr "8001234567895");
                   ("direction", JStr "CHECKOUT")])
           (JStr "CHECKOUT") three_logs _
           (mkResponse 201 (JDict [("message", JStr "Log creato");
                                   ("id", JInt 4)]))
           (mkUser "8001234567895" "Anna" "Rossi")).
  - apply byte_order_total_order.
  - apply (bool_decide_unpack _). vm_compute. reflexivity.
  - left.
  - cbn. lia.
  - intros l Hl _. cbn in Hl.
    repeat (apply elem_of_cons in Hl as [->|Hl]);
      try (eexists; split; [reflexivity | cbn; lia]).
    by apply elem_of_nil in Hl.
  - reflexivity.
  - reflexivity.
  - reflexivity.
  - vm_compute. reflexivity.
Defined.

(** *** The keys of the tables *)

(** [barcode] is a key of [users], [id] is a key of [log], and every
    log row refers to a user. *)
Definition consistent (db : database) : Prop :=
  NoDup (Sql.barcode <$> users db)
  /\ NoDup (id <$> log db)
  /\ forall l, l ∈ log db -> log_barcode l ∈ Sql.barcode <$> users db.

Lemma NoDup_fmap_filter {A K} (key : A -> K) (P : A -> Prop)
    `{!forall x, Decision (P x)} (l : list A) :
  NoDup (key <$> l) -> NoDup (key <$> filter P l).
Proof.
  induction l as [|x l IH]; [done|].
  rewrite fmap_cons, NoDup_cons. intros [Hx Hl].
  rewrite filter_cons. case_decide; [|by apply IH].
  rewrite fmap_cons, NoDup_cons. split; [|by apply IH].
  intros (y & E & Hy)%list_elem_of_fmap. apply Hx.
  apply list_elem_of_fmap. exists y.
  by apply list_elem_of_filter in Hy as [_ Hy].
Qed.

Lemma NoDup_fmap_snoc {A K} (key : A -> K) (l : list A) (x : A) :
  NoDup (key <$> l) -> key x ∉ key <$> l -> NoDup (key <$> l ++ [x]).
Proof.
  intros Hl Hx. rewrite fmap_app. apply NoDup_app. split; [done|].
  split; [|apply NoDup_singleton].
  intros k Hk ->%list_elem_of_singleton. by apply Hx.
Qed.

Lemma create_user_tables (data : json) (db : database) :
  (create_user data db).2 = db
  \/ exists u, (Sql.barcode u ∉ Sql.barcode <$> users db)
               /\ (create_user data db).2
                  = mkDatabase (users db ++ [u]) (log db).
Proof.
  pose proof (created_user_tables data db) as H.
  destruct (create_user data db) as [[resp|e] db']; cbn [snd].
  - right. destruct H as (u & Hu & ->). by exists u.
  - by left.
Qed.

Lemma while_found_tables {rng : Type} (randint : Z -> Z -> rng -> Z * rng)
    (fuel : nat) (v : ean_vars) (db : database) :
  (while_found randint fuel v db).2 = db.
Proof.
  revert v. induction fuel as [|fuel IH]; intros v; cbn [while_found].
  { by destruct (found v && (count v <? 10)). }
  destruct (found v && (count v <? 10)); [|done].
  unfold mbind, H_bind, select_barcode.
  destruct (text_arg (JStr (new_ean v))) as [[b|]|]; [| |done]; apply IH.
Qed.

(** X18. No request breaks the keys of the tables: when [barcode] is a
    key of [users], [id] a key of [log] and every log row refers to a
    user, the same holds after POST /users, DELETE /users/<barcode>,
    POST /logs and DELETE /logs/<id>, however they end; and GET
    /users/<barcode> and GET /users/newean change nothing. *)
Theorem routes_keep_the_keys {rng : Type}
    (randint : Z -> Z -> rng -> Z * rng) (g : rng)
    (timestamptz_arg : json -> outcome Z) (env : insert_env)
    (data : json) (barcode : string) (log_id : Z) (db : database) :
  consistent db ->
  consistent (create_user data db).2
  /\ consistent (delete_user barcode db).2
  /\ consistent (create_log timestamptz_arg env data db).2
  /\ consistent (delete_log log_id db).2
  /\ (get_user barcode db).2 = db
  /\ (get_new_ean randint g db).2 = db.
Proof.
  intros (Hu & Hl & Hfk). repeat split.
  - destruct (create_user_tables data db) as [-> | (u & Hnew & ->)]; [done|].
    cbn [users]. by apply NoDup_fmap_snoc.
  - destruct (create_user_tables data db) as [-> | (u & Hnew & ->)]; done.
  - destruct (create_user_tables data db) as [-> | (u & Hnew & ->)];
      [done|]. cbn [users log]. intros l Hin. rewrite fmap_app.
    apply elem_of_app. left. by apply Hfk.
  - destruct (has_nul barcode) eqn:Hnul.
    + by rewrite delete_user_refused.
    + rewrite delete_user_run by done. cbn [snd users].
      by apply NoDup_fmap_filter.
  - destruct (has_nul barcode) eqn:Hnul.
    + by rewrite delete_user_refused.
    + rewrite delete_user_run by done. cbn [snd log].
      by apply NoDup_fmap_filter.
  - destruct (has_nul barcode) eqn:Hnul.
    + by rewrite delete_user_refused.
    + rewrite delete_user_run by done. cbn [snd log users].
      intros l [Hne Hin]%list_elem_of_filter.
      destruct (proj1 (list_elem_of_fmap _ _ _) (Hfk l Hin))
        as (u & E & Hu').
      apply list_elem_of_fmap. exists u. split; [done|].
      apply list_elem_of_filter. split; [congruence | done].
  - pose proof (create_log_cases timestamptz_arg env data db) as H.
    destruct (create_log timestamptz_arg env data db) as [[resp|e] db'];
      cbn [snd]; [|by subst].
    by destruct H as (? & ? & ? & ? & _ & _ & _ & _ & _ & _ & _ & _ & ->).
  - pose proof (create_log_cases timestamptz_arg env data db) as H.
    destruct (create_log timestamptz_arg env data db) as [[resp|e] db'];
      cbn [snd]; [|by subst].
    destruct H as (? & ? & ? & ? & _ & _ & _ & _ & _ & _ & Hid & _ & ->).
    cbn [log]. by apply NoDup_fmap_snoc.
  - pose proof (create_log_cases timestamptz_arg env data db) as H.
    destruct (create_log timestamptz_arg env data db) as [[resp|e] db'];
      cbn [snd]; [|by subst].
    destruct H as (? & ? & ? & ? & _ & _ & _ & Hb' & _ & _ & _ & _ & ->).
    cbn [log users].
    intros l [Hin| ->%list_elem_of_singleton]%elem_of_app;
      [by apply Hfk | done].
  - destruct (decide (-2147483648 <= log_id <= 2147483647)).
    + by rewrite delete_log_run.
    + by rewrite delete_log_refused.
  - destruct (decide (-2147483648 <= log_id <= 2147483647)).
    + rewrite delete_log_run by done. cbn [snd log].
      by apply NoDup_fmap_filter.
    + by rewrite delete_log_refused.
  - destruct (decide (-2147483648 <= log_id <= 2147483647)).
    + rewrite delete_log_run by done. cbn [snd log users].
      intros l [_ Hin]%list_elem_of_filter. by apply Hfk.
    + by rewrite delete_log_refused.
  - unfold get_user. destruct (_ || _); [done|].
    unfold mbind, H_bind, select_user.
    destruct (text_arg (JStr barcode)) as [[b|]|]; [|done|done].
    by destruct (find _ _).
  - unfold get_new_ean. destruct (Ean.genera_ean13 randint g) as [ean g0].
    unfold mbind, H_bind.
    pose proof (while_found_tables randint 10 (mkEanVars ean true 0 g0) db)
      as H.
    destruct (while_found randint 10 (mkEanVars ean true 0 g0) db)
      as [[v|e] db']; cbn [snd] in H; subst db'; [|done].
    by destruct (10 <=? count v).
Qed.

Lemma three_logs_consistent : consistent three_logs.
Proof.
  split; [|split].
  - apply (bool_decide_unpack _). vm_compute. reflexivity.
  - apply (bool_decide_unpack _). vm_compute. reflexivity.
  - intros l Hl. cbn in Hl.
    repeat (apply elem_of_cons in Hl as [->|Hl]); try (by left).
    by apply elem_of_nil in Hl.
Qed.

Lemma routes_keep_the_keys_witness :
  consistent (create_user (JDict [("barcode", JStr "8009876543210");
                                  ("nome", JStr "Bruno");
                                  ("cognome", JStr "Bianchi")])
                three_logs).2
  /\ consistent (delete_user "8001234567895" three_logs).2
  /\ consistent (create_log refuses_all noon
                   (JDict [("barcode", JStr "8009876543210");
                           ("nome", JStr "Bruno");
                           ("cognome", JStr "Bianchi")]) three_logs).2
  /\ consistent (delete_log 2 three_logs).2
  /\ (get_user "8001234567895" three_logs).2 = three_logs
  /\ (get_new_ean Ean.lcg_randint 42 three_logs).2 = three_logs.
Proof.
  apply (routes_keep_the_keys Ean.lcg_randint 42 refuses_all noon
           (JDict [("barcode", JStr "8009876543210");
                   ("nome", JStr "Bruno"); ("cognome", JStr "Bianchi")])
           "8001234567895" 2 three_logs).
  apply three_logs_consistent.
Defined.

(** *** The query of GET /logs *)

(** A filter of the query string that is given and not empty, with the
    comparison it stands for. *)
Definition given (comparison : string) (v : option string)
  : list (string * string) :=
  match v with
  | Some s => if bool_decide (s = "") then [] else [(comparison, s)]
  | None => []
  end.

(** X19. The query of GET /logs numbers its placeholders as it lists
    its arguments: for every combination of the filters [barcode],
    [from] and [to], the [i]-th filter that is given and not empty
    adds the condition on [$i] and is the [i]-th argument, and
    nothing else is added. *)
Theorem logs_query_numbers_its_arguments
    (barcode from_date to_date : option string) :
  let filters :=
    given "barcode =" barcode ++ given "event_time >=" from_date
    ++ given "event_time <=" to_date in
  logs_query barcode from_date to_date
  = (select_logs
     +:+ String.concat ""
           (imap (fun i f => " AND " +:+ f.1 +:+ " $"
                             +:+ Py.str (Z.of_nat (S i))) filters)
     +:+ " ORDER BY event_time DESC",
     filters.*2).
Proof.
  cbv zeta. unfold logs_query, given.
  destruct barcode as [b|], from_date as [f|], to_date as [t|];
    repeat case_bool_decide; cbn [negb]; reflexivity.
Qed.

(** *** Reading the log *)

Lemma find_id_new (ls : list log_row) (l : log_row) :
  id l ∉ id <$> ls ->
  List.find (fun l' => bool_decide (id l' = id l)) (ls ++ [l]) = Some l.
Proof.
  induction ls as [|l' ls IH]; intros Hnew; cbn.
  { by rewrite bool_decide_eq_true_2. }
  rewrite fmap_cons, not_elem_of_cons in Hnew. destruct Hnew as [Hne Hnew].
  rewrite bool_decide_eq_false_2 by done. by apply IH.
Qed.

Lemma find_id_key (ls : list log_row) (l : log_row) :
  NoDup (id <$> ls) -> l ∈ ls ->
  List.find (fun l' => bool_decide (id l' = id l)) ls = Some l.
Proof.
  induction ls as [|l' ls IH]; intros Hkey Hl; [by apply elem_of_nil in Hl|].
  rewrite fmap_cons in Hkey. apply NoDup_cons in Hkey as [Hl' Hkey]. cbn.
  apply elem_of_cons in Hl as [<-|Hl].
  { by rewrite bool_decide_eq_true_2. }
  rewrite bool_decide_eq_false_2; [by apply IH|].
  intros E. apply Hl'. rewrite E. apply list_elem_of_fmap. by exists l.
Qed.

Lemma find_id_none (ls : list log_row) (i : Z) :
  i ∉ id <$> ls ->
  List.find (fun l' => bool_decide (id l' = i)) ls = None.
Proof.
  induction ls as [|l' ls IH]; intros Hnew; [done|]. cbn.
  rewrite fmap_cons, not_elem_of_cons in Hnew. destruct Hnew as [Hne Hnew].
  rewrite bool_decide_eq_false_2 by done. by apply IH.
Qed.

Lemma int4_arg_fits (n : Z) :
  -2147483648 <= n <= 2147483647 -> int4_arg n = Return n.
Proof.
  intros Hn. unfold int4_arg.
  destruct (Z.leb_spec (-2147483648) n); [|lia].
  by destruct (Z.leb_spec n 2147483647); [|lia].
Qed.

(** The item that GET /logs and GET /logs/<id> make of a row whose time
    the driver decodes to [dt]. *)
Definition json_of_log (l : log_row) (dt : datetime) : json :=
  JDict [("id", JInt (id l)); ("barcode", JStr (log_barcode l));
         ("event_time", JStr (isoformat dt));
         ("direction", JStr (direction_text (log_direction l)))].

Lemma get_log_of_row (l : log_row) (db : database) :
  -2147483648 <= id l <= 2147483647 ->
  List.find (fun l' => bool_decide (id l' = id l)) (log db) = Some l ->
  get_log (id l) db
  = (match event_time l with
     | None => Raise AttributeError
     | Some us =>
         match timestamptz_decode us with
         | Py.Ok dt => Return (mkResponse 200 (json_of_log l dt))
         | Py.Raise _ => Raise OverflowError
         end
     end, db).
Proof.
  intros Hid Hfind. unfold get_log, mbind at 1, H_bind, select_log.
  rewrite (int4_arg_fits _ Hid), Hfind. unfold decode_log, decode_event_time.
  destruct (event_time l) as [us|]; [|done].
  by destruct (timestamptz_decode us).
Qed.

(** X21. GET /logs/<id> answers 404 when the log has no row with that
    id; with [id] the key of [log] it answers 200 with the id, barcode,
    time and direction of the row when the time of the row lies in the
    years 1001 to 9998, and 500 when the time of the row is NULL. *)
Theorem get_log_reads_the_row (log_id : Z) (db : database) :
  -2147483648 <= log_id <= 2147483647 ->
  (log_id ∉ id <$> log db ->
   get_log log_id db = (Raise (HTTPException 404 "Log non trovato"), db))
  /\ (forall l,
        NoDup (id <$> log db) -> l ∈ log db -> id l = log_id ->
        match event_time l with
        | None => get_log log_id db = (Raise AttributeError, db)
        | Some us =>
            SyncRuns.year_start_us 1001 <= us < SyncRuns.year_start_us 9999 ->
            exists dt,
              timestamptz_decode us = Py.Ok dt
              /\ get_log log_id db
                 = (Return (mkResponse 200 (json_of_log l dt)), db)
        end).
Proof.
  intros Hid. split.
  - intros Hnone. unfold get_log, mbind at 1, H_bind, select_log.
    by rewrite (int4_arg_fits _ Hid), (find_id_none _ _ Hnone).
  - intros l Hkey Hl <-.
    rewrite (get_log_of_row l db Hid (find_id_key _ _ Hkey Hl)).
    destruct (event_time l) as [us|]; [|done]. intros Hus.
    destruct (SyncRuns.timestamptz_decode_spec us Hus) as (dt & -> & _).
    by exists dt.
Qed.

Definition timeless_log : database :=
  mkDatabase [mkUser "8001234567895" "Anna" "Rossi"]
    [mkLog 1 "8001234567895" (Some 1705312800000000) CHECKIN;
     mkLog 2 "8001234567895" None CHECKOUT].

Lemma get_log_reads_the_row_witness :
  get_log 3 timeless_log
  = (Raise (HTTPException 404 "Log non trovato"), timeless_log)
  /\ get_log 2 timeless_log = (Raise AttributeError, timeless_log)
  /\ exists dt,
       timestamptz_decode 1705312800000000 = Py.Ok dt
       /\ get_log 1 timeless_log
          = (Return (mkResponse 200
                       (json_of_log
                          (mkLog 1 "8001234567895" (Some 1705312800000000)
                                 CHECKIN) dt)), timeless_log).
Proof.
  assert (NoDup (id <$> log timeless_log)) as Hkey.
  { apply (bool_decide_unpack _). vm_compute. reflexivity. }
  split; [|split].
  - apply (get_log_reads_the_row 3 timeless_log); [lia|].
    apply (bool_decide_unpack _). vm_compute. reflexivity.
  - destruct (get_log_reads_the_row 2 timeless_log) as [_ H]; [lia|].
    apply (H (mkLog 2 "8001234567895" None CHECKOUT) Hkey);
      [right; left | reflexivity].
  - destruct (get_log_reads_the_row 1 timeless_log) as [_ H]; [lia|].
    apply (H (mkLog 1 "8001234567895" (Some 1705312800000000) CHECKIN) Hkey);
      [left | reflexivity |].
    vm_compute. split; [discriminate | reflexivity].
Defined.

Example first_log_in_iso_format :
  (get_log 1 timeless_log).1
  = Return (mkResponse 200
              (JDict [("id", JInt 1); ("barcode", JStr "8001234567895");
                      ("event_time", JStr "2024-01-15T10:00:00+00:00");
                      ("direction", JStr "CHECKIN")])).
Proof. vm_compute. reflexivity. Qed.

(** X22. An event stored by POST /logs is read back by GET /logs/<id>:
    after a request that answers 201, with an id within the range of
    the column and, when the body has no [event_time], a database time
    in the years 1001 to 9998, GET /logs/<id> for the id of the answer
    returns 200 with that id, the barcode of a user of the table and
    the direction that was sent. *)
Theorem created_log_is_read_back
    (timestamptz_arg : json -> outcome Z) (env : insert_env)
    (data : json) (db db' : database) (resp : response) :
  -2147483648 <= nextval env <= 2147483647 ->
  SyncRuns.year_start_us 1001 <= current_timestamp env
  < SyncRuns.year_start_us 9999 ->
  get data "event_time" = Return JNull ->
  create_log timestamptz_arg env data db = (Return resp, db') ->
  exists b dir dt,
    b ∈ Sql.barcode <$> users db
    /\ get data "direction" = Return (JStr (direction_text dir))
    /\ timestamptz_decode (current_timestamp env) = Py.Ok dt
    /\ body resp = JDict [("message", JStr "Log creato");
                          ("id", JInt (nextval env))]
    /\ get_log (nextval env) db'
       = (Return (mkResponse 200
                    (json_of_log
                       (mkLog (nextval env) b
                              (Some (current_timestamp env)) dir) dt)), db').
Proof.
  intros Hid Hnow Et Erun.
  pose proof (create_log_cases timestamptz_arg env data db) as H.
  rewrite Erun in H.
  destruct H as (b & b' & dir & t & _ & _ & _ & Hb' & Hdir
                 & (v & Ev & Ht) & Hnew & -> & ->).
  rewrite Et in Ev. injection Ev as <-. cbn in Ht. subst t.
  destruct (SyncRuns.timestamptz_decode_spec _ Hnow) as (dt & Edt & _).
  exists b', dir, dt. split; [done|]. split.
  { by destruct Hdir as [[-> ->]|[-> ->]]. }
  split; [done|]. split; [done|].
  set (new := mkLog (nextval env) b' (Some (current_timestamp env)) dir).
  rewrite (get_log_of_row new) by (done || by apply find_id_new).
  cbn [event_time new]. by rewrite Edt.
Qed.

Lemma created_log_is_read_back_witness :
  exists b dir dt,
    b ∈ Sql.barcode <$> users three_logs
    /\ get (JDict [("barcode", JStr "8001234567895");
                   ("direction", JStr "CHECKOUT")]) "direction"
       = Return (JStr (direction_text dir))
    /\ timestamptz_decode 4000 = Py.Ok dt
    /\ body (mkResponse 201 (JDict [("message", JStr "Log creato");
                                    ("id", JInt 4)]))
       = JDict [("message", JStr "Log creato"); ("id", JInt 4)]
    /\ get_log 4
         (mkDatabase (users three_logs)
            (log three_logs
             ++ [mkLog 4 "8001234567895" (Some 4000) CHECKOUT]))
       = (Return (mkResponse 200
                    (json_of_log (mkLog 4 b (Some 4000) dir) dt)),
          mkDatabase (users three_logs)
            (log three_logs
             ++ [mkLog 4 "8001234567895" (Some 4000) CHECKOUT])).
Proof.
  apply (created_log_is_read_back refuses_all noon
           (JDict [("barcode", JStr "8001234567895");
                   ("direction", JStr "CHECKOUT")]) three_logs).
  - cbn. lia.
  - vm_compute. split; [discriminate | reflexivity].
  - reflexivity.
  - vm_compute. reflexivity.
Defined.

(** *** Listing the log *)

Lemma traverse_raises {A B} (f : A -> outcome B) (l : list A) (x : A) :
  x ∈ l -> (exists e, f x = Raise e) ->
  exists y e, y ∈ l /\ f y = Raise e /\ traverse f l = Raise e.
Proof.
  intros Hx [e He]. induction l as [|a l IH]; [by apply elem_of_nil in Hx|].
  cbn. destruct (f a) as [b|e'] eqn:Ea; cbn.
  - apply elem_of_cons in Hx as [->|Hx]; [congruence|].
    destruct (IH Hx) as (y & e1 & Hy & Ey & ->). cbn.
    exists y, e1. split; [by right | done].
  - exists a, e'. split; [left | done].
Qed.

Section Listing.
Variable timestamptz_arg : json -> outcome Z.

Lemma fetch_logs_all (db : database) :
  fetch_logs timestamptz_arg None None None db
  = (traverse decode_log (merge_sort most_recent_first (log db)), db).
Proof.
  unfold fetch_logs. cbn. do 3 f_equal.
  induction (log db) as [|l ls IH]; [done|].
  rewrite filter_cons, decide_True; [by rewrite IH|].
  unfold kept_by. done.
Qed.

Lemma decode_log_fields (l : log_row) (r : log_record) :
  decode_log l = Return r ->
  rec_id r = id l /\ rec_barcode r = log_barcode l
  /\ (event_time l = None <-> rec_event_time r = None).
Proof.
  unfold decode_log, decode_event_time.
  destruct (event_time l) as [us|].
  - destruct (timestamptz_decode us); [|done]. intros [= <-]. cbn.
    by repeat split.
  - intros [= <-]. by repeat split.
Qed.
End Listing.

Global Instance most_recent_first_trans : Transitive most_recent_first.
Proof. intros x y z. unfold most_recent_first. apply transitivity. Qed.

Global Instance most_recent_first_total : Total most_recent_first.
Proof. intros x y. apply (total time_desc). Qed.

Lemma get_all_logs_all (timestamptz_arg : json -> outcome Z) (db : database) :
  get_all_logs timestamptz_arg None None None db
  = (rows ← traverse decode_log (merge_sort most_recent_first (log db));
     logs ← traverse log_item rows;
     Return (mkResponse 200 (JList logs)), db).
Proof.
  unfold get_all_logs, mbind at 1, H_bind. rewrite fetch_logs_all.
  destruct (traverse decode_log _) as [rows|e]; [|done]. cbn.
  unfold mbind at 1, H_bind, lift.
  by destruct (traverse log_item rows).
Qed.

(** X23. GET /logs without filters answers 500 as soon as one row of
    the log has no time; when every row has a time in the years 1001
    to 9998 it answers 200 with one item for every row of the log,
    the most recent first, each made of the id, the barcode and the
    direction of its row and of the ISO text of the time of that row
    as the driver decodes it. *)
Theorem get_all_logs_lists_the_log
    (timestamptz_arg : json -> outcome Z) (db : database) :
  ((exists l, l ∈ log db /\ event_time l = None) ->
   (get_all_logs timestamptz_arg None None None db).2 = db
   /\ status_seen (get_all_logs timestamptz_arg None None None db).1 = 500)
  /\ ((forall l, l ∈ log db ->
                 exists us, event_time l = Some us
                            /\ SyncRuns.year_start_us 1001 <= us
                               < SyncRuns.year_start_us 9999) ->
      exists rows items,
        get_all_logs timestamptz_arg None None None db
        = (Return (mkResponse 200 (JList items)), db)
        /\ rows ≡ₚ log db
        /\ StronglySorted most_recent_first rows
        /\ Forall2 (fun l item =>
                      exists us dt,
                        event_time l = Some us
                        /\ timestamptz_decode us = Py.Ok dt
                        /\ item
                           = JDict [("id", JInt (id l));
                                    ("barcode", JStr (log_barcode l));
                                    ("event_time", JStr (isoformat dt));
                                    ("direction",
                                     JStr (direction_text
                                             (log_direction l)))])
                   rows items).
Proof.
  rewrite get_all_logs_all.
  set (sorted := merge_sort most_recent_first (log db)). cbn [fst snd].
  assert (sorted ≡ₚ log db) as Hperm by apply merge_sort_Permutation.
  split.
  - intros (l & Hl & Hnull). rewrite <- Hperm in Hl.
    destruct (traverse decode_log sorted) as [rows|e] eqn:Erows.
    2:{ assert (e = OverflowError) as ->; [|done].
        assert (exists y, decode_log y = Raise e) as [y Hy].
        { clear -Erows. induction sorted as [|a s IH] in e, Erows |- *;
            [done|]. cbn in Erows.
          destruct (decode_log a) as [r|e'] eqn:Ea; cbn in Erows.
          - destruct (traverse decode_log s) as [rs|e1]; cbn in Erows;
              [done|]. injection Erows as <-. by apply (IH e1).
          - injection Erows as <-. by exists a. }
        unfold decode_log in Hy. destruct (decode_event_time _); [done|].
        by injection Hy as <-. }
    assert (exists r, r ∈ rows /\ rec_event_time r = None) as (r & Hr & Hnone).
    { clear -Erows Hl Hnull. induction sorted as [|a s IH] in rows, Erows, Hl |- *;
        [by apply elem_of_nil in Hl|]. cbn in Erows.
      destruct (decode_log a) as [ra|] eqn:Ea; cbn in Erows; [|done].
      destruct (traverse decode_log s) as [rs|] eqn:Es; cbn in Erows; [|done].
      injection Erows as <-.
      apply elem_of_cons in Hl as [<-|Hl].
      - exists ra. split; [left|].
        by apply (decode_log_fields l ra Ea).
      - destruct (IH Hl rs eq_refl) as (r & Hr & Hn). exists r.
        split; [by right | done]. }
    unfold mbind at 1, outcome_bind at 1.
    destruct (traverse_raises log_item rows r Hr) as (y & e & _ & Hy & ->).
    { exists AttributeError. unfold log_item. by rewrite Hnone. }
    assert (e = AttributeError) as ->; [|done]. unfold log_item in Hy.
    destruct (rec_event_time y); [done|]. by injection Hy as <-.
  - intros Hall.
    assert (Forall (fun l => exists us dt r,
                        event_time l = Some us
                        /\ timestamptz_decode us = Py.Ok dt
                        /\ decode_log l = Return r
                        /\ log_item r = Return (json_of_log l dt)) sorted)
      as Hrows.
    { apply Forall_forall. intros l Hl. rewrite Hperm in Hl.
      destruct (Hall l Hl) as (us & Eus & Hus).
      destruct (SyncRuns.timestamptz_decode_spec us Hus) as (dt & Edt & _).
      exists us, dt. unfold decode_log, decode_event_time. rewrite Eus, Edt.
      eexists. split; [done|]. split; [done|]. split; [reflexivity|]. done. }
    exists sorted.
    assert (exists items,
               (rows ← traverse decode_log sorted; traverse log_item rows)
               = Return items
               /\ Forall2 (fun l item =>
                             exists us dt,
                               event_time l = Some us
                               /\ timestamptz_decode us = Py.Ok dt
                               /\ item = json_of_log l dt)
                          sorted items) as (items & Eitems & Hitems).
    { clear -Hrows.
      induction Hrows as [|l s (us & dt & r & Eus & Edt & Er & Ei) _ IH].
      { exists []. split; [done | constructor]. }
      destruct IH as (items & Eitems & Hitems). cbn. rewrite Er. cbn.
      destruct (traverse decode_log s) as [rs|]; cbn in Eitems |- *; [|done].
      rewrite Ei, Eitems. cbn. exists (json_of_log l dt :: items).
      split; [done|]. constructor; [by exists us, dt | done]. }
    exists items.
    destruct (traverse decode_log sorted) as [rows|] eqn:Erows;
      cbn in Eitems; [|done].
    cbn [mbind outcome_bind]. rewrite Eitems.
    split; [done|]. split; [done|]. split; [|done].
    apply StronglySorted_merge_sort; apply _.
Qed.

Lemma get_all_logs_lists_the_log_witness :
  ((get_all_logs refuses_all None None None timeless_log).2 = timeless_log
   /\ status_seen (get_all_logs refuses_all None None None timeless_log).1
      = 500)
  /\ exists rows items,
       get_all_logs refuses_all None None None three_logs
       = (Return (mkResponse 200 (JList items)), three_logs)
       /\ rows ≡ₚ log three_logs
       /\ StronglySorted most_recent_first rows
       /\ Forall2 (fun l item =>
                     exists us dt,
                       event_time l = Some us
                       /\ timestamptz_decode us = Py.Ok dt
                       /\ item
                          = JDict [("id", JInt (id l));
                                   ("barcode", JStr (log_barcode l));
                                   ("event_time", JStr (isoformat dt));
                                   ("direction",
                                    JStr (direction_text
                                            (log_direction l)))])
                  rows items.
Proof.
  split.
  - destruct (get_all_logs_lists_the_log refuses_all timeless_log) as [H _].
    apply H. exists (mkLog 2 "8001234567895" None CHECKOUT).
    split; [right; left | reflexivity].
  - destruct (get_all_logs_lists_the_log refuses_all three_logs) as [_ H].
    apply H. intros l Hl.
    repeat (apply elem_of_cons in Hl as [->|Hl]);
      [..|by apply elem_of_nil in Hl];
      (eexists; split; [reflexivity|]; vm_compute;
       split; [discriminate | reflexivity]).
Defined.

(** The three events of the sample log, the latest first. *)
Example three_logs_listed :
  (get_all_logs refuses_all None None None three_logs).1
  = Return (mkResponse 200
              (JList
                 [JDict
                    [("id", JInt 3); ("barcode", JStr "8001234567895");
                     ("event_time", JStr "1970-01-01T00:00:00.003000+00:00");
                     ("direction", JStr "CHECKIN")];
                  JDict
                    [("id", JInt 2); ("barcode", JStr "8001234567895");
                     ("event_time", JStr "1970-01-01T00:00:00.002000+00:00");
                     ("direction", JStr "CHECKOUT")];
                  JDict
                    [("id", JInt 1); ("barcode", JStr "8001234567895");
                     ("event_time", JStr "1970-01-01T00:00:00.001000+00:00");
                     ("direction", JStr "CHECKIN")]])).
Proof. vm_compute. reflexivity. Qed.

End ApiSpec.
